(** * The wine-classification and diabetes-statistics notebooks

  A shallow embedding of the two notebooks kept in [wine_mdl.ipynb]:
  the classifier comparison on the Wine data and the inferential
  statistics on the Diabetes data.  Every code cell is a function on the
  variables that later cells read; calls into pandas, NumPy, scikit-learn
  and SciPy are embedded by the behaviour their documentation fixes, and
  the numeric routines whose results are only printed (t-tests, model
  fitting) are arguments of the cells.

  Numbers: data values are exact rationals ([Q]) where the notebook only
  orders or counts them or takes one ratio of two counts, real numbers
  ([R]) where a square root is taken (standardisation), and binary64
  floats where the rounding shows: the product of the test size and the
  number of rows, the averages of the classification report, and the
  p-values that SciPy hands back and that are compared with the literal
  [0.05].

  The first part holds the definitions, the second part the theorems. *)

From Stdlib Require Import String Ascii.
From Stdlib Require Import List Bool Arith ZArith QArith Qround Qminmax Lia Lqa.
From Stdlib Require Import Permutation Sorted.
From Stdlib Require Import Floats Uint63.
From Stdlib Require Import Reals Lra.
Import ListNotations.

Set Implicit Arguments.

(** Linear arithmetic over the rationals and over the reals. *)
Ltac lraQ := Lqa.lra.
Ltac lraR := Lra.lra.

(* ================================================================== *)
(** * Part I: the embedding                                            *)
(* ================================================================== *)

(** ** Python exceptions and fallible computations *)

Module Py.

Inductive exn : Type :=
| ValueError
| KeyError
| NameError
| IndexError
| TypeError
| OverflowError
| FitError.          (* whatever an estimator's [fit] raises *)

Inductive result (A : Type) : Type :=
| Ok (a : A)
| Raise (e : exn).

Arguments Ok {A} a.
Arguments Raise {A} e.

Definition bind {A B} (m : result A) (k : A -> result B) : result B :=
  match m with
  | Ok a => k a
  | Raise e => Raise e
  end.

Definition is_ok {A} (m : result A) : bool :=
  match m with Ok _ => true | Raise _ => false end.

(** A Python float as the notebooks produce them from data: an exact
    value or NaN. *)
Inductive pyfloat : Type :=
| Finite (q : Q)
| NaN.

(** A name of the notebook's namespace: unbound until a cell assigns it. *)
Definition lookup {A} (v : option A) : result A :=
  match v with
  | Some a => Ok a
  | None => Raise NameError
  end.

End Py.

Import Py.

Notation "x <- m ;; k" := (Py.bind m (fun x => k))
(at level 61, m at next level, right associativity).

(* ------------------------------------------------------------------ *)
(** ** Running cells                                                   *)
(* ------------------------------------------------------------------ *)

Module Notebook.

Section Run.

Variable Kernel : Type.

(** A cell runs to its end or stops at the statement that raises; what it
    did before that stays done. *)
Definition Cell : Type := Kernel -> Kernel * option exn.

(** "Run All": top to bottom, stopping at the first cell that raises. *)
Fixpoint run (cells : list Cell) (k : Kernel) : Kernel * option exn :=
  match cells with
  | [] => (k, None)
  | c :: rest =>
      match c k with
      | (k', None) => run rest k'
      | (k', Some e) => (k', Some e)
      end
  end.

(** Cells run by hand one after the other: a cell that raises does not keep
    the next one from being run.  The exceptions are collected. *)
Fixpoint run_each (cells : list Cell) (k : Kernel) : Kernel * list exn :=
  match cells with
  | [] => (k, [])
  | c :: rest =>
      match c k with
      | (k', None) => run_each rest k'
      | (k', Some e) => let (k'', es) := run_each rest k' in (k'', e :: es)
      end
  end.

End Run.

End Notebook.

(* ------------------------------------------------------------------ *)
(** ** Rows with labels                                                *)
(* ------------------------------------------------------------------ *)

Module Pandas.

(** The rows of a frame or the entries of a series, each with its row
    label. *)
Definition Indexed (A : Type) : Type := list (nat * A).

Definition labels {A} (rows : Indexed A) : list nat := map fst rows.

Definition values {A} (rows : Indexed A) : list A := map snd rows.

(** The default labels 0, 1, ..., n-1 of a freshly built frame. *)
Definition range_index {A} (data : list A) : Indexed A :=
  combine (seq 0 (length data)) data.

(** [rows.iloc[positions]]: the rows at the given positions, in that order;
    a position past the end raises. *)
Fixpoint iloc {A} (rows : list A) (positions : list nat) : result (list A) :=
  match positions with
  | [] => Ok []
  | i :: rest =>
      match nth_error rows i with
      | None => Raise IndexError
      | Some r => taken <- iloc rows rest ;; Ok (r :: taken)
      end
  end.

(** *** Sorting a frame by one float column *)

Definition non_nan (pairs : list (nat * pyfloat)) : list (nat * Q) :=
  flat_map (fun ix => match snd ix with
                      | Finite q => [(fst ix, q)]
                      | NaN => []
                      end) pairs.

Definition nan_idx (pairs : list (nat * pyfloat)) : list nat :=
  flat_map (fun ix => match snd ix with
                      | Finite _ => []
                      | NaN => [fst ix]
                      end) pairs.

Section Sorting.

(** [values.argsort(kind='quicksort')]: the positions that put the values
    in ascending order.  NumPy's quicksort is not stable: in which order
    the positions of equal values come is left to the routine. *)
Variable argsort : list Q -> list nat.

(** [nargsort(items, kind='quicksort', ascending=..., na_position='last')]:
    the positions in sorted order.  For a descending sort pandas reverses
    the values, sorts ascending and reverses the outcome; the positions of
    the NaN entries follow at the end. *)
Definition nargsort (items : list pyfloat) (ascending : bool)
  : result (list nat) :=
  let pairs := combine (seq 0 (length items)) items in
  let non_nans := if ascending then non_nan pairs else rev (non_nan pairs) in
  indexer <- iloc (map fst non_nans) (argsort (map snd non_nans)) ;;
  let indexer := if ascending then indexer else rev indexer in
  Ok (indexer ++ nan_idx pairs).

(** [frame.sort_values(by=..., ascending=...)] for a float column [by]. *)
Definition sort_values {A} (frame : Indexed A) (by_ : A -> pyfloat)
  (ascending : bool) : result (Indexed A) :=
  indexer <- nargsort (map (fun row => by_ (snd row)) frame) ascending ;;
  iloc frame indexer.

End Sorting.

(** What NumPy promises of [argsort]: every position once, the values at
    the positions in ascending order. *)
Definition sorts (argsort : list Q -> list nat) : Prop :=
  forall v : list Q,
    Permutation (argsort v) (seq 0 (length v))
    /\ StronglySorted Qle (map (fun p => nth p v 0%Q) (argsort v)).

(** Two sorting routines that keep this promise, both by insertion.  The
    first puts a new entry in front of the entries of equal value, so that
    equal values keep the order they came in; the second puts it behind
    them, so that equal values change places. *)
Fixpoint insert_by_key (behind_equal : bool) (x : nat * Q)
  (run : list (nat * Q)) : list (nat * Q) :=
  match run with
  | [] => [x]
  | y :: rest =>
      if (if behind_equal then negb (Qle_bool (snd y) (snd x))
          else Qle_bool (snd x) (snd y))
      then x :: run
      else y :: insert_by_key behind_equal x rest
  end.

Definition insertion_argsort (behind_equal : bool) (v : list Q) : list nat :=
  map fst (fold_right (insert_by_key behind_equal) []
                      (combine (seq 0 (length v)) v)).

(** A position next to its value. *)
Definition with_value (iq : nat * Q) : nat * pyfloat := (fst iq, Finite (snd iq)).

Definition with_nan (i : nat) : nat * pyfloat := (i, NaN).

(** Where a row stands after a descending sort, as the position-value
    pairs see it: no smaller value before a larger one, NaN behind every
    number, the NaN rows in the order of their labels. *)
Definition descending (a b : nat * pyfloat) : Prop :=
  match snd a, snd b with
  | Finite x, Finite y => (y <= x)%Q
  | Finite _, NaN => True
  | NaN, Finite _ => False
  | NaN, NaN => (fst a < fst b)%nat
  end.

End Pandas.

(* ------------------------------------------------------------------ *)
(** ** [sklearn.model_selection.train_test_split]                      *)
(* ------------------------------------------------------------------ *)

Module ModelSelection.

Import Pandas.

(** *** The arithmetic of the size check *)

(** [test_size * n_samples] is a product of Python floats.  How a size is
    written, when it lies strictly between 0 and 1, and what
    [ceil(test_size * n_samples)] comes to, or raises. *)
Record Arithmetic : Type := mkArithmetic {
  size : Type;
  in_unit : size -> bool;
  ceil_share : size -> nat -> result Z
}.

(** The integer [n] as a float ([n] below 2^63). *)
Definition float_of_nat (n : nat) : float :=
  PrimFloat.of_uint63 (Uint63.of_Z (Z.of_nat n)).

(** [math.ceil(x)]: NaN and the infinities have no ceiling. *)
Definition ceil (x : float) : result Z :=
  match Prim2SF x with
  | S754_nan => Raise ValueError
  | S754_infinity _ => Raise OverflowError
  | S754_zero _ => Ok 0%Z
  | S754_finite negative m e =>
      let magnitude := inject_Z (Zpos m) * Qpower 2 e in
      Ok (Qceiling (if negative then - magnitude else magnitude))
  end.

(** Binary64, as Python computes: the comparisons are those of IEEE 754
    (all false on NaN), the product is rounded before its ceiling is
    taken. *)
Definition binary64 : Arithmetic :=
  mkArithmetic
    (fun test_size : float =>
       negb (PrimFloat.leb test_size 0 || PrimFloat.leb 1 test_size))
    (fun test_size n_samples => ceil (test_size * float_of_nat n_samples)%float).

(** The same without rounding, for a size given as a fraction. *)
Definition exact : Arithmetic :=
  mkArithmetic
    (fun test_size : Q => negb (Qle_bool test_size 0 || Qle_bool 1 test_size))
    (fun test_size n_samples =>
       Ok (Qceiling (test_size * inject_Z (Z.of_nat n_samples)))).

Section TrainTestSplit.

(** NumPy's generator: [RandomState(seed)] and [rng.permutation(n)], which
    hands back a shuffled [range(n)] and leaves the generator advanced. *)
Variable RandomState : Type.
Variable seeded : Z -> RandomState.
Variable permutation : RandomState -> nat -> list nat * RandomState.

Variable arithmetic : Arithmetic.

(** [check_random_state]: an int seeds a generator of its own, which NumPy
    refuses for a seed outside of 0 .. 2^32 - 1; [None] stands for the
    process-wide generator. *)
Definition check_random_state (random_state : option Z) (global : RandomState)
  : result RandomState :=
  match random_state with
  | Some seed =>
      if (0 <=? seed)%Z && (seed <? 2 ^ 32)%Z then Ok (seeded seed)
      else Raise ValueError
  | None => Ok global
  end.

(** [_validate_shuffle_split] for a float [test_size] and no [train_size]:
    [n_test = ceil(test_size * n_samples)], [n_train = n_samples - n_test];
    a [test_size] outside (0, 1) and an empty training set are refused. *)
Definition validate_shuffle_split (n_samples : nat) (test_size : size arithmetic)
  : result (Z * Z) :=
  if negb (in_unit arithmetic test_size) then Raise ValueError
  else
    n_test <- ceil_share arithmetic test_size n_samples ;;
    let n_train := (Z.of_nat n_samples - n_test)%Z in
    if (n_train =? 0)%Z then Raise ValueError
    else Ok (n_train, n_test).

(** [perm[start : start + count]] *)
Definition slice (perm : list nat) (start count : Z) : list nat :=
  firstn (Z.to_nat count) (skipn (Z.to_nat start) perm).

(** [train_test_split(X, y, test_size=..., random_state=...)], shuffling,
    no stratification.  The second component is the process-wide generator
    after the call. *)
Definition train_test_split {A B} (X : Indexed A) (y : Indexed B)
  (test_size : size arithmetic) (random_state : option Z) (global : RandomState)
  : result (Indexed A * Indexed A * Indexed B * Indexed B) * RandomState :=
  if negb (Nat.eqb (length X) (length y)) then (Raise ValueError, global)
  else
    match validate_shuffle_split (length X) test_size with
    | Raise e => (Raise e, global)
    | Ok (n_train, n_test) =>
        match check_random_state random_state global with
        | Raise e => (Raise e, global)
        | Ok rng =>
            let (perm, rng') := permutation rng (length X) in
            let ind_test := slice perm 0 n_test in
            let ind_train := slice perm n_test n_train in
            (X_train <- iloc X ind_train ;;
             X_test <- iloc X ind_test ;;
             y_train <- iloc y ind_train ;;
             y_test <- iloc y ind_test ;;
             Ok (X_train, X_test, y_train, y_test),
             match random_state with
             | Some _ => global
             | None => rng'
             end)
        end
    end.

End TrainTestSplit.

(** A stand-in generator for running the definitions: the state counts the
    draws and every permutation is the reversed range. *)
Definition counter_seeded (seed : Z) : Z := seed.

Definition counter_permutation (state : Z) (n : nat) : list nat * Z :=
  (rev (seq 0 n), (state + 1)%Z).

End ModelSelection.

(* ------------------------------------------------------------------ *)
(** ** [sklearn.preprocessing.StandardScaler]                          *)
(* ------------------------------------------------------------------ *)

Module Preprocessing.

Local Open Scope R_scope.

(** A two-dimensional array: the list of its rows. *)
Definition Array : Type := list (list R).

Definition total (xs : list R) : R := fold_right Rplus 0 xs.

Definition mean (xs : list R) : R := total xs / INR (length xs).

(** The variance NumPy takes by default: the mean squared deviation. *)
Definition var (xs : list R) : R :=
  mean (map (fun x => (x - mean xs) * (x - mean xs)) xs).

Definition std (xs : list R) : R := sqrt (var xs).

Definition column (X : Array) (j : nat) : list R :=
  map (fun row => nth j row 0) X.

Definition has_width (d : nat) (row : list R) : bool := Nat.eqb (length row) d.

(** [np.finfo(np.float64).eps], 2^-52 *)
Definition eps : R := / 4503599627370496.

(** [_is_constant_feature(var, mean, n_samples)]: a feature counts as
    constant when its variance is within the error bound of the variance
    computation, [var <= n * eps * var + (n * mean * eps)^2]; a variance of
    0 always is. *)
Definition is_constant_feature (var mean : R) (n_samples : nat) : bool :=
  if Rle_dec var (INR n_samples * eps * var
                  + (INR n_samples * mean * eps) * (INR n_samples * mean * eps))
  then true else false.

(** [_handle_zeros_in_scale(scale, constant_mask=...)]: a feature that
    counts as constant is left as it is, its scaling factor is 1. *)
Definition handle_zeros_in_scale (scale : R) (constant_mask : bool) : R :=
  if constant_mask then 1 else scale.

(** Whether [fit] takes a feature for constant, and the scaling factor it
    finds for it. *)
Definition near_constant (xs : list R) : bool :=
  is_constant_feature (var xs) (mean xs) (length xs).

Definition scale_of (xs : list R) : R :=
  handle_zeros_in_scale (std xs) (near_constant xs).

Record StandardScaler : Type := mkScaler {
  mean_ : list R;
  scale_ : list R
}.

(** [scaler.fit(X)]: per-feature mean and standard deviation.  An array
    without rows or without columns is refused. *)
Definition fit (X : Array) : result StandardScaler :=
  match X with
  | [] => Raise ValueError
  | row :: _ =>
      let d := length row in
      if Nat.eqb d 0 then Raise ValueError
      else Ok (mkScaler
                 (map (fun j => mean (column X j)) (seq 0 d))
                 (map (fun j => scale_of (column X j)) (seq 0 d)))
  end.

Definition scale_row (scaler : StandardScaler) (row : list R) : list R :=
  map (fun xms => (fst xms - fst (snd xms)) / snd (snd xms))
      (combine row (combine (mean_ scaler) (scale_ scaler))).

(** [scaler.transform(X)]: [(x - mean) / scale] in every column; an array
    without rows is refused, and the number of columns must be the one
    seen by [fit]. *)
Definition transform (scaler : StandardScaler) (X : Array) : result Array :=
  match X with
  | [] => Raise ValueError
  | _ :: _ =>
      if forallb (has_width (length (mean_ scaler))) X
      then Ok (map (scale_row scaler) X)
      else Raise ValueError
  end.

(** [scaler.fit_transform(X)] hands back the scaled array and leaves the
    scaler fitted. *)
Definition fit_transform (X : Array) : result (StandardScaler * Array) :=
  scaler <- fit X ;;
  scaled <- transform scaler X ;;
  Ok (scaler, scaled).

(** Every row has [d] entries. *)
Definition rectangular (d : nat) (X : Array) : Prop :=
  Forall (fun row => length row = d) X.

End Preprocessing.

(* ------------------------------------------------------------------ *)
(** ** [sklearn.metrics]                                               *)
(* ------------------------------------------------------------------ *)

Module Metrics.

Local Open Scope Q_scope.

Definition of_nat (n : nat) : Q := inject_Z (Z.of_nat n).

Definition total (xs : list Q) : Q := fold_right Qplus 0 xs.

(** [np.average(xs)] of zeros and ones: the sum is a count, and one
    division gives the mean; the mean of nothing is NaN. *)
Definition average (xs : list Q) : pyfloat :=
  if Nat.eqb (length xs) 0 then NaN
  else Finite (total xs / of_nat (length xs)).

Definition indicator (b : bool) : Q := if b then 1 else 0.

(** [accuracy_score(y_true, y_pred)]: the mean of [y_true == y_pred].
    Lists of different lengths and lists without entries are refused. *)
Definition accuracy_score (y_true y_pred : list nat) : result pyfloat :=
  if negb (Nat.eqb (length y_true) (length y_pred)) then Raise ValueError
  else if Nat.eqb (length y_true) 0 then Raise ValueError
  else Ok (average (map (fun tp => indicator (Nat.eqb (fst tp) (snd tp)))
                        (combine y_true y_pred))).

(** *** Sums and averages of floats *)

Definition float_of_Z (z : Z) : float :=
  match z with
  | Zneg p => (- PrimFloat.of_uint63 (Uint63.of_Z (Zpos p)))%float
  | _ => PrimFloat.of_uint63 (Uint63.of_Z z)
  end.

(** The float of a ratio of counts: one division, rounded once (numerator
    and denominator in lowest terms are below 2^53). *)
Definition rounded (q : Q) : float :=
  (float_of_Z (Qnum (Qred q)) / float_of_Z (Zpos (Qden (Qred q))))%float.

Definition add_all (start : float) (xs : list float) : float :=
  fold_left PrimFloat.add xs start.

(** Eight running sums over blocks of eight entries. *)
Fixpoint add_blocks (fuel : nat) (sums rest : list float)
  : list float * list float :=
  match fuel with
  | O => (sums, rest)
  | S fuel =>
      if Nat.ltb (length rest) 8 then (sums, rest)
      else add_blocks fuel
             (map (fun rx => fst rx + snd rx)%float (combine sums (firstn 8 rest)))
             (skipn 8 rest)
  end.

Definition sum_of_sums (sums : list float) : float :=
  match sums with
  | [r0; r1; r2; r3; r4; r5; r6; r7] =>
      (((r0 + r1) + (r2 + r3)) + ((r4 + r5) + (r6 + r7)))%float
  | _ => add_all neg_zero sums
  end.

(** NumPy's pairwise summation: up to seven entries are added from left to
    right, up to 128 in eight interleaved sums, more than that in two
    halves. *)
Fixpoint pairwise_sum (fuel : nat) (xs : list float) : float :=
  let n := length xs in
  if Nat.ltb n 8 then add_all neg_zero xs
  else if Nat.leb n 128 then
    let (sums, rest) := add_blocks n (firstn 8 xs) (skipn 8 xs) in
    add_all (sum_of_sums sums) rest
  else
    match fuel with
    | O => add_all neg_zero xs
    | S fuel =>
        let half := (n / 2)%nat in
        let half := (half - half mod 8)%nat in
        (pairwise_sum fuel (firstn half xs)
         + pairwise_sum fuel (skipn half xs))%float
    end.

(** [xs.sum()] *)
Definition np_sum (xs : list float) : float :=
  (0 + pairwise_sum (length xs) xs)%float.

(** [np.nanmean(xs)] of numbers *)
Definition np_mean (xs : list float) : float :=
  (np_sum xs / float_of_Z (Z.of_nat (length xs)))%float.

(** [np.average(xs, weights=ws)]: the products are rounded, added up and
    divided by the sum of the weights. *)
Definition np_average (xs : list float) (ws : list nat) : float :=
  let weights := map (fun w => float_of_Z (Z.of_nat w)) ws in
  (np_sum (map (fun xw => fst xw * snd xw)%float (combine xs weights))
   / np_sum weights)%float.

(** The number of evaluation rows predicted right. *)
Definition correct (y_true y_pred : list nat) : nat :=
  length (filter (fun tp => Nat.eqb (fst tp) (snd tp)) (combine y_true y_pred)).

(** *** The classification report *)

Fixpoint insert_label (c : nat) (l : list nat) : list nat :=
  match l with
  | [] => [c]
  | c' :: rest =>
      if Nat.ltb c c' then c :: l
      else if Nat.eqb c c' then l
      else c' :: insert_label c rest
  end.

(** [unique_labels(y_true, y_pred)]: the classes seen on either side, in
    ascending order. *)
Definition unique_labels (y_true y_pred : list nat) : list nat :=
  fold_right insert_label [] (y_true ++ y_pred).

Definition tp_sum (y_true y_pred : list nat) (c : nat) : nat :=
  length (filter (fun tp => Nat.eqb (fst tp) c && Nat.eqb (snd tp) c)
                 (combine y_true y_pred)).

Definition pred_sum (y_pred : list nat) (c : nat) : nat :=
  count_occ Nat.eq_dec y_pred c.

Definition true_sum (y_true : list nat) (c : nat) : nat :=
  count_occ Nat.eq_dec y_true c.

(** [_prf_divide] with [zero_division="warn"]: a ratio over nothing is 0. *)
Definition prf_divide (numerator denominator : Q) : Q :=
  if Qeq_bool denominator 0 then 0 else numerator / denominator.

Record ClassRow : Type := mkClassRow {
  precision : Q;
  recall : Q;
  f1_score : Q;
  support : nat
}.

Definition class_row (y_true y_pred : list nat) (c : nat) : ClassRow :=
  let p := prf_divide (of_nat (tp_sum y_true y_pred c)) (of_nat (pred_sum y_pred c)) in
  let r := prf_divide (of_nat (tp_sum y_true y_pred c)) (of_nat (true_sum y_true c)) in
  mkClassRow p r (prf_divide (2 * p * r) (p + r)) (true_sum y_true c).

(** The averages are floats: they are computed from the rounded per-class
    values with rounded sums. *)
Record Averages : Type := mkAverages {
  avg_precision : float;
  avg_recall : float;
  avg_f1_score : float
}.

Record Report : Type := mkReport {
  per_class : list (nat * ClassRow);
  accuracy : pyfloat;
  macro_avg : Averages;
  weighted_avg : Averages
}.

(** [classification_report(y_true, y_pred)] *)
Definition classification_report (y_true y_pred : list nat) : result Report :=
  acc <- accuracy_score y_true y_pred ;;
  let rows := map (fun c => (c, class_row y_true y_pred c))
                  (unique_labels y_true y_pred) in
  let col (f : ClassRow -> Q) := map (fun cr => rounded (f (snd cr))) rows in
  let weights := map (fun cr => support (snd cr)) rows in
  Ok (mkReport rows acc
        (mkAverages (np_mean (col precision)) (np_mean (col recall))
                    (np_mean (col f1_score)))
        (mkAverages (np_average (col precision) weights)
                    (np_average (col recall) weights)
                    (np_average (col f1_score) weights))).

(** The per-class F1 scores of a report, and the greatest of a list of
    scores. *)
Definition f1_scores (r : Report) : list Q :=
  map (fun cr => f1_score (snd cr)) (per_class r).

Definition greatest (xs : list Q) : Q :=
  match xs with
  | [] => 0
  | x :: rest => fold_right Qmax x rest
  end.

(** A count per class, added up over the classes of a report. *)
Definition class_total (f : nat -> nat) (classes : list nat) : nat :=
  fold_right Nat.add 0%nat (map f classes).

End Metrics.

(* ------------------------------------------------------------------ *)
(** ** The wine notebook                                               *)
(* ------------------------------------------------------------------ *)

Module Wine.

Import Pandas.

(** *** Values and the namespace *)

(** A fitted classifier: its [predict], which hands back one class per
    row or raises (an array without rows, a width other than the fitted
    one, fewer fitted rows than neighbours asked for). *)
Definition Classifier : Type := Preprocessing.Array -> result (list nat).

(** The frame [df]: per row the thirteen features and the class. *)
Definition Frame : Type := Indexed (list R * nat).

Inductive Value : Type :=
| VFrame (df : Frame)
| VFeatures (X : Indexed (list R))           (* a frame of features *)
| VArray (a : Preprocessing.Array)           (* a NumPy array *)
| VSeries (y : Indexed nat)
| VLabels (y : list nat)
| VFloat (x : pyfloat)
| VScaler (fitted : option Preprocessing.StandardScaler)
| VEstimator (fitted : option Classifier)
| VComparison (rows : Indexed (string * pyfloat)).

Inductive Line : Type :=
| HeadLine (rows : Frame)
| AccuracyLine (label : string) (a : pyfloat)
| ReportLine (r : Metrics.Report)
| ComparisonLine (rows : Indexed (string * pyfloat)).

Section Kernel.

Variable RandomState : Type.

(** The names bound so far, NumPy's process-wide generator and the
    printed output. *)
Record Kernel : Type := mkKernel {
  globals : string -> option Value;
  np_random : RandomState;
  stdout : list Line
}.

Definition get (k : Kernel) (name : string) : result Value :=
  lookup (globals k name).

Definition set (k : Kernel) (name : string) (v : Value) : Kernel :=
  mkKernel (fun n => if String.eqb n name then Some v else globals k n)
           (np_random k) (stdout k).

Definition print (k : Kernel) (l : Line) : Kernel :=
  mkKernel (globals k) (np_random k) (stdout k ++ [l]).

(** A statement runs to its end or raises; a cell is a list of statements
    and stops at the first one that raises, keeping what was done. *)
Definition Stmt : Type := Kernel -> result Kernel.

Fixpoint cell (stmts : list Stmt) (k : Kernel) : Kernel * option exn :=
  match stmts with
  | [] => (k, None)
  | stmt :: rest =>
      match stmt k with
      | Ok k' => cell rest k'
      | Raise e => (k, Some e)
      end
  end.

(** A statement that never rebinds or rewrites [name]. *)
Definition leaves (name : string) (stmt : Stmt) : Prop :=
  forall k k', stmt k = Ok k' -> globals k' name = globals k name.

(** *** What the library calls accept *)

Definition as_frame (v : Value) : result Frame :=
  match v with VFrame df => Ok df | _ => Raise TypeError end.

Definition as_features (v : Value) : result (Indexed (list R)) :=
  match v with VFeatures X => Ok X | _ => Raise TypeError end.

Definition as_series (v : Value) : result (Indexed nat) :=
  match v with VSeries y => Ok y | _ => Raise TypeError end.

(** A frame of features or an array, as scikit-learn reads either. *)
Definition as_array (v : Value) : result Preprocessing.Array :=
  match v with
  | VFeatures X => Ok (values X)
  | VArray a => Ok a
  | _ => Raise TypeError
  end.

Definition as_labels (v : Value) : result (list nat) :=
  match v with
  | VSeries y => Ok (values y)
  | VLabels y => Ok y
  | _ => Raise TypeError
  end.

Definition as_float (v : Value) : result pyfloat :=
  match v with VFloat x => Ok x | _ => Raise TypeError end.

(** *** Loading *)

Definition feature_names : list string :=
  ["alcohol"; "malic_acid"; "ash"; "alcalinity_of_ash"; "magnesium";
   "total_phenols"; "flavanoids"; "nonflavanoid_phenols"; "proanthocyanins";
   "color_intensity"; "hue"; "od280/od315_of_diluted_wines"; "proline"]%string.

(** [df = pd.DataFrame(wine.data, columns=wine.feature_names)],
    [df['target'] = wine.target], [print(df.head())] *)
Definition load_cell (data : Preprocessing.Array) (target : list nat)
  : list Stmt :=
  [ fun k =>
      if forallb (Preprocessing.has_width (length feature_names)) data
      then Ok (set k "df" (VFeatures (range_index data)))
      else Raise ValueError;
    fun k =>
      v <- get k "df" ;; features <- as_features v ;;
      if Nat.eqb (length target) (length features)
      then Ok (set k "df"
                 (VFrame (map (fun rt => (fst (fst rt), (snd (fst rt), snd rt)))
                              (combine features target))))
      else Raise ValueError;
    fun k =>
      v <- get k "df" ;; df <- as_frame v ;;
      Ok (print k (HeadLine (firstn 5 df))) ].

(** *** Splitting and scaling *)

Variable seeded : Z -> RandomState.
Variable permutation : RandomState -> nat -> list nat * RandomState.

(** [X = df.drop('target', axis=1)], [y = df['target']],
    [X_train, X_test, y_train, y_test =
       train_test_split(X, y, test_size=0.2, random_state=42)].
    The share is taken as the exact fifth: the binary64 product [0.2 * n]
    has the ceiling of [n / 5] (below, [fifth_in_binary64]). *)
Definition split_cell : list Stmt :=
  [ fun k =>
      v <- get k "df" ;; df <- as_frame v ;;
      Ok (set k "X" (VFeatures (map (fun r => (fst r, fst (snd r))) df)));
    fun k =>
      v <- get k "df" ;; df <- as_frame v ;;
      Ok (set k "y" (VSeries (map (fun r => (fst r, snd (snd r))) df)));
    fun k =>
      vX <- get k "X" ;; X <- as_features vX ;;
      vy <- get k "y" ;; y <- as_series vy ;;
      let (outcome, rng) :=
        @ModelSelection.train_test_split RandomState seeded permutation
          ModelSelection.exact _ _ X y (1 # 5) (Some 42%Z) (np_random k) in
      parts <- outcome ;;
      let k := mkKernel (globals k) rng (stdout k) in
      Ok (set (set (set (set k
            "X_train" (VFeatures (fst (fst (fst parts)))))
            "X_test" (VFeatures (snd (fst (fst parts)))))
            "y_train" (VSeries (snd (fst parts))))
            "y_test" (VSeries (snd parts))) ].

(** [scaler = StandardScaler()],
    [X_train = scaler.fit_transform(X_train)],
    [X_test = scaler.transform(X_test)] *)
Definition scale_cell : list Stmt :=
  [ fun k => Ok (set k "scaler" (VScaler None));
    fun k =>
      vX <- get k "X_train" ;; X_train <- as_array vX ;;
      fitted <- Preprocessing.fit_transform X_train ;;
      Ok (set (set k "scaler" (VScaler (Some (fst fitted))))
              "X_train" (VArray (snd fitted)));
    fun k =>
      vs <- get k "scaler" ;;
      scaler <- match vs with
                | VScaler (Some scaler) => Ok scaler
                | VScaler None => Raise FitError        (* not fitted *)
                | _ => Raise TypeError
                end ;;
      vX <- get k "X_test" ;; X_test <- as_array vX ;;
      X_test' <- Preprocessing.transform scaler X_test ;;
      Ok (set k "X_test" (VArray X_test')) ].

(** *** The five classifiers *)

(** The estimators, by the names the notebook gives them:
    [LogisticRegression(max_iter=200)],
    [DecisionTreeClassifier(random_state=42)],
    [RandomForestClassifier(n_estimators=100, random_state=42)],
    [SVC(kernel='linear', random_state=42)],
    [KNeighborsClassifier(n_neighbors=5)]. *)
Inductive Model : Type := log_reg | dtree | rf | svm | knn.

Definition panel : list Model := [log_reg; dtree; rf; svm; knn].

Definition estimator_name (m : Model) : string :=
  match m with
  | log_reg => "log_reg"
  | dtree => "dtree"
  | rf => "rf"
  | svm => "svm"
  | knn => "knn"
  end.

Definition y_pred_name (m : Model) : string :=
  match m with
  | log_reg => "y_pred_log_reg"
  | dtree => "y_pred_dtree"
  | rf => "y_pred_rf"
  | svm => "y_pred_svm"
  | knn => "y_pred_knn"
  end.

Definition accuracy_name (m : Model) : string :=
  match m with
  | log_reg => "accuracy_log_reg"
  | dtree => "accuracy_dtree"
  | rf => "accuracy_rf"
  | svm => "accuracy_svm"
  | knn => "accuracy_knn"
  end.

Definition printed_name (m : Model) : string :=
  match m with
  | log_reg => "Logistic Regression"
  | dtree => "Decision Tree"
  | rf => "Random Forest"
  | svm => "SVM"
  | knn => "KNN"
  end.

(** Training: what [estimator.fit(X_train, y_train)] leaves in the
    estimator, or the exception it raises. *)
Variable fit : Model -> Preprocessing.Array -> list nat -> result Classifier.

(** The cell of one classifier: initialise, [fit], [predict],
    [accuracy_score], and the two prints. *)
Definition model_cell (m : Model) : list Stmt :=
  [ fun k => Ok (set k (estimator_name m) (VEstimator None));
    fun k =>
      ve <- get k (estimator_name m) ;;
      vX <- get k "X_train" ;; X_train <- as_array vX ;;
      vy <- get k "y_train" ;; y_train <- as_labels vy ;;
      clf <- fit m X_train y_train ;;
      Ok (set k (estimator_name m) (VEstimator (Some clf)));
    fun k =>
      ve <- get k (estimator_name m) ;;
      clf <- match ve with
             | VEstimator (Some clf) => Ok clf
             | VEstimator None => Raise FitError        (* not fitted *)
             | _ => Raise TypeError
             end ;;
      vX <- get k "X_test" ;; X_test <- as_array vX ;;
      y_pred <- clf X_test ;;
      Ok (set k (y_pred_name m) (VLabels y_pred));
    fun k =>
      vy <- get k "y_test" ;; y_test <- as_labels vy ;;
      vp <- get k (y_pred_name m) ;; y_pred <- as_labels vp ;;
      a <- Metrics.accuracy_score y_test y_pred ;;
      Ok (set k (accuracy_name m) (VFloat a));
    fun k =>
      va <- get k (accuracy_name m) ;; a <- as_float va ;;
      Ok (print k (AccuracyLine (printed_name m) a));
    fun k =>
      vy <- get k "y_test" ;; y_test <- as_labels vy ;;
      vp <- get k (y_pred_name m) ;; y_pred <- as_labels vp ;;
      r <- Metrics.classification_report y_test y_pred ;;
      Ok (print k (ReportLine r)) ].

(** What one classifier cell computes on the arrays of the split, or the
    first exception on the way: the fitted classifier, its predictions,
    the accuracy and the report. *)
Definition scores (m : Model) (X_train : Preprocessing.Array)
  (y_train : list nat) (X_test : Preprocessing.Array) (y_test : list nat)
  : result (Classifier * list nat * pyfloat * Metrics.Report) :=
  clf <- fit m X_train y_train ;;
  y_pred <- clf X_test ;;
  a <- Metrics.accuracy_score y_test y_pred ;;
  r <- Metrics.classification_report y_test y_pred ;;
  Ok (clf, y_pred, a, r).

(** *** The comparison *)

(** NumPy's sorting routine behind [sort_values]. *)
Variable argsort : list Q -> list nat.

(** The list ['Accuracy': [accuracy_log_reg, ...]]: the names are looked
    up from left to right. *)
Fixpoint accuracies (k : Kernel) (models : list Model) : result (list pyfloat) :=
  match models with
  | [] => Ok []
  | m :: rest =>
      v <- get k (accuracy_name m) ;; a <- as_float v ;;
      others <- accuracies k rest ;;
      Ok (a :: others)
  end.

Definition as_comparison (v : Value) : result (Indexed (string * pyfloat)) :=
  match v with VComparison rows => Ok rows | _ => Raise TypeError end.

(** [model_comparison = pd.DataFrame({'Model': [...], 'Accuracy': [...]})],
    [model_comparison = model_comparison.sort_values(by='Accuracy',
    ascending=False)], [print(model_comparison)] *)
Definition comparison_cell : list Stmt :=
  [ fun k =>
      accs <- accuracies k panel ;;
      Ok (set k "model_comparison"
            (VComparison (range_index (combine (map printed_name panel) accs))));
    fun k =>
      v <- get k "model_comparison" ;; rows <- as_comparison v ;;
      sorted <- sort_values argsort rows snd false ;;
      Ok (set k "model_comparison" (VComparison sorted));
    fun k =>
      v <- get k "model_comparison" ;; rows <- as_comparison v ;;
      Ok (print k (ComparisonLine rows)) ].

(** The cells after the loading cell, top to bottom. *)
Definition pipeline : list (Notebook.Cell Kernel) :=
  [cell split_cell; cell scale_cell] ++ map (fun m => cell (model_cell m)) panel
  ++ [cell comparison_cell].

(** The Report, once the comparison cell has built it. *)
Definition report (k : Kernel) : option (Indexed (string * pyfloat)) :=
  match globals k "model_comparison" with
  | Some (VComparison rows) => Some rows
  | _ => None
  end.

(** The state the classifier cells start from: the four arrays of the
    split are bound. *)
Definition prepared (k : Kernel) (X_train : Preprocessing.Array)
  (y_train : list nat) (X_test : Preprocessing.Array) (y_test : list nat)
  : Prop :=
  (exists v, globals k "X_train" = Some v /\ as_array v = Ok X_train)
  /\ (exists v, globals k "y_train" = Some v /\ as_labels v = Ok y_train)
  /\ (exists v, globals k "X_test" = Some v /\ as_array v = Ok X_test)
  /\ (exists v, globals k "y_test" = Some v /\ as_labels v = Ok y_test).

(** The panel followed by the comparison. *)
Definition panel_cells : list (Notebook.Cell Kernel) :=
  map (fun m => cell (model_cell m)) panel ++ [cell comparison_cell].

(** A kernel in which nothing is bound yet. *)
Definition fresh (rng : RandomState) : Kernel :=
  mkKernel (fun _ => None) rng [].

(** A kernel as the scaling cell leaves it, as far as the classifier cells
    look. *)
Definition split_done (rng : RandomState)
  (X_train : Preprocessing.Array) (y_train : list nat)
  (X_test : Preprocessing.Array) (y_test : list nat) : Kernel :=
  set (set (set (set (fresh rng)
    "X_train" (VArray X_train))
    "y_train" (VSeries (range_index y_train)))
    "X_test" (VArray X_test))
    "y_test" (VSeries (range_index y_test)).

(** A kernel in which the five accuracies are bound. *)
Definition scored (k : Kernel) (a : Model -> pyfloat) : Kernel :=
  fold_left (fun k m => set k (accuracy_name m) (VFloat (a m))) panel k.

End Kernel.

(** The accuracies printed in the notebook: 36, 34, 36, 35 and 34 of the
    36 evaluation rows. *)
Definition recorded (m : Model) : pyfloat :=
  match m with
  | log_reg => Finite (36 # 36)
  | dtree => Finite (34 # 36)
  | rf => Finite (36 # 36)
  | svm => Finite (35 # 36)
  | knn => Finite (34 # 36)
  end.

(** Accuracies with two ties: 1.0, 1.0, 0.97, 0.94 and 0.94 in the order
    of the panel. *)
Definition tied (m : Model) : pyfloat :=
  match m with
  | log_reg => Finite 1
  | dtree => Finite 1
  | rf => Finite (97 # 100)
  | svm => Finite (94 # 100)
  | knn => Finite (94 # 100)
  end.

(** Estimators for running the cells: every fit hands back the classifier
    that answers class 0 for every row (and refuses an array without
    rows), except that logistic regression does not converge. *)
Definition always_zero : Classifier :=
  fun X => match X with
           | [] => Raise ValueError
           | _ :: _ => Ok (map (fun _ => 0%nat) X)
           end.

Definition failing_log_reg (m : Model) (X : Preprocessing.Array) (y : list nat)
  : result Classifier :=
  match m with
  | log_reg => Raise FitError
  | _ => Ok always_zero
  end.

(** Rows of one feature for running the cells. *)
Definition two_wines : list (list R * nat) := [([1%R], 0%nat); ([3%R], 1%nat)].

Definition constant_fit (m : Model) (X : Preprocessing.Array) (y : list nat)
  : result Classifier :=
  Ok always_zero.

End Wine.

(* ------------------------------------------------------------------ *)
(** ** The diabetes notebook                                           *)
(* ------------------------------------------------------------------ *)

Module Diabetes.

Local Open Scope Q_scope.

(** *** Frames and series *)

(** A column holds floats, or the category labels that [pd.qcut] makes
    ([None] is the missing value NaN). *)
Inductive Column : Type :=
| Floats (v : list Q)
| Categories (v : list (option string)).

(** A DataFrame: the row labels and the named columns, in order. *)
Record DataFrame : Type := mkDataFrame {
  index : list nat;
  columns : list (string * Column)
}.

(** A Series of floats keeps the row labels of the frame it was cut from. *)
Record Series : Type := mkSeries {
  s_index : list nat;
  s_values : list Q
}.

Definition column_length (c : Column) : nat :=
  match c with
  | Floats v => length v
  | Categories v => length v
  end.

Fixpoint find_column (name : string) (cols : list (string * Column))
  : option Column :=
  match cols with
  | [] => None
  | (k, c) :: rest => if String.eqb k name then Some c else find_column name rest
  end.

(** [df[name]] for a float column. *)
Definition getitem (df : DataFrame) (name : string) : result Series :=
  match find_column name (columns df) with
  | Some (Floats v) => Ok (mkSeries (index df) v)
  | Some (Categories _) => Raise ValueError
  | None => Raise KeyError
  end.

Fixpoint replace_column (name : string) (c : Column)
  (cols : list (string * Column)) : list (string * Column) :=
  match cols with
  | [] => [(name, c)]
  | (k, c0) :: rest =>
      if String.eqb k name then (k, c) :: rest
      else (k, c0) :: replace_column name c rest
  end.

(** [df[name] = c] on a frame with rows, for an array or for a Series
    cut from the frame itself: an existing column is overwritten in place,
    a new name is appended after the last column; the length must fit.
    (pandas lets a frame without rows take its index from the value and
    aligns a Series of another index by label; such frames and values are
    outside of this model.) *)
Definition setitem (df : DataFrame) (name : string) (c : Column)
  : result DataFrame :=
  if Nat.eqb (column_length c) (length (index df))
  then Ok (mkDataFrame (index df) (replace_column name c (columns df)))
  else Raise ValueError.

(** *** Loading: [pd.DataFrame(data=..., columns=feature_names)], then
    [df['target'] = diabetes.target] *)

Definition feature_names : list string :=
  ["age"; "sex"; "bmi"; "bp"; "s1"; "s2"; "s3"; "s4"; "s5"; "s6"]%string.

Definition column_of (data : list (list Q)) (j : nat) : list Q :=
  map (fun row => nth j row 0) data.

Definition has_width (w : nat) (row : list Q) : bool := Nat.eqb (length row) w.

Definition load (data : list (list Q)) (target : list Q) : result DataFrame :=
  if forallb (has_width (length feature_names)) data then
    let cols :=
      map (fun jn => (snd jn, Floats (column_of data (fst jn))))
          (combine (seq 0 (length feature_names)) feature_names) in
    setitem (mkDataFrame (seq 0 (length data)) cols) "target" (Floats target)
  else Raise ValueError.

(** *** Printed output *)

Inductive Line : Type :=
| Text (s : string)
| Stats (t_stat p_value : float)      (* f"t-statistic: {..}, p-value: {..}" *)
| Interval (lo hi : float)
| Table.                              (* a rendered ANOVA or OLS table *)

(** *** Hypothesis tests: the three verdict cells *)

(** The reports compare with the float literal [0.05] of the source, the
    binary64 [0x1.999999999999ap-5]. *)
Definition one_sample_report (t_stat p_value : float) : list Line :=
  [ Text "One-Sample t-Test for BMI:";
    Stats t_stat p_value;
    if PrimFloat.ltb p_value 0x1.999999999999ap-5
    then Text "Reject the null hypothesis: The mean is significantly different from 0."
    else Text "Fail to reject the null hypothesis: The mean is not significantly different from 0." ].

Definition two_sample_report (t_stat p_value : float) : list Line :=
  [ Text "Two-Sample t-Test for BMI:";
    Stats t_stat p_value;
    if PrimFloat.ltb p_value 0x1.999999999999ap-5
    then Text "Reject the null hypothesis: The means of the two groups are significantly different."
    else Text "Fail to reject the null hypothesis: The means of the two groups are not significantly different." ].

Definition paired_report (t_stat p_value : float) : list Line :=
  [ Text "Paired t-Test for BP and S1:";
    Stats t_stat p_value;
    if PrimFloat.ltb p_value 0x1.999999999999ap-5
    then Text "Reject the null hypothesis: The means of the paired samples are significantly different."
    else Text "Fail to reject the null hypothesis: The means of the paired samples are not significantly different." ].

Inductive TTest : Type := OneSample | TwoSample | Paired.

Definition report_of (test : TTest) : float -> float -> list Line :=
  match test with
  | OneSample => one_sample_report
  | TwoSample => two_sample_report
  | Paired => paired_report
  end.

(** How a reader takes the verdict line. *)
Inductive Verdict : Type := Reject | FailToReject.

Definition read_verdict (l : Line) : option Verdict :=
  match l with
  | Text s =>
      if String.prefix "Reject the null hypothesis" s then Some Reject
      else if String.prefix "Fail to reject the null hypothesis" s
           then Some FailToReject
           else None
  | _ => None
  end.

Definition verdict_of (out : list Line) : option Verdict :=
  read_verdict (last out Table).

(** *** The median split of the two-sample test *)

Fixpoint insert_sorted (x : Q) (l : list Q) : list Q :=
  match l with
  | [] => [x]
  | y :: l' => if Qle_bool x y then x :: l else y :: insert_sorted x l'
  end.

Definition sort_floats (l : list Q) : list Q :=
  fold_right insert_sorted [] l.

(** [Series.median()]: the middle value of the sorted data, the mean of
    the two middle values for an even count, NaN ([None]) for no data. *)
Definition median (s : Series) : pyfloat :=
  let v := sort_floats (s_values s) in
  let n := length v in
  if Nat.eqb n 0 then NaN
  else if Nat.odd n then Finite (nth (n / 2) v 0)
  else Finite ((nth (n / 2 - 1) v 0 + nth (n / 2) v 0) / 2).

(** [series <= m] and [series > m]; every comparison with NaN is False. *)
Definition le_mask (s : Series) (m : pyfloat) : list bool :=
  map (fun t => match m with Finite m => Qle_bool t m | NaN => false end)
      (s_values s).

Definition gt_mask (s : Series) (m : pyfloat) : list bool :=
  map (fun t => match m with
                | Finite m => negb (Qle_bool t m)
                | NaN => false
                end)
      (s_values s).

Fixpoint select {A} (mask : list bool) (l : list A) : list A :=
  match mask, l with
  | b :: mask', x :: l' => if b then x :: select mask' l' else select mask' l'
  | _, _ => []
  end.

Definition select_column (mask : list bool) (c : Column) : Column :=
  match c with
  | Floats v => Floats (select mask v)
  | Categories v => Categories (select mask v)
  end.

(** [df[mask]]: the rows whose mask entry is True, labels kept. *)
Definition boolean_index (df : DataFrame) (mask : list bool) : DataFrame :=
  mkDataFrame (select mask (index df))
              (map (fun kc => (fst kc, select_column mask (snd kc))) (columns df)).

Definition median_split (df : DataFrame) : result (pyfloat * Series * Series) :=
  target <- getitem df "target" ;;
  let median_target := median target in
  group1 <- getitem (boolean_index df (le_mask target median_target)) "bmi" ;;
  target' <- getitem df "target" ;;
  group2 <- getitem (boolean_index df (gt_mask target' median_target)) "bmi" ;;
  Ok (median_target, group1, group2).

(** *** Quartile bins: [pd.qcut(series, q=4, labels=[...])] *)

(** [Series.quantile(q)], linear interpolation between the two nearest
    order statistics; NaN for an empty series. *)
Definition quantile (s : Series) (q : Q) : pyfloat :=
  let v := sort_floats (s_values s) in
  let n := length v in
  if Nat.eqb n 0 then NaN
  else
    let h := inject_Z (Z.of_nat (n - 1)) * q in
    let lo := Z.to_nat (Qfloor h) in
    let frac := h - inject_Z (Qfloor h) in
    let x_lo := nth lo v 0 in
    let x_hi := nth (Nat.min (S lo) (n - 1)) v 0 in
    Finite (x_lo + frac * (x_hi - x_lo)).

Definition quartile_points : list Q := [0; 1 # 4; 1 # 2; 3 # 4; 1].

Fixpoint all_finite (l : list pyfloat) : option (list Q) :=
  match l with
  | [] => Some []
  | NaN :: _ => None
  | Finite x :: l' =>
      match all_finite l' with
      | Some xs => Some (x :: xs)
      | None => None
      end
  end.

Fixpoint strictly_increasing (bins : list Q) : bool :=
  match bins with
  | x :: ((y :: _) as rest) => negb (Qle_bool y x) && strictly_increasing rest
  | _ => true
  end.

(** [bins.searchsorted(x, side='left')]: how many edges lie below [x]. *)
Definition searchsorted_left (bins : list Q) (x : Q) : nat :=
  length (filter (fun b => negb (Qle_bool x b)) bins).

(** The bin of one value: right-closed intervals, the lowest edge included;
    a value outside of all bins is NaN. *)
Definition bin_label (bins : list Q) (labels : list string) (x : Q)
  : option string :=
  let id := if Qeq_bool x (nth 0 bins 0) then 1%nat
            else searchsorted_left bins x in
  if Nat.eqb id 0 || Nat.eqb id (length bins) then None
  else nth_error labels (id - 1).

(** Equal bin edges (and the NaN edges of an empty series) are refused:
    "Bin edges must be unique". *)
Definition qcut (s : Series) (labels : list string)
  : result (list (option string)) :=
  match all_finite (map (quantile s) quartile_points) with
  | None => Raise ValueError
  | Some bins =>
      if strictly_increasing bins
      then Ok (map (bin_label bins labels) (s_values s))
      else Raise ValueError
  end.

(** *** The cells *)

(** What the cells after loading share: the frame [df] and the printed
    output.  Every other name a cell assigns ([t_stat], [p_value],
    [group1], [model], [X], ...) is assigned again before any cell reads
    it. *)
Record Kernel : Type := mkKernel {
  df : DataFrame;
  stdout : list Line
}.

Definition print (k : Kernel) (ls : list Line) : Kernel :=
  mkKernel (df k) (stdout k ++ ls).

Definition Cell : Type := Notebook.Cell Kernel.

Section Cells.

(** SciPy and statsmodels: the numeric routines whose results are printed. *)
Variable ttest_1samp : list Q -> Q -> float * float.
Variable ttest_ind : list Q -> list Q -> float * float.
Variable ttest_rel : list Q -> list Q -> float * float.
Variable t_interval : list Q -> float * float.
Variable anova_lm : DataFrame -> result unit.
Variable ols_summary : list Q -> list Q -> result unit.

Definition one_sample_cell : Cell := fun k =>
  match getitem (df k) "bmi" with
  | Raise e => (k, Some e)
  | Ok bmi =>
      let (t_stat, p_value) := ttest_1samp (s_values bmi) 0 in
      (print k (one_sample_report t_stat p_value), None)
  end.

Definition two_sample_cell : Cell := fun k =>
  match median_split (df k) with
  | Raise e => (k, Some e)
  | Ok (_, group1, group2) =>
      let (t_stat, p_value) := ttest_ind (s_values group1) (s_values group2) in
      (print k (two_sample_report t_stat p_value), None)
  end.

Definition paired_cell : Cell := fun k =>
  match getitem (df k) "bp" with
  | Raise e => (k, Some e)
  | Ok bp =>
      match getitem (df k) "s1" with
      | Raise e => (k, Some e)
      | Ok s1 =>
          let (t_stat, p_value) := ttest_rel (s_values bp) (s_values s1) in
          (print k (paired_report t_stat p_value), None)
      end
  end.

Definition confidence_cell : Cell := fun k =>
  match getitem (df k) "bmi" with
  | Raise e => (k, Some e)
  | Ok bmi =>
      let (lo, hi) := t_interval (s_values bmi) in
      (print k [Interval lo hi], None)
  end.

(** [df['bmi_quartile'] = pd.qcut(df['bmi'], q=4, labels=[...])] writes into
    the loaded frame; the model fit and the table come after it. *)
Definition anova_cell : Cell := fun k =>
  match getitem (df k) "bmi" with
  | Raise e => (k, Some e)
  | Ok bmi =>
      match qcut bmi ["Q1"; "Q2"; "Q3"; "Q4"]%string with
      | Raise e => (k, Some e)
      | Ok quartiles =>
          match setitem (df k) "bmi_quartile" (Categories quartiles) with
          | Raise e => (k, Some e)
          | Ok df' =>
              let k' := mkKernel df' (stdout k) in
              match anova_lm df' with
              | Raise e => (k', Some e)
              | Ok _ =>
                  (print k' [Text "One-Way ANOVA for Target across BMI Quartiles:";
                             Table], None)
              end
          end
      end
  end.

Definition regression_cell : Cell := fun k =>
  match getitem (df k) "bmi" with
  | Raise e => (k, Some e)
  | Ok X =>
      match getitem (df k) "target" with
      | Raise e => (k, Some e)
      | Ok y =>
          match ols_summary (s_values y) (s_values X) with
          | Raise e => (k, Some e)
          | Ok _ =>
              (print k [Text "Simple Linear Regression (BMI vs Target):"; Table],
               None)
          end
      end
  end.

(** The cells after the loading cell, top to bottom. *)
Definition notebook : list Cell :=
  [one_sample_cell; two_sample_cell; paired_cell; confidence_cell;
   anova_cell; regression_cell].

End Cells.

(** The column names of a frame. *)
Definition names (d : DataFrame) : list string := map fst (columns d).

(** [d] is [d0] as it was loaded, or [d0] with the quartile column added
    behind its columns. *)
Definition extends (d0 d : DataFrame) : Prop :=
  index d = index d0
  /\ (columns d = columns d0
      \/ exists quartiles,
           columns d = columns d0 ++ [("bmi_quartile"%string, Categories quartiles)]).

(** Every column has one entry per row. *)
Definition aligned (d : DataFrame) : Prop :=
  Forall (fun kc => column_length (snd kc) = length (index d)) (columns d).

(** Five rows for running the cells: the features are 0 but for [bmi],
    which is 1 to 5. *)
Definition five_rows : list (list Q) :=
  map (fun b => [0; 0; b; 0; 0; 0; 0; 0; 0; 0]) [1; 2; 3; 4; 5].

Definition five_targets : list Q := [50; 10; 30; 20; 40].

(** Stand-ins for SciPy and statsmodels that print a fixed result. *)
Definition quiet_ttest (a : list Q) (b : list Q) : float * float :=
  (0%float, 1%float).

Definition quiet_ttest_1samp (a : list Q) (popmean : Q) : float * float :=
  (0%float, 1%float).

Definition quiet_interval (a : list Q) : float * float :=
  ((-1)%float, 1%float).

Definition quiet_anova (d : DataFrame) : result unit := Ok tt.

Definition quiet_ols (y X : list Q) : result unit := Ok tt.

Definition quiet_notebook : list Cell :=
  notebook quiet_ttest_1samp quiet_ttest quiet_ttest quiet_interval
           quiet_anova quiet_ols.

(** The head of a list is below all of it. *)
Definition head_least (l : list Q) : Prop :=
  match l with
  | [] => True
  | h :: _ => Forall (fun x => h <= x) l
  end.

(** A three-row frame on which the split can be run. *)
Definition small_frame : DataFrame :=
  mkDataFrame [0; 1; 2]%nat
    [("bmi"%string, Floats [1; 2; 3]); ("target"%string, Floats [20; 10; 30])].

End Diabetes.

(* ================================================================== *)
(** * Part II: the theorems                                            *)
(* ================================================================== *)

(* ------------------------------------------------------------------ *)
(** ** Lists                                                           *)
(* ------------------------------------------------------------------ *)

Module ListFacts.

Lemma nth_error_range (n i k : nat) :
  nth_error (seq 0 n) k = Some i <-> k = i /\ (i < n)%nat.
Proof.
  rewrite nth_error_seq. destruct (Nat.ltb_spec k n); simpl; split.
  - intros H0. injection H0 as <-. now split.
  - intros [-> _]. reflexivity.
  - discriminate.
  - intros [-> Hlt]. lia.
Qed.

Lemma in_combine_seq {A} (l : list A) (start i : nat) (x : A) :
  In (i, x) (combine (seq start (length l)) l) ->
  (start <= i)%nat /\ nth_error l (i - start) = Some x.
Proof.
  revert start. induction l as [| y l IH]; intros start; simpl; [intros [] |].
  intros [Heq | Hin].
  - injection Heq as <- <-. rewrite Nat.sub_diag. now split.
  - apply IH in Hin as [Hle Hnth]. split; [lia |].
    replace (i - start)%nat with (S (i - S start)) by lia. exact Hnth.
Qed.

Lemma StronglySorted_app {A} (R : A -> A -> Prop) (a b : list A) :
  StronglySorted R a -> StronglySorted R b ->
  (forall x y, In x a -> In y b -> R x y) ->
  StronglySorted R (a ++ b).
Proof.
  intros Ha Hb Hab. induction Ha as [| x a Ha IH Hx]; simpl; [exact Hb |].
  constructor.
  - apply IH. intros u v Hu Hv. apply Hab; [now right | exact Hv].
  - apply Forall_app. split; [exact Hx |].
    rewrite Forall_forall. intros v Hv. apply Hab; [now left | exact Hv].
Qed.

Lemma StronglySorted_rev {A} (R : A -> A -> Prop) (l : list A) :
  StronglySorted R l -> StronglySorted (fun x y => R y x) (rev l).
Proof.
  induction 1 as [| x l Hl IH Hx]; simpl; [constructor |].
  apply StronglySorted_app; [exact IH | repeat constructor |].
  intros u v Hu [<- | []]. rewrite Forall_forall in Hx.
  apply Hx. now apply in_rev.
Qed.

Lemma StronglySorted_map {A B} (R : B -> B -> Prop) (f : A -> B) (l : list A) :
  StronglySorted (fun x y => R (f x) (f y)) l -> StronglySorted R (map f l).
Proof.
  induction 1 as [| x l Hl IH Hx]; simpl; constructor; [exact IH |].
  rewrite Forall_forall in *. intros y Hy.
  apply in_map_iff in Hy as [u [<- Hu]]. now apply Hx.
Qed.

Lemma StronglySorted_map_inv {A B} (R : B -> B -> Prop) (f : A -> B) (l : list A) :
  StronglySorted R (map f l) -> StronglySorted (fun x y => R (f x) (f y)) l.
Proof.
  induction l as [| x l IH]; simpl; intros H; [constructor |].
  inversion H as [| ? ? Hl Hx]; subst. constructor; [now apply IH |].
  rewrite Forall_forall in *. intros y Hy. apply Hx, in_map, Hy.
Qed.

Lemma StronglySorted_weaken {A} (R R' : A -> A -> Prop) (l : list A) :
  (forall x y, R x y -> R' x y) -> StronglySorted R l -> StronglySorted R' l.
Proof.
  intros Himp. induction 1 as [| x l Hl IH Hx]; constructor; [exact IH |].
  eapply Forall_impl; [| exact Hx]. intros y. apply Himp.
Qed.

Lemma range_sorted {A} (l : list A) (start : nat) :
  StronglySorted (fun a b : nat * A => (fst a < fst b)%nat)
                 (combine (seq start (length l)) l).
Proof.
  revert start. induction l as [| x l IH]; intros start; simpl; constructor.
  - apply IH.
  - rewrite Forall_forall. intros [i y] Hin. simpl.
    apply in_combine_l, in_seq in Hin. lia.
Qed.

Lemma nth_error_combine {A B} (l : list A) (l' : list B) (i : nat) :
  nth_error (combine l l') i
  = match nth_error l i, nth_error l' i with
    | Some a, Some b => Some (a, b)
    | _, _ => None
    end.
Proof.
  revert l l'. induction i as [| i IH]; intros [| a l] [| b l']; simpl; trivial.
  now destruct (nth_error l i).
Qed.

Lemma map_snd_combine_range {A B} (f : A -> B) (l : list A) (start : nat) :
  map (fun r : nat * A => (fst r, f (snd r))) (combine (seq start (length l)) l)
  = combine (seq start (length l)) (map f l).
Proof.
  revert start. induction l as [| x l IH]; intros start; simpl; [reflexivity |].
  now rewrite IH.
Qed.

Lemma map_fst_combine_range {A} (l : list A) (start : nat) :
  map fst (combine (seq start (length l)) l) = seq start (length l).
Proof.
  revert start. induction l as [| x l IH]; intros start; simpl; [reflexivity |].
  now rewrite IH.
Qed.

Lemma map_snd_combine_range' {A} (l : list A) (start : nat) :
  map snd (combine (seq start (length l)) l) = l.
Proof.
  revert start. induction l as [| x l IH]; intros start; simpl; [reflexivity |].
  now rewrite IH.
Qed.

Lemma map_fst_zip {A B} (l : list A) (l' : list B) :
  length l' = length l -> map fst (combine l l') = l.
Proof.
  revert l'. induction l as [| a l IH]; intros [| b l'] H; simpl in *;
    try discriminate; trivial.
  f_equal. apply IH. lia.
Qed.

Lemma map_snd_zip {A B} (l : list A) (l' : list B) :
  length l' = length l -> map snd (combine l l') = l'.
Proof.
  revert l'. induction l as [| a l IH]; intros [| b l'] H; simpl in *;
    try discriminate; trivial.
  f_equal. apply IH. lia.
Qed.

(** Labelling the rows and then pairing them is pairing them and then
    labelling the pairs. *)
Lemma range_zip {A B} (data : list A) (target : list B) (start : nat) :
  length target = length data ->
  map (fun rt : nat * A * B => (fst (fst rt), (snd (fst rt), snd rt)))
      (combine (combine (seq start (length data)) data) target)
  = combine (seq start (length (combine data target))) (combine data target).
Proof.
  revert target start.
  induction data as [| a data IH]; intros [| b target] start H; simpl in *;
    try discriminate; trivial.
  f_equal. apply IH. lia.
Qed.

End ListFacts.

(* ------------------------------------------------------------------ *)
(** ** Runs of cells                                                   *)
(* ------------------------------------------------------------------ *)

Module NotebookFacts.

Import Notebook.

Lemma run_cons {K} (c : Cell K) (cells : list (Cell K)) (k : K) :
  run (c :: cells) k
  = match c k with
    | (k', None) => run cells k'
    | (k', Some e) => (k', Some e)
    end.
Proof. reflexivity. Qed.

Lemma run_each_cons {K} (c : Cell K) (cells : list (Cell K)) (k : K) :
  run_each (c :: cells) k
  = match c k with
    | (k', None) => run_each cells k'
    | (k', Some e) => let (k'', es) := run_each cells k' in (k'', e :: es)
    end.
Proof. reflexivity. Qed.

Lemma run_app {K} (cells1 cells2 : list (Cell K)) (k : K) :
  run (cells1 ++ cells2) k
  = match run cells1 k with
    | (k', None) => run cells2 k'
    | (k', Some e) => (k', Some e)
    end.
Proof.
  revert k. induction cells1 as [| c cells1 IH]; intros k; simpl; [reflexivity |].
  destruct (c k) as [k' [e |]]; [reflexivity | apply IH].
Qed.

Lemma run_each_app {K} (cells1 cells2 : list (Cell K)) (k : K) :
  run_each (cells1 ++ cells2) k
  = let (k', es) := run_each cells1 k in
    let (k'', es') := run_each cells2 k' in
    (k'', es ++ es').
Proof.
  revert k. induction cells1 as [| c cells1 IH]; intros k; simpl.
  - now destruct (run_each cells2 k).
  - destruct (c k) as [k' [e |]]; rewrite IH;
      destruct (run_each cells1 k') as [k1 es];
      now destruct (run_each cells2 k1).
Qed.

(** A clean "Run All" and the cells run by hand end in the same state. *)
Lemma run_clean {K} (cells : list (Cell K)) (k k' : K) :
  run cells k = (k', None) -> run_each cells k = (k', []).
Proof.
  revert k. induction cells as [| c cells IH]; intros k; simpl.
  - now intros H; injection H as <-.
  - destruct (c k) as [k1 [e |]]; [discriminate | apply IH].
Qed.

End NotebookFacts.

(* ------------------------------------------------------------------ *)
(** ** Facts about positional selection                                *)
(* ------------------------------------------------------------------ *)

Module PandasFacts.

Import Pandas ListFacts.

Lemma iloc_in_range {A} (rows : list A) (positions : list nat) (d : A) :
  Forall (fun i => (i < length rows)%nat) positions ->
  iloc rows positions = Ok (map (fun i => nth i rows d) positions).
Proof.
  induction 1 as [| i rest Hi _ IH]; simpl; [reflexivity |].
  rewrite (nth_error_nth' rows d Hi), IH. reflexivity.
Qed.

Lemma map_nth_range {A} (rows : list A) (d : A) :
  map (fun i => nth i rows d) (seq 0 (length rows)) = rows.
Proof.
  apply nth_ext with (d := d) (d' := d).
  - now rewrite length_map, length_seq.
  - intros k Hk. rewrite length_map, length_seq in Hk.
    rewrite (nth_indep _ d (nth 0 rows d)) by now rewrite length_map, length_seq.
    rewrite (map_nth (fun i => nth i rows d) (seq 0 (length rows)) 0%nat k).
    now rewrite seq_nth.
Qed.

Lemma permutation_in_range (perm : list nat) (n : nat) :
  Permutation perm (seq 0 n) -> Forall (fun i => (i < n)%nat) perm.
Proof.
  intros Hperm. rewrite Forall_forall. intros i Hi.
  apply (Permutation_in _ Hperm), in_seq in Hi. lia.
Qed.

(** Taking the rows at a shuffled range hands back the same rows. *)
Lemma iloc_permutation {A} (rows : list A) (perm : list nat) :
  Permutation perm (seq 0 (length rows)) ->
  exists taken, iloc rows perm = Ok taken /\ Permutation taken rows.
Proof.
  intros Hperm. destruct rows as [| d rows'] eqn:E.
  - apply Permutation_sym, Permutation_nil in Hperm. subst perm.
    exists []. now split.
  - rewrite <- E in *. exists (map (fun i => nth i rows d) perm). split.
    + apply iloc_in_range. now apply permutation_in_range.
    + eapply Permutation_trans; [apply Permutation_map, Hperm |].
      now rewrite map_nth_range.
Qed.

Lemma iloc_app {A} (rows : list A) (p1 p2 : list nat) (t1 t2 : list A) :
  iloc rows p1 = Ok t1 -> iloc rows p2 = Ok t2 ->
  iloc rows (p1 ++ p2) = Ok (t1 ++ t2).
Proof.
  revert t1. induction p1 as [| i p1 IH]; simpl; intros t1 H1 H2.
  - injection H1 as <-. exact H2.
  - destruct (nth_error rows i) as [r |]; [| discriminate].
    destruct (iloc rows p1) as [t |]; simpl in *; [| discriminate].
    injection H1 as <-. now rewrite (IH t eq_refl H2).
Qed.

Lemma iloc_app_inv {A} (rows : list A) (p1 p2 : list nat) (t : list A) :
  iloc rows (p1 ++ p2) = Ok t ->
  exists t1 t2, iloc rows p1 = Ok t1 /\ iloc rows p2 = Ok t2 /\ t = t1 ++ t2.
Proof.
  revert t. induction p1 as [| i p1 IH]; simpl; intros t Ht.
  - exists [], t. now repeat split.
  - destruct (nth_error rows i) as [r |]; [| discriminate].
    destruct (iloc rows (p1 ++ p2)) as [t' |] eqn:E; simpl in *; [| discriminate].
    injection Ht as <-. destruct (IH t' eq_refl) as (t1 & t2 & H1 & H2 & ->).
    exists (r :: t1), t2. rewrite H1. now repeat split.
Qed.

Lemma iloc_length {A} (rows : list A) (positions : list nat) (t : list A) :
  iloc rows positions = Ok t -> length t = length positions.
Proof.
  revert t. induction positions as [| i rest IH]; simpl; intros t Ht.
  - now injection Ht as <-.
  - destruct (nth_error rows i); [| discriminate].
    destruct (iloc rows rest) as [t' |]; simpl in *; [| discriminate].
    injection Ht as <-. simpl. now rewrite (IH t' eq_refl).
Qed.

(** The labels of the rows taken are the labels at the positions taken. *)
Lemma iloc_map {A B} (f : A -> B) (rows : list A) (positions : list nat)
  (t : list A) :
  iloc rows positions = Ok t -> iloc (map f rows) positions = Ok (map f t).
Proof.
  revert t. induction positions as [| i rest IH]; intros t; simpl.
  - intros H. now injection H as <-.
  - rewrite nth_error_map. destruct (nth_error rows i) as [r |]; [| discriminate].
    destruct (iloc rows rest) as [taken |]; [| discriminate].
    simpl. intros H. injection H as <-. now rewrite (IH taken eq_refl).
Qed.

Lemma iloc_labels {A} (rows : Indexed A) (positions : list nat) (t : Indexed A) :
  iloc rows positions = Ok t -> iloc (labels rows) positions = Ok (labels t).
Proof.
  revert t. induction positions as [| i rest IH]; simpl; intros t Ht.
  - now injection Ht as <-.
  - unfold labels at 1. rewrite nth_error_map.
    destruct (nth_error rows i); [| discriminate]. simpl.
    destruct (iloc rows rest) as [t' |]; simpl in *; [| discriminate].
    injection Ht as <-. fold (labels rows). now rewrite (IH t' eq_refl).
Qed.

(** *** Sorting by insertion *)

Lemma insert_by_key_perm (b : bool) (x : nat * Q) (run : list (nat * Q)) :
  Permutation (insert_by_key b x run) (x :: run).
Proof.
  induction run as [| y run IH]; simpl; [reflexivity |].
  destruct (if b then negb (Qle_bool (snd y) (snd x)) else Qle_bool (snd x) (snd y));
    [reflexivity |].
  rewrite IH. apply perm_swap.
Qed.

Lemma insertion_perm (b : bool) (pairs : list (nat * Q)) :
  Permutation (fold_right (insert_by_key b) [] pairs) pairs.
Proof.
  induction pairs as [| x pairs IH]; simpl; [constructor |].
  rewrite insert_by_key_perm. now constructor.
Qed.

Lemma insert_by_key_sorted (b : bool) (x : nat * Q) (run : list (nat * Q)) :
  StronglySorted (fun a c => (snd a <= snd c)%Q) run ->
  StronglySorted (fun a c => (snd a <= snd c)%Q) (insert_by_key b x run).
Proof.
  induction 1 as [| y run Hrun IH Hy]; simpl; [repeat constructor |].
  destruct (if b then negb (Qle_bool (snd y) (snd x)) else Qle_bool (snd x) (snd y))
    eqn:E.
  - assert (Hxy : (snd x <= snd y)%Q).
    { destruct b.
      - apply negb_true_iff in E.
        destruct (Qlt_le_dec (snd x) (snd y)) as [Hlt | Hle]; [lraQ |].
        apply Qle_bool_iff in Hle. congruence.
      - now apply Qle_bool_iff. }
    constructor; [now constructor |]. constructor; [exact Hxy |].
    eapply Forall_impl; [| exact Hy]. intros z Hz. simpl in Hz. lraQ.
  - assert (Hyx : (snd y <= snd x)%Q).
    { destruct b.
      - apply negb_false_iff in E. now apply Qle_bool_iff.
      - destruct (Qlt_le_dec (snd y) (snd x)) as [Hlt | Hle]; [lraQ |].
        apply Qle_bool_iff in Hle. congruence. }
    constructor; [exact IH |].
    rewrite Forall_forall in *. intros z Hz.
    apply (Permutation_in _ (insert_by_key_perm b x run)) in Hz.
    destruct Hz as [<- | Hz]; [exact Hyx | now apply Hy].
Qed.

Lemma insertion_sorted (b : bool) (pairs : list (nat * Q)) :
  StronglySorted (fun a c => (snd a <= snd c)%Q)
                 (fold_right (insert_by_key b) [] pairs).
Proof.
  induction pairs as [| x pairs IH]; simpl; [constructor |].
  now apply insert_by_key_sorted.
Qed.

(** Both insertion sorts keep NumPy's promise. *)
Lemma insertion_sorts (b : bool) : sorts (insertion_argsort b).
Proof.
  intros v. unfold insertion_argsort.
  set (sp := fold_right (insert_by_key b) [] (combine (seq 0 (length v)) v)).
  assert (Hperm : Permutation sp (combine (seq 0 (length v)) v))
    by apply insertion_perm.
  split.
  - rewrite <- (map_fst_combine_range v 0). now apply Permutation_map.
  - assert (Hval : map (fun p => nth p v 0%Q) (map fst sp) = map snd sp).
    { rewrite map_map. apply map_ext_in. intros [p x] Hin. simpl.
      apply (Permutation_in _ Hperm), in_combine_seq in Hin as [_ Hx].
      rewrite Nat.sub_0_r in Hx. now apply nth_error_nth. }
    rewrite Hval. apply StronglySorted_map. apply insertion_sorted.
Qed.

(** *** Numbers and NaN apart *)

Lemma non_nan_cons (i : nat) (x : pyfloat) (pairs : list (nat * pyfloat)) :
  non_nan ((i, x) :: pairs)
  = match x with
    | Finite q => (i, q) :: non_nan pairs
    | NaN => non_nan pairs
    end.
Proof. unfold non_nan. simpl. now destruct x. Qed.

Lemma nan_idx_cons (i : nat) (x : pyfloat) (pairs : list (nat * pyfloat)) :
  nan_idx ((i, x) :: pairs)
  = match x with
    | Finite _ => nan_idx pairs
    | NaN => i :: nan_idx pairs
    end.
Proof. unfold nan_idx. simpl. now destruct x. Qed.

Lemma non_nan_In (pairs : list (nat * pyfloat)) (iq : nat * Q) :
  In iq (non_nan pairs) <-> In (with_value iq) pairs.
Proof.
  destruct iq as [i q]. unfold with_value. simpl.
  induction pairs as [| [j x] pairs IH]; [simpl; tauto |].
  rewrite non_nan_cons. destruct x as [q' |]; simpl; rewrite IH; split.
  - intros [H | H]; [left; now injection H as -> -> | now right].
  - intros [H | H]; [left; now injection H as -> -> | now right].
  - now right.
  - intros [H | H]; [discriminate | exact H].
Qed.

Lemma nan_idx_In (pairs : list (nat * pyfloat)) (i : nat) :
  In i (nan_idx pairs) <-> In (with_nan i) pairs.
Proof.
  unfold with_nan.
  induction pairs as [| [j x] pairs IH]; [simpl; tauto |].
  rewrite nan_idx_cons. destruct x as [q' |]; simpl; rewrite IH; split.
  - now right.
  - intros [H | H]; [discriminate | exact H].
  - intros [H | H]; [left; now subst | now right].
  - intros [H | H]; [left; now injection H | now right].
Qed.

Lemma split_nan_perm (pairs : list (nat * pyfloat)) :
  Permutation (map with_value (non_nan pairs) ++ map with_nan (nan_idx pairs))
              pairs.
Proof.
  induction pairs as [| [i x] pairs IH]; [constructor |].
  rewrite non_nan_cons, nan_idx_cons. destruct x as [q |]; simpl.
  - now constructor.
  - rewrite <- Permutation_middle. now constructor.
Qed.

Lemma non_nan_sorted (pairs : list (nat * pyfloat)) :
  StronglySorted (fun a b => (fst a < fst b)%nat) pairs ->
  StronglySorted (fun a b : nat * Q => (fst a < fst b)%nat) (non_nan pairs).
Proof.
  induction 1 as [| [i x] pairs Hpairs IH Hx]; [constructor |].
  rewrite non_nan_cons. destruct x as [q |]; [| exact IH].
  constructor; [exact IH |].
  rewrite Forall_forall in *. intros iq Hiq.
  apply non_nan_In in Hiq. apply (Hx _ Hiq).
Qed.

Lemma nan_idx_sorted (pairs : list (nat * pyfloat)) :
  StronglySorted (fun a b => (fst a < fst b)%nat) pairs ->
  StronglySorted lt (nan_idx pairs).
Proof.
  induction 1 as [| [i x] pairs Hpairs IH Hx]; [constructor |].
  rewrite nan_idx_cons. destruct x as [q |]; [exact IH |].
  constructor; [exact IH |].
  rewrite Forall_forall in *. intros j Hj.
  apply nan_idx_In in Hj. apply (Hx _ Hj).
Qed.

(** *** The descending sort *)

Section Sorting.

Variable argsort : list Q -> list nat.
Hypothesis argsort_spec : sorts argsort.

(** Taking the entries at the sorted positions: the same entries, in
    ascending order of their values. *)
Lemma argsort_entries (entries : list (nat * Q)) :
  exists sorted,
    iloc (map fst entries) (argsort (map snd entries)) = Ok (map fst sorted)
    /\ Permutation sorted entries
    /\ StronglySorted (fun a c => (snd a <= snd c)%Q) sorted.
Proof.
  destruct (argsort_spec (map snd entries)) as [Hperm Hsorted].
  rewrite length_map in Hperm.
  set (pos := argsort (map snd entries)) in *.
  exists (map (fun p => nth p entries (0%nat, 0%Q)) pos).
  split; [| split].
  - rewrite (iloc_in_range (map fst entries) 0%nat).
    + f_equal. rewrite map_map. apply map_ext. intros p.
      apply (map_nth fst entries (0%nat, 0%Q) p).
    + rewrite length_map. now apply permutation_in_range.
  - eapply Permutation_trans; [apply Permutation_map, Hperm |].
    now rewrite map_nth_range.
  - apply StronglySorted_map_inv with (f := snd) (R := Qle).
    rewrite map_map.
    erewrite map_ext; [exact Hsorted |].
    intros p. simpl. symmetry. apply (map_nth snd entries (0%nat, 0%Q) p).
Qed.

Lemma nargsort_descending (items : list pyfloat) :
  exists sorted : list (nat * pyfloat),
    nargsort argsort items false = Ok (map fst sorted)
    /\ Permutation sorted (combine (seq 0 (length items)) items)
    /\ StronglySorted descending sorted.
Proof.
  set (pairs := combine (seq 0 (length items)) items).
  assert (Hrange : StronglySorted (fun a b => (fst a < fst b)%nat) pairs)
    by apply range_sorted.
  destruct (argsort_entries (rev (non_nan pairs))) as (sp & Hrun & Hperm & Hsorted).
  exists (map with_value (rev sp) ++ map with_nan (nan_idx pairs)).
  split; [| split].
  - unfold nargsort. fold pairs. rewrite Hrun. simpl bind.
    rewrite map_app, !map_map, map_rev. simpl. now rewrite map_id.
  - eapply Permutation_trans; [| apply split_nan_perm].
    apply Permutation_app_tail, Permutation_map.
    rewrite <- Permutation_rev, Hperm. apply Permutation_sym, Permutation_rev.
  - apply StronglySorted_app.
    + apply StronglySorted_map. apply StronglySorted_rev in Hsorted.
      eapply StronglySorted_weaken; [| exact Hsorted].
      intros x y Hle. unfold descending. simpl. exact Hle.
    + apply StronglySorted_map. unfold descending. simpl.
      now apply nan_idx_sorted.
    + intros x y Hx Hy.
      apply in_map_iff in Hx as [x' [<- _]]. apply in_map_iff in Hy as [y' [<- _]].
      exact I.
Qed.

Lemma nth_error_range_index {A} (data : list A) (i : nat) (r : nat * A) :
  nth_error (range_index data) i = Some r ->
  fst r = i /\ nth_error data i = Some (snd r).
Proof.
  unfold range_index. rewrite nth_error_combine.
  destruct (nth_error (seq 0 (length data)) i) as [j |] eqn:Ej; [| discriminate].
  destruct (nth_error data i) as [x |]; [| discriminate].
  intros Hr. injection Hr as <-. apply nth_error_range in Ej as [-> _].
  now split.
Qed.

(** Sorting a frame with default labels by a float column, descending: the
    rows are kept, each once; no smaller value stands before a larger
    one, rows without a value stand last. *)
Lemma sort_values_descending {A} (data : list A) (by_ : A -> pyfloat) :
  exists sorted,
    sort_values argsort (range_index data) by_ false = Ok sorted
    /\ Permutation sorted (range_index data)
    /\ StronglySorted descending (map (fun r => (fst r, by_ (snd r))) sorted).
Proof.
  unfold sort_values.
  set (items := map (fun row : nat * A => by_ (snd row)) (range_index data)).
  assert (Hitems : items = map by_ data).
  { unfold items, range_index. rewrite <- map_map.
    now rewrite map_snd_combine_range'. }
  assert (Hlen : length items = length data) by now rewrite Hitems, length_map.
  destruct (nargsort_descending items) as (sp & Hpos & Hperm & Hsorted).
  rewrite Hpos. simpl bind.
  assert (Hrange : Permutation (map fst sp) (seq 0 (length (range_index data)))).
  { unfold range_index. rewrite length_combine, length_seq, Nat.min_id, <- Hlen.
    rewrite <- (map_fst_combine_range items 0). now apply Permutation_map. }
  destruct (iloc_permutation (range_index data) Hrange) as (sorted & Hrun & Hp).
  exists sorted. split; [exact Hrun |]. split; [exact Hp |].
  replace (map (fun r : nat * A => (fst r, by_ (snd r))) sorted) with sp;
    [exact Hsorted |].
  assert (Hin : forall p, In p sp -> In p (combine (seq 0 (length items)) items)).
  { intros p. apply Permutation_in, Hperm. }
  clear Hpos Hperm Hsorted Hrange Hp. revert sorted Hrun.
  induction sp as [| [i v] sp IH]; simpl; intros sorted Hrun.
  - now injection Hrun as <-.
  - destruct (nth_error (range_index data) i) as [r |] eqn:Er; [| discriminate].
    destruct (iloc (range_index data) (map fst sp)) as [rest |] eqn:Erest;
      simpl in Hrun; [| discriminate].
    injection Hrun as <-. simpl.
    rewrite <- (IH (fun p Hp => Hin p (or_intror Hp)) rest eq_refl).
    f_equal. apply nth_error_range_index in Er as [<- Hdata].
    specialize (Hin (fst r, v) (or_introl eq_refl)).
    apply in_combine_seq in Hin as [_ Hv].
    rewrite Nat.sub_0_r, Hitems, nth_error_map, Hdata in Hv.
    simpl in Hv. now injection Hv as ->.
Qed.

End Sorting.

End PandasFacts.

(* ------------------------------------------------------------------ *)
(** ** The split                                                       *)
(* ------------------------------------------------------------------ *)

Module ModelSelectionFacts.

Import Pandas ModelSelection PandasFacts.

(** *** The size check *)

Lemma ceiling_of_share (test_size : Q) (n : nat) :
  0 < test_size -> test_size < 1 ->
  (0 <= Qceiling (test_size * inject_Z (Z.of_nat n)) <= Z.of_nat n)%Z.
Proof.
  intros Hpos Hlt.
  assert (Hn : 0 <= inject_Z (Z.of_nat n)).
  { rewrite <- (Zle_Qle 0). lia. }
  split.
  - apply (Qceiling_resp_le 0). apply Qmult_le_0_compat; [lraQ | exact Hn].
  - rewrite <- (Qceiling_Z (Z.of_nat n)) at 2. apply Qceiling_resp_le.
    rewrite <- (Qmult_1_l (inject_Z (Z.of_nat n))) at 2.
    apply Qmult_le_compat_r; [lraQ | exact Hn].
Qed.

(** A fifth of two rows or more leaves rows to train on; of one row or of
    none it does not. *)
Lemma fifth_leaves_rows (n : nat) :
  (Qceiling ((1 # 5) * inject_Z (Z.of_nat n)) <? Z.of_nat n)%Z
  = Nat.leb 2 n.
Proof.
  destruct n as [| [| n]]; [reflexivity | reflexivity |].
  change (Nat.leb 2 (S (S n))) with true. apply Z.ltb_lt.
  set (z := Z.of_nat (S (S n))).
  assert (Hz : (2 <= z)%Z) by (unfold z; lia).
  apply Z.le_lt_trans with (z - 1)%Z; [| lia].
  rewrite <- (Qceiling_Z (z - 1)). apply Qceiling_resp_le.
  unfold Qle, Qmult, inject_Z. cbn [Qnum Qden]. lia.
Qed.

(** The literal [0.2] of the split cell in binary64: the rounded product
    has the ceiling of the exact fifth. *)
Example fifth_in_binary64 :
  forallb (fun n =>
             match ceil_share binary64 0x1.999999999999ap-3%float n with
             | Ok n_test =>
                 (n_test =? Qceiling ((1 # 5) * inject_Z (Z.of_nat n)))%Z
             | Raise _ => false
             end)
          (seq 0 4000)
  = true.
Proof. vm_compute. reflexivity. Qed.

(** Rounding matters for other sizes: [0.07 * 100] is rounded up past 7,
    and eight rows are held out; [0.8 * 5] is rounded down to 4, and one
    row is left to train on. *)
Example rounded_shares :
  validate_shuffle_split binary64 100 0x1.1eb851eb851ecp-4%float = Ok (92, 8)%Z
  /\ validate_shuffle_split binary64 5 0x1.999999999999ap-1%float = Ok (1, 4)%Z.
Proof. split; reflexivity. Qed.

Lemma validate_shuffle_split_spec (ar : Arithmetic) (n : nat)
  (test_size : size ar) :
  in_unit ar test_size = true ->
  validate_shuffle_split ar n test_size
  = (n_test <- ceil_share ar test_size n ;;
     if (n_test =? Z.of_nat n)%Z then Raise ValueError
     else Ok ((Z.of_nat n - n_test)%Z, n_test)).
Proof.
  intros Hunit. unfold validate_shuffle_split. rewrite Hunit. simpl negb.
  cbv iota. destruct (ceil_share ar test_size n) as [n_test | e]; [| reflexivity].
  simpl. destruct (Z.eqb_spec (Z.of_nat n - n_test) 0);
    destruct (Z.eqb_spec n_test (Z.of_nat n)); trivial; lia.
Qed.

Lemma slices_cover (perm : list nat) (n_test n_train : Z) :
  (0 <= n_test)%Z -> (0 <= n_train)%Z ->
  Z.of_nat (length perm) = (n_test + n_train)%Z ->
  slice perm 0 n_test ++ slice perm n_test n_train = perm.
Proof.
  intros H1 H2 Hlen. unfold slice. simpl.
  rewrite (firstn_all2 (n := Z.to_nat n_train)).
  - apply firstn_skipn.
  - rewrite length_skipn. lia.
Qed.

Lemma split_by_permutation {A} (rows : list A) (perm : list nat)
  (n_test n_train : Z) :
  Permutation perm (seq 0 (length rows)) ->
  (0 <= n_test)%Z -> (0 <= n_train)%Z ->
  Z.of_nat (length rows) = (n_test + n_train)%Z ->
  exists train test,
    iloc rows (slice perm n_test n_train) = Ok train
    /\ iloc rows (slice perm 0 n_test) = Ok test
    /\ Permutation (train ++ test) rows
    /\ Z.of_nat (length test) = n_test
    /\ Z.of_nat (length train) = n_train.
Proof.
  intros Hperm H1 H2 Hlen.
  assert (Hplen : length perm = length rows).
  { rewrite (Permutation_length Hperm). apply length_seq. }
  destruct (iloc_permutation rows Hperm) as [taken [Htaken Hp]].
  rewrite <- (@slices_cover perm n_test n_train) in Htaken by lia.
  apply iloc_app_inv in Htaken as (test & train & Htest & Htrain & ->).
  exists train, test. repeat split; trivial.
  - rewrite Permutation_app_comm. exact Hp.
  - rewrite (iloc_length _ _ Htest). unfold slice. simpl.
    rewrite length_firstn. lia.
  - rewrite (iloc_length _ _ Htrain). unfold slice.
    rewrite length_firstn, length_skipn. lia.
Qed.

Section Split.

Variable RandomState : Type.
Variable seeded : Z -> RandomState.
Variable permutation : RandomState -> nat -> list nat * RandomState.

(** What NumPy promises of [rng.permutation(n)]. *)
Hypothesis permutation_spec :
  forall (rng : RandomState) (n : nat),
    Permutation (fst (permutation rng n)) (seq 0 n).

Local Abbreviation split := (train_test_split seeded permutation).

Lemma seed_in_range (seed : Z) (global : RandomState) :
  (0 <= seed < 2 ^ 32)%Z ->
  check_random_state seeded (Some seed) global = Ok (seeded seed).
Proof.
  intros H. unfold check_random_state.
  destruct (Z.leb_spec 0 seed); [| lia].
  destruct (Z.ltb_spec seed (2 ^ 32)); [reflexivity | lia].
Qed.

Lemma seed_out_of_range (seed : Z) (global : RandomState) :
  ~ (0 <= seed < 2 ^ 32)%Z ->
  check_random_state seeded (Some seed) global = Raise ValueError.
Proof.
  intros H. unfold check_random_state.
  destruct (Z.leb_spec 0 seed); [| reflexivity].
  destruct (Z.ltb_spec seed (2 ^ 32)); [lia | reflexivity].
Qed.

Lemma seeded_split_ignores_global (ar : Arithmetic) {A B} (X : Indexed A)
  (y : Indexed B) (test_size : size ar) (seed : Z) (g1 g2 : RandomState) :
  fst (split ar X y test_size (Some seed) g1)
  = fst (split ar X y test_size (Some seed) g2).
Proof.
  unfold train_test_split, check_random_state.
  destruct (negb (Nat.eqb (length X) (length y))); [reflexivity |].
  destruct (validate_shuffle_split ar (length X) test_size)
    as [[n_train n_test] |]; [| reflexivity].
  destruct ((0 <=? seed)%Z && (seed <? 2 ^ 32)%Z); [| reflexivity].
  now destruct (permutation (seeded seed) (length X)).
Qed.

Lemma seeded_split_keeps_global (ar : Arithmetic) {A B} (X : Indexed A)
  (y : Indexed B) (test_size : size ar) (seed : Z) (g : RandomState) :
  snd (split ar X y test_size (Some seed) g) = g.
Proof.
  unfold train_test_split, check_random_state.
  destruct (negb (Nat.eqb (length X) (length y))); [reflexivity |].
  destruct (validate_shuffle_split ar (length X) test_size)
    as [[n_train n_test] |]; [| reflexivity].
  destruct ((0 <=? seed)%Z && (seed <? 2 ^ 32)%Z); [| reflexivity].
  now destruct (permutation (seeded seed) (length X)).
Qed.

(** What the call comes to once the sizes are checked. *)
Lemma split_run (ar : Arithmetic) {A B} (X : Indexed A) (y : Indexed B)
  (test_size : size ar) (seed : Z) (g : RandomState) :
  in_unit ar test_size = true -> length X = length y ->
  fst (split ar X y test_size (Some seed) g)
  = (n_test <- ceil_share ar test_size (length X) ;;
     if (n_test =? Z.of_nat (length X))%Z then Raise ValueError
     else
       _ <- check_random_state seeded (Some seed) g ;;
       let perm := fst (permutation (seeded seed) (length X)) in
       let ind_test := slice perm 0 n_test in
       let ind_train := slice perm n_test (Z.of_nat (length X) - n_test) in
       X_train <- iloc X ind_train ;;
       X_test <- iloc X ind_test ;;
       y_train <- iloc y ind_train ;;
       y_test <- iloc y ind_test ;;
       Ok (X_train, X_test, y_train, y_test)).
Proof.
  intros Hunit Hlen. unfold train_test_split.
  rewrite Hlen, Nat.eqb_refl. cbn [negb]. rewrite <- Hlen.
  rewrite (validate_shuffle_split_spec ar (length X) test_size Hunit).
  destruct (ceil_share ar test_size (length X)) as [n_test | e]; [| reflexivity].
  cbn [bind]. destruct (n_test =? Z.of_nat (length X))%Z; [reflexivity |].
  unfold check_random_state.
  destruct ((0 <=? seed)%Z && (seed <? 2 ^ 32)%Z); [| reflexivity].
  cbn [bind]. now destruct (permutation (seeded seed) (length X)).
Qed.

(** Two frames cut from the same rows are split at the same rows. *)
Lemma split_of_mapped_rows {A B C} (rows : list C)
  (f : C -> nat * A) (g : C -> nat * B) (test_size : Q) (seed : Z) :
  0 < test_size -> test_size < 1 -> (0 <= seed < 2 ^ 32)%Z ->
  let n := Z.of_nat (length rows) in
  let n_test := Qceiling (test_size * inject_Z n) in
  (n_test < n)%Z ->
  exists train test,
    (forall global,
       split exact (map f rows) (map g rows) test_size (Some seed) global
       = (Ok (map f train, map f test, map g train, map g test), global))
    /\ Permutation (train ++ test) rows
    /\ Z.of_nat (length test) = n_test
    /\ Z.of_nat (length train) = (n - n_test)%Z.
Proof.
  intros Hpos Hlt Hseed n n_test Hroom.
  pose proof (ceiling_of_share (length rows) Hpos Hlt) as Hc.
  fold n in Hc. fold n_test in Hc.
  pose proof (permutation_spec (seeded seed) (length rows)) as Hperm.
  destruct (@split_by_permutation _ rows _ n_test (n - n_test) Hperm)
    as (train & test & Htr & Hte & Hp & Hn1 & Hn2); try lia.
  exists train, test. split; [| now repeat split].
  intros global.
  assert (Hunit : in_unit exact test_size = true).
  { simpl. apply negb_true_iff, orb_false_iff.
    split; apply not_true_iff_false; rewrite Qle_bool_iff; lraQ. }
  rewrite (surjective_pairing (split exact _ _ _ _ _)).
  rewrite seeded_split_keeps_global. f_equal.
  rewrite (split_run exact _ _ _ seed global Hunit) by now rewrite !length_map.
  rewrite !length_map.
  change (ceil_share exact test_size (length rows)) with (Ok n_test).
  cbn [bind]. fold n.
  destruct (Z.eqb_spec n_test n); [lia |].
  rewrite (seed_in_range global Hseed). cbn [bind]. cbv zeta.
  rewrite (iloc_map f _ _ Htr), (iloc_map f _ _ Hte),
    (iloc_map g _ _ Htr), (iloc_map g _ _ Hte).
  reflexivity.
Qed.

(** C1, as the code has it.  For a size strictly between 0 and 1 and an
    int seed, [train_test_split] is a function of (X, y, size, seed)
    alone: the process-wide generator neither influences the outcome nor
    is touched.  The number of evaluation rows is the ceiling of the
    product [test_size * n] as the float arithmetic gives it.  When that
    leaves rows to train on and the seed is one NumPy accepts (0 to
    2^32 - 1), the call returns subsets whose rows together are exactly
    the rows of the input, each once; with distinct row labels no label
    is in both; [X] and [y] are cut at the same positions.  When no row
    is left to train on, or the seed is refused, no subsets are
    returned: the call raises [ValueError]. *)
Theorem train_test_split_partition (ar : Arithmetic) {A B} (X : Indexed A)
  (y : Indexed B) (test_size : size ar) (seed : Z) :
  in_unit ar test_size = true -> length X = length y ->
  let n := Z.of_nat (length X) in
  (forall g1 g2,
      fst (split ar X y test_size (Some seed) g1)
      = fst (split ar X y test_size (Some seed) g2))
  /\ (forall g, snd (split ar X y test_size (Some seed) g) = g)
  /\ (forall g e, ceil_share ar test_size (length X) = Raise e ->
        fst (split ar X y test_size (Some seed) g) = Raise e)
  /\ (forall g n_test, ceil_share ar test_size (length X) = Ok n_test ->
        (n_test = n \/ ~ (0 <= seed < 2 ^ 32)%Z ->
           fst (split ar X y test_size (Some seed) g) = Raise ValueError)
        /\ ((0 <= n_test < n)%Z -> (0 <= seed < 2 ^ 32)%Z ->
            exists X_train X_test y_train y_test,
              fst (split ar X y test_size (Some seed) g)
              = Ok (X_train, X_test, y_train, y_test)
              /\ Permutation (X_train ++ X_test) X
              /\ Permutation (y_train ++ y_test) y
              /\ Z.of_nat (length X_test) = n_test
              /\ Z.of_nat (length X_train) = (n - n_test)%Z
              /\ (NoDup (labels X) ->
                  forall i, In i (labels X_train) -> ~ In i (labels X_test))
              /\ (labels X = labels y ->
                  labels X_train = labels y_train
                  /\ labels X_test = labels y_test))).
Proof.
  intros Hunit Hlen n.
  split; [intros; apply seeded_split_ignores_global |].
  split; [intros; apply seeded_split_keeps_global |].
  split.
  { intros g e He. rewrite (split_run ar X y test_size seed g Hunit Hlen), He.
    reflexivity. }
  intros g n_test Hn. rewrite (split_run ar X y test_size seed g Hunit Hlen), Hn.
  cbn [bind]. fold n. split.
  - intros [-> | Hseed]; [now rewrite Z.eqb_refl |].
    destruct (n_test =? n)%Z; [reflexivity |].
    now rewrite (seed_out_of_range g Hseed).
  - intros Hroom Hseed. destruct (Z.eqb_spec n_test n); [lia |].
    rewrite (seed_in_range g Hseed). cbn [bind]. cbv zeta.
    set (perm := fst (permutation (seeded seed) (length X))).
    assert (HpX : Permutation perm (seq 0 (length X))) by apply permutation_spec.
    assert (Hpy : Permutation perm (seq 0 (length y))) by now rewrite <- Hlen.
    destruct (@split_by_permutation _ X perm n_test (n - n_test) HpX)
      as (X_train & X_test & HXtr & HXte & HXp & HXn1 & HXn2); try lia.
    destruct (@split_by_permutation _ y perm n_test (n - n_test) Hpy)
      as (y_train & y_test & Hytr & Hyte & Hyp & _ & _); try lia.
    exists X_train, X_test, y_train, y_test.
    rewrite HXtr, HXte, Hytr, Hyte. simpl.
    repeat split; trivial.
    + intros Hnd i Hi1 Hi2.
      assert (Hnd' : NoDup (labels X_train ++ labels X_test)).
      { unfold labels. rewrite <- map_app.
        eapply Permutation_NoDup; [| exact Hnd].
        apply Permutation_sym, Permutation_map, HXp. }
      apply NoDup_app_remove_l in Hnd' as Hnd2.
      revert Hi1 Hi2. clear - Hnd'.
      induction (labels X_train) as [| a l IH]; simpl; [tauto |].
      inversion Hnd' as [| ? ? Hnotin Hrest]; subst.
      intros [-> | Hi1] Hi2; [apply Hnotin, in_or_app; now right | now apply IH].
    + apply iloc_labels in HXtr, Hytr. congruence.
    + apply iloc_labels in HXte, Hyte. congruence.
Qed.

End Split.

Lemma counter_permutation_spec (rng : Z) (n : nat) :
  Permutation (fst (counter_permutation rng n)) (seq 0 n).
Proof. apply Permutation_sym, Permutation_rev. Qed.

(** A six-row frame in binary64: three go to each side at size 0.5. *)
Lemma train_test_split_partition_witness :
  exists X_train X_test y_train y_test,
    fst (train_test_split counter_seeded counter_permutation binary64
           (range_index [10; 11; 12; 13; 14; 15]%nat)
           (range_index [0; 1; 2; 0; 1; 2]%nat) 0.5%float (Some 42%Z) 0%Z)
    = Ok (X_train, X_test, y_train, y_test)
    /\ Permutation (X_train ++ X_test) (range_index [10; 11; 12; 13; 14; 15]%nat).
Proof.
  destruct (@train_test_split_partition Z counter_seeded counter_permutation
              counter_permutation_spec binary64
              nat nat (range_index [10; 11; 12; 13; 14; 15]%nat)
              (range_index [0; 1; 2; 0; 1; 2]%nat) 0.5%float 42%Z
              eq_refl eq_refl)
    as (_ & _ & _ & Hsplit).
  destruct (Hsplit 0%Z 3%Z eq_refl) as [_ Hparts].
  assert (Hseed : (0 <= 42 < 2 ^ 32)%Z) by (split; [discriminate | reflexivity]).
  assert (Hroom : (0 <= 3 < Z.of_nat (length (range_index [10; 11; 12; 13; 14; 15]%nat)))%Z)
    by (split; [discriminate | reflexivity]).
  destruct (Hparts Hroom Hseed)
    as (X_train & X_test & y_train & y_test & Hrun & Hperm & _).
  exists X_train, X_test, y_train, y_test. now split.
Defined.

(** C1, as the claim has it, fails: not every dataset, size and seed gives
    a pair of subsets.  On a single row at size 0.2 no row is left to train
    on, and a seed below 0 is refused: either way the call raises
    [ValueError]. *)
Lemma split_without_subsets :
  fst (train_test_split counter_seeded counter_permutation binary64
         (range_index [10]%nat) (range_index [0]%nat)
         0x1.999999999999ap-3%float (Some 42%Z) 0%Z)
  = Raise ValueError
  /\ fst (train_test_split counter_seeded counter_permutation binary64
            (range_index [10; 11; 12; 13; 14]%nat)
            (range_index [0; 1; 2; 0; 1]%nat)
            0x1.999999999999ap-3%float (Some (-1)%Z) 0%Z)
     = Raise ValueError.
Proof. split; reflexivity. Qed.

Example split_of_five_rows :
  fst (train_test_split counter_seeded counter_permutation binary64
         (range_index [10; 11; 12; 13; 14]%nat) (range_index [0; 1; 2; 0; 1]%nat)
         0x1.999999999999ap-3%float (Some 42%Z) 0%Z)
  = Ok ([(3, 13); (2, 12); (1, 11); (0, 10)]%nat, [(4, 14)]%nat,
        [(3, 0); (2, 2); (1, 1); (0, 0)]%nat, [(4, 1)]%nat).
Proof. reflexivity. Qed.

End ModelSelectionFacts.

(* ------------------------------------------------------------------ *)
(** ** Standardisation                                                 *)
(* ------------------------------------------------------------------ *)

Module PreprocessingFacts.

Import Preprocessing.
Local Open Scope R_scope.

(** *** Sums, means and variances *)

Lemma total_affine (xs : list R) (m s : R) :
  total (map (fun x => (x - m) / s) xs) = (total xs - INR (length xs) * m) / s.
Proof.
  induction xs as [| x xs IH].
  - simpl. unfold Rdiv. ring.
  - change (length (x :: xs)) with (S (length xs)). rewrite S_INR.
    simpl. rewrite IH. unfold Rdiv. ring.
Qed.

Lemma total_scaled (f : R -> R) (c : R) (xs : list R) :
  total (map (fun x => f x * c) xs) = total (map f xs) * c.
Proof.
  induction xs as [| x xs IH]; simpl; [ring |]. rewrite IH. ring.
Qed.

Lemma total_nonneg (xs : list R) :
  Forall (fun x => 0 <= x) xs -> 0 <= total xs.
Proof.
  induction 1 as [| x xs Hx _ IH]; simpl; lraR.
Qed.

Lemma total_zero (xs : list R) :
  Forall (fun x => 0 <= x) xs -> total xs = 0 -> Forall (fun x => x = 0) xs.
Proof.
  induction 1 as [| x xs Hx Hxs IH]; simpl; intros Hsum; constructor.
  - pose proof (total_nonneg Hxs). lraR.
  - apply IH. pose proof (total_nonneg Hxs). lraR.
Qed.

Lemma squares_nonneg (m : R) (xs : list R) :
  Forall (fun x => 0 <= x) (map (fun x => (x - m) * (x - m)) xs).
Proof.
  rewrite Forall_forall. intros y Hy. apply in_map_iff in Hy as [x [<- _]].
  apply Rle_0_sqr.
Qed.

Lemma length_pos_INR {A} (xs : list A) : xs <> [] -> 0 < INR (length xs).
Proof.
  intros Hne. apply lt_0_INR. destruct xs; [contradiction | simpl; lia].
Qed.

Lemma var_nonneg (xs : list R) : 0 <= var xs.
Proof.
  destruct xs as [| x0 xs0] eqn:E.
  - unfold var, mean. simpl. unfold Rdiv. lraR.
  - rewrite <- E. unfold var, mean. rewrite length_map.
    apply Rmult_le_pos.
    + apply total_nonneg, squares_nonneg.
    + left. apply Rinv_0_lt_compat, length_pos_INR. now rewrite E.
Qed.

Lemma var_nonzero_nonempty (xs : list R) : var xs <> 0 -> xs <> [].
Proof.
  intros Hv ->. apply Hv. unfold var, mean. simpl. unfold Rdiv. ring.
Qed.

Lemma std_zero_iff (xs : list R) : std xs = 0 <-> var xs = 0.
Proof.
  unfold std. split.
  - apply sqrt_eq_0, var_nonneg.
  - intros ->. apply sqrt_0.
Qed.

(** A feature without variance is constant: every value is the mean. *)
Lemma var_zero_constant (xs : list R) :
  var xs = 0 -> Forall (fun x => x = mean xs) xs.
Proof.
  intros Hv. destruct xs as [| x0 xs0] eqn:E; [constructor |].
  rewrite <- E in *. unfold var in Hv. unfold mean at 1 in Hv.
  rewrite length_map in Hv.
  assert (Hn : 0 < INR (length xs)) by (apply length_pos_INR; now rewrite E).
  assert (Hsum : total (map (fun x => (x - mean xs) * (x - mean xs)) xs) = 0).
  { apply Rmult_integral in Hv as [Hv | Hv]; [exact Hv |].
    pose proof (Rinv_0_lt_compat _ Hn). lraR. }
  apply total_zero in Hsum; [| apply squares_nonneg].
  rewrite Forall_forall in *. intros x Hx.
  assert (Hsq : (x - mean xs) * (x - mean xs) = 0).
  { apply Hsum, in_map_iff. now exists x. }
  apply Rmult_integral in Hsq. lraR.
Qed.

(** Centring by the mean and dividing by any factor gives mean zero. *)
Lemma mean_centred (xs : list R) (s : R) :
  xs <> [] -> mean (map (fun x => (x - mean xs) / s) xs) = 0.
Proof.
  intros Hne. pose proof (length_pos_INR Hne) as Hn.
  unfold mean at 1. rewrite total_affine, length_map.
  unfold mean. unfold Rdiv.
  replace (total xs - INR (length xs) * (total xs * / INR (length xs)))
    with 0 by (field; lraR).
  ring.
Qed.

(** Dividing by the standard deviation gives standard deviation one. *)
Lemma std_standardised (xs : list R) :
  var xs <> 0 ->
  std (map (fun x => (x - mean xs) / std xs) xs) = 1.
Proof.
  intros Hv. pose proof (var_nonzero_nonempty Hv) as Hne.
  pose proof (length_pos_INR Hne) as Hn.
  assert (Hs : std xs <> 0) by now rewrite std_zero_iff.
  assert (Hss : std xs * std xs = var xs) by apply sqrt_sqrt, var_nonneg.
  unfold std at 1. rewrite <- sqrt_1. f_equal.
  unfold var at 1. rewrite (mean_centred (std xs) Hne).
  rewrite map_map. unfold mean at 1. rewrite length_map.
  rewrite (map_ext _ (fun x => (x - mean xs) * (x - mean xs) * / var xs)).
  2:{ intros x. rewrite <- Hss. field. exact Hs. }
  rewrite total_scaled. fold (var xs) in *.
  replace (total (map (fun x => (x - mean xs) * (x - mean xs)) xs))
    with (var xs * INR (length xs)).
  - field. split; [exact Hv | lraR].
  - unfold var at 1, mean at 1. rewrite length_map. field. lraR.
Qed.

(** *** Features that count as constant *)

(** The bound below which scikit-learn takes a variance for rounding
    error: [n * eps * var + (n * mean * eps)^2] with [eps] = 2^-52. *)
Local Abbreviation rounding_bound xs :=
  (INR (length xs) * / 4503599627370496 * var xs
   + (INR (length xs) * mean xs * / 4503599627370496)
     * (INR (length xs) * mean xs * / 4503599627370496)).

Lemma eps_pos : 0 < eps.
Proof. unfold eps. lraR. Qed.

Example eps_is_two_to_minus_52 : eps * 2 ^ 52 = 1.
Proof. unfold eps. simpl. lraR. Qed.

Lemma near_constant_true_iff (xs : list R) :
  near_constant xs = true <-> var xs <= rounding_bound xs.
Proof.
  unfold near_constant, is_constant_feature, eps.
  destruct (Rle_dec _ _) as [H | H]; split; trivial; [discriminate | contradiction].
Qed.

Lemma near_constant_false_iff (xs : list R) :
  near_constant xs = false <-> rounding_bound xs < var xs.
Proof.
  unfold near_constant, is_constant_feature, eps.
  destruct (Rle_dec _ _) as [H | H]; split; trivial;
    [discriminate | intros; lraR | intros; lraR].
Qed.

Lemma zero_variance_near_constant (xs : list R) :
  var xs = 0 -> near_constant xs = true.
Proof.
  intros Hv. unfold near_constant, is_constant_feature. rewrite Hv.
  destruct (Rle_dec _ _) as [_ | Hn]; [reflexivity |].
  exfalso. apply Hn.
  pose proof (Rle_0_sqr (INR (length xs) * mean xs * eps)) as Hsq.
  unfold Rsqr in Hsq. lraR.
Qed.

Lemma varying_positive (xs : list R) :
  near_constant xs = false -> 0 < var xs.
Proof.
  unfold near_constant, is_constant_feature.
  destruct (Rle_dec _ _) as [| Hn]; [discriminate |]. intros _.
  pose proof (var_nonneg xs) as Hv.
  pose proof (Rle_0_sqr (INR (length xs) * mean xs * eps)) as Hsq.
  unfold Rsqr in Hsq.
  assert (Hn0 : 0 <= INR (length xs) * eps * var xs).
  { apply Rmult_le_pos; [| exact Hv].
    apply Rmult_le_pos; [apply pos_INR | left; apply eps_pos]. }
  lraR.
Qed.

Lemma scale_of_constant (xs : list R) :
  near_constant xs = true -> scale_of xs = 1.
Proof. unfold scale_of. now intros ->. Qed.

Lemma scale_of_varying (xs : list R) :
  near_constant xs = false -> scale_of xs = std xs /\ var xs <> 0.
Proof.
  intros Hc. pose proof (@varying_positive xs Hc) as Hv.
  unfold scale_of. rewrite Hc. split; [reflexivity | lraR].
Qed.

Lemma scale_of_positive (xs : list R) : 0 < scale_of xs.
Proof.
  destruct (near_constant xs) eqn:Hc.
  - rewrite (@scale_of_constant xs Hc). lraR.
  - destruct (@scale_of_varying xs Hc) as [-> _].
    apply sqrt_lt_R0. now apply varying_positive.
Qed.

(** *** Arrays *)

Lemma fit_rectangular (X : Array) (d : nat) :
  X <> [] -> rectangular d X -> (0 < d)%nat ->
  fit X = Ok (mkScaler
                (map (fun j => mean (column X j)) (seq 0 d))
                (map (fun j => scale_of (column X j)) (seq 0 d))).
Proof.
  intros Hne Hrect Hd. unfold fit. destruct X as [| row X']; [contradiction |].
  inversion Hrect as [| ? ? Hrow _]; subst.
  destruct (Nat.eqb_spec (length row) 0); [lia | reflexivity].
Qed.

Lemma transform_rectangular (scaler : StandardScaler) (X : Array) :
  X <> [] ->
  rectangular (length (mean_ scaler)) X ->
  transform scaler X = Ok (map (scale_row scaler) X).
Proof.
  intros Hne Hrect. unfold transform.
  destruct X as [| row X'] eqn:E; [contradiction |]. rewrite <- E in *.
  replace (forallb (has_width (length (mean_ scaler))) X) with true;
    [reflexivity |].
  symmetry. apply forallb_forall. intros r Hr.
  unfold rectangular in Hrect. rewrite Forall_forall in Hrect.
  unfold has_width. rewrite (Hrect r Hr). apply Nat.eqb_refl.
Qed.

Lemma nth_scale_row (scaler : StandardScaler) (row : list R) (j : nat) :
  length row = length (mean_ scaler) ->
  length (scale_ scaler) = length (mean_ scaler) ->
  (j < length row)%nat ->
  nth j (scale_row scaler row) 0
  = (nth j row 0 - nth j (mean_ scaler) 0) / nth j (scale_ scaler) 0.
Proof.
  intros Hrow Hscale Hj. unfold scale_row.
  set (f := fun xms : R * (R * R) => (fst xms - fst (snd xms)) / snd (snd xms)).
  rewrite (nth_indep _ 0 (f (0, (0, 0)))).
  - rewrite map_nth, !combine_nth by (rewrite ?length_combine; lia).
    reflexivity.
  - rewrite length_map, !length_combine. lia.
Qed.

Lemma column_scaled (scaler : StandardScaler) (X : Array) (j : nat) :
  rectangular (length (mean_ scaler)) X ->
  length (scale_ scaler) = length (mean_ scaler) ->
  (j < length (mean_ scaler))%nat ->
  column (map (scale_row scaler) X) j
  = map (fun x => (x - nth j (mean_ scaler) 0) / nth j (scale_ scaler) 0)
        (column X j).
Proof.
  intros Hrect Hscale Hj. unfold column. rewrite !map_map.
  apply map_ext_in. intros row Hrow.
  unfold rectangular in Hrect. rewrite Forall_forall in Hrect.
  apply nth_scale_row; rewrite ?(Hrect row Hrow); trivial.
Qed.

Lemma nth_map_range (f : nat -> R) (d j : nat) :
  (j < d)%nat -> nth j (map f (seq 0 d)) 0 = f j.
Proof.
  intros Hj. rewrite (nth_indep _ 0 (f 0%nat)) by now rewrite length_map, length_seq.
  rewrite map_nth, seq_nth by exact Hj. reflexivity.
Qed.

(** What [fit_transform] computes on a well-shaped array. *)
Lemma fit_transform_rectangular (X : Array) (d : nat) :
  X <> [] -> (0 < d)%nat -> rectangular d X ->
  exists scaler,
    fit X = Ok scaler
    /\ length (mean_ scaler) = d /\ length (scale_ scaler) = d
    /\ (forall j, (j < d)%nat ->
          nth j (mean_ scaler) 0 = mean (column X j)
          /\ nth j (scale_ scaler) 0 = scale_of (column X j))
    /\ fit_transform X = Ok (scaler, map (scale_row scaler) X).
Proof.
  intros Hne Hd Hrect.
  eexists. split; [apply (fit_rectangular Hne Hrect Hd) |].
  set (scaler := mkScaler _ _).
  assert (Hm : length (mean_ scaler) = d)
    by (unfold scaler; simpl; now rewrite length_map, length_seq).
  assert (Hs : length (scale_ scaler) = d)
    by (unfold scaler; simpl; now rewrite length_map, length_seq).
  repeat split; trivial.
  - unfold scaler. simpl. now apply nth_map_range.
  - unfold scaler. simpl.
    now apply (nth_map_range (fun j => scale_of (column X j))).
  - unfold fit_transform. rewrite (fit_rectangular Hne Hrect Hd).
    cbn [bind]. fold scaler.
    rewrite transform_rectangular by (trivial; now rewrite Hm). reflexivity.
Qed.

(** A column that is not taken for constant comes out of [fit_transform]
    with mean 0 and standard deviation 1; a column that is taken for
    constant is centred and keeps its standard deviation. *)
Lemma standardised_columns (X : Array) (d : nat) :
  X <> [] -> (0 < d)%nat -> rectangular d X ->
  exists scaler,
    fit X = Ok scaler
    /\ length (mean_ scaler) = d
    /\ fit_transform X = Ok (scaler, map (scale_row scaler) X)
    /\ forall j, (j < d)%nat ->
         nth j (mean_ scaler) 0 = mean (column X j)
         /\ mean (column (map (scale_row scaler) X) j) = 0
         /\ (near_constant (column X j) = false ->
               nth j (scale_ scaler) 0 = std (column X j)
               /\ std (column (map (scale_row scaler) X) j) = 1)
         /\ (near_constant (column X j) = true ->
               nth j (scale_ scaler) 0 = 1
               /\ column (map (scale_row scaler) X) j
                  = map (fun x => x - mean (column X j)) (column X j)).
Proof.
  intros Hne Hd Hrect.
  destruct (fit_transform_rectangular Hne Hd Hrect)
    as (scaler & Hfit & Hm & Hs & Hpar & Hft).
  exists scaler. split; [exact Hfit |]. split; [exact Hm |].
  split; [exact Hft |].
  intros j Hj. destruct (Hpar j Hj) as [Hmean Hscale].
  assert (Hcol : column (map (scale_row scaler) X) j
                 = map (fun x => (x - mean (column X j)) / scale_of (column X j))
                       (column X j)).
  { rewrite column_scaled by (rewrite ?Hm, ?Hs; trivial).
    now rewrite Hmean, Hscale. }
  assert (Hcne : column X j <> []).
  { unfold column. destruct X; [contradiction | discriminate]. }
  split; [exact Hmean |].
  split; [rewrite Hcol; now apply mean_centred |].
  split.
  - intros Hc. destruct (@scale_of_varying _ Hc) as [Hstd Hv].
    rewrite Hscale. split; [exact Hstd |].
    rewrite Hcol, Hstd. now apply std_standardised.
  - intros Hc. rewrite Hscale, (@scale_of_constant _ Hc).
    split; [reflexivity |].
    rewrite Hcol, (@scale_of_constant _ Hc).
    apply map_ext. intros x. field.
Qed.




Example fit_without_rows : fit [] = Raise ValueError.
Proof. reflexivity. Qed.

(** *** A feature that varies by a rounding error *)

Lemma almost_constant_column :
  mean [1; 1 + eps] = 1 + eps / 2
  /\ var [1; 1 + eps] = eps * eps / 4
  /\ near_constant [1; 1 + eps] = true.
Proof.
  assert (Hmean : mean [1; 1 + eps] = 1 + eps / 2)
    by (unfold mean; simpl; lraR).
  assert (Hvar : var [1; 1 + eps] = eps * eps / 4).
  { unfold var. rewrite Hmean. unfold mean. simpl. field. }
  split; [exact Hmean |]. split; [exact Hvar |].
  unfold near_constant, is_constant_feature. rewrite Hvar, Hmean.
  destruct (Rle_dec _ _) as [_ | Hn]; [reflexivity |].
  exfalso. apply Hn. simpl INR. pose proof eps_pos as He.
  assert (He2 : 0 < eps * eps) by now apply Rmult_lt_0_compat.
  assert (He3 : 0 < eps * eps * eps) by now apply Rmult_lt_0_compat.
  Lra.nra.
Qed.


(** *** What a fitted scaler does to any array *)

Lemma fit_shape (X : Array) (scaler : StandardScaler) :
  fit X = Ok scaler ->
  (0 < length (mean_ scaler))%nat
  /\ length (scale_ scaler) = length (mean_ scaler)
  /\ Forall (fun s => 0 < s) (scale_ scaler).
Proof.
  unfold fit. destruct X as [| row X']; [discriminate |].
  destruct (Nat.eqb_spec (length row) 0) as [| Hd]; [discriminate |].
  intros H. injection H as <-. simpl.
  rewrite !length_map, length_seq. repeat split; [lia |].
  rewrite Forall_forall. intros s Hs. apply in_map_iff in Hs as [j [<- _]].
  apply scale_of_positive.
Qed.

Lemma scale_row_length (scaler : StandardScaler) (row : list R) :
  length (scale_ scaler) = length (mean_ scaler) ->
  length row = length (mean_ scaler) ->
  length (scale_row scaler row) = length (mean_ scaler).
Proof.
  intros Hs Hrow. unfold scale_row.
  rewrite length_map, !length_combine. lia.
Qed.

(** X10.  A scaler that was fitted never divides by zero: every scale is
    strictly positive.  Applied to an array without rows it raises
    [ValueError]; applied to any array of the fitted width with at least
    one row it does not raise, keeps the number of rows and the width, and
    keeps the order of the values within every column. *)
Theorem fitted_scaler_keeps_shape_and_order (X Y : Array)
  (scaler : StandardScaler) :
  fit X = Ok scaler ->
  rectangular (length (mean_ scaler)) Y ->
  Forall (fun s => 0 < s) (scale_ scaler)
  /\ (Y = [] -> transform scaler Y = Raise ValueError)
  /\ (Y <> [] ->
      exists Y',
        transform scaler Y = Ok Y'
        /\ length Y' = length Y
        /\ rectangular (length (mean_ scaler)) Y'
        /\ forall j r1 r2,
             (j < length (mean_ scaler))%nat -> In r1 Y -> In r2 Y ->
             nth j r1 0 <= nth j r2 0 ->
             nth j (scale_row scaler r1) 0 <= nth j (scale_row scaler r2) 0).
Proof.
  intros Hfit HY. destruct (@fit_shape _ _ Hfit) as (Hd & Hs & Hpos).
  split; [exact Hpos |]. split; [now intros -> |]. intros Hne.
  exists (map (scale_row scaler) Y).
  split; [now apply transform_rectangular |].
  split; [apply length_map |].
  unfold rectangular in *. rewrite Forall_forall in HY. split.
  - rewrite Forall_forall. intros row Hrow.
    apply in_map_iff in Hrow as [r [<- Hr]].
    apply scale_row_length; [exact Hs | now apply HY].
  - intros j r1 r2 Hj H1 H2 Hle.
    rewrite !nth_scale_row by (rewrite ?(HY _ H1), ?(HY _ H2); trivial).
    assert (Hsj : 0 < nth j (scale_ scaler) 0).
    { rewrite Forall_forall in Hpos. apply Hpos, nth_In. lia. }
    unfold Rdiv. apply Rmult_le_compat_r; [| lraR].
    left. now apply Rinv_0_lt_compat.
Qed.

Lemma fitted_scaler_keeps_shape_and_order_witness :
  exists scaler Y',
    fit [[0]; [2]] = Ok scaler
    /\ transform scaler [[5]; [1]] = Ok Y'
    /\ length Y' = 2%nat
    /\ Forall (fun s => 0 < s) (scale_ scaler).
Proof.
  assert (HY : rectangular 1 [[5]; [1]]) by (repeat constructor).
  assert (Hne : [[5]; [1]] <> @nil (list R)) by discriminate.
  destruct (@fitted_scaler_keeps_shape_and_order [[0]; [2]] [[5]; [1]] _
              eq_refl HY)
    as (Hpos & _ & Hrun).
  destruct (Hrun Hne) as (Y' & Htr & Hlen & _).
  eexists. exists Y'. split; [reflexivity |]. now repeat split.
Defined.

End PreprocessingFacts.

(* ------------------------------------------------------------------ *)
(** ** Accuracy, precision, recall, F1                                 *)
(* ------------------------------------------------------------------ *)

Module MetricsFacts.

Import Metrics.
Local Open Scope Q_scope.

(** *** Counting *)

Lemma of_nat_succ (n : nat) : of_nat (S n) == of_nat n + 1.
Proof.
  unfold of_nat. rewrite Nat2Z.inj_succ, <- Z.add_1_r, inject_Z_plus. reflexivity.
Qed.

Lemma of_nat_add (n m : nat) : of_nat (n + m) == of_nat n + of_nat m.
Proof.
  unfold of_nat. rewrite Nat2Z.inj_add, inject_Z_plus. reflexivity.
Qed.

Lemma of_nat_le (n m : nat) : (n <= m)%nat -> of_nat n <= of_nat m.
Proof. intros H. unfold of_nat. rewrite <- Zle_Qle. lia. Qed.

Lemma of_nat_nonneg (n : nat) : 0 <= of_nat n.
Proof. apply (of_nat_le (Nat.le_0_l n)). Qed.

Lemma of_nat_pos (n : nat) : (0 < n)%nat -> 0 < of_nat n.
Proof. intros H. unfold of_nat. rewrite <- (Zlt_Qlt 0). lia. Qed.

Lemma total_indicator {A} (g : A -> bool) (l : list A) :
  total (map (fun x => indicator (g x)) l) == of_nat (length (filter g l)).
Proof.
  induction l as [| x l IH]; simpl; [reflexivity |].
  rewrite IH. destruct (g x); simpl.
  - rewrite of_nat_succ. ring.
  - ring.
Qed.

Lemma correct_le_rows (y_true y_pred : list nat) :
  length y_true = length y_pred ->
  (correct y_true y_pred <= length y_true)%nat.
Proof.
  intros Hlen. unfold correct.
  etransitivity; [apply filter_length_le |].
  rewrite length_combine. lia.
Qed.

Lemma tp_le_pred (y_true y_pred : list nat) (c : nat) :
  (tp_sum y_true y_pred c <= pred_sum y_pred c)%nat.
Proof.
  unfold tp_sum, pred_sum. revert y_pred.
  induction y_true as [| t y_true IH]; intros [| q y_pred]; simpl; try lia.
  specialize (IH y_pred).
  destruct (Nat.eq_dec q c) as [-> | Hne].
  - rewrite Nat.eqb_refl, andb_true_r. destruct (Nat.eqb t c); simpl; lia.
  - apply Nat.eqb_neq in Hne. rewrite Hne, andb_false_r. exact IH.
Qed.

Lemma tp_le_true (y_true y_pred : list nat) (c : nat) :
  (tp_sum y_true y_pred c <= true_sum y_true c)%nat.
Proof.
  unfold tp_sum, true_sum. revert y_pred.
  induction y_true as [| t y_true IH]; intros [| q y_pred]; simpl; try lia.
  specialize (IH y_pred).
  destruct (Nat.eq_dec t c) as [-> | Hne].
  - rewrite Nat.eqb_refl. destruct (Nat.eqb q c); simpl; lia.
  - apply Nat.eqb_neq in Hne. rewrite Hne. simpl. exact IH.
Qed.

(** *** Ratios *)

Lemma prf_divide_unit (numerator denominator : Q) :
  0 <= numerator -> numerator <= denominator ->
  0 <= prf_divide numerator denominator <= 1.
Proof.
  intros H0 Hle. unfold prf_divide.
  destruct (Qeq_bool denominator 0) eqn:E; [lraQ |].
  apply Qeq_bool_neq in E.
  assert (Hpos : 0 < denominator) by lraQ.
  split.
  - apply Qle_shift_div_l; [exact Hpos | lraQ].
  - apply Qle_shift_div_r; [exact Hpos | lraQ].
Qed.

Lemma f1_unit (p r : Q) :
  0 <= p <= 1 -> 0 <= r <= 1 -> 0 <= prf_divide (2 * p * r) (p + r) <= 1.
Proof.
  intros Hp Hr. apply prf_divide_unit; Lqa.nra.
Qed.

Lemma class_row_unit (y_true y_pred : list nat) (c : nat) :
  let row := class_row y_true y_pred c in
  0 <= precision row <= 1 /\ 0 <= recall row <= 1 /\ 0 <= f1_score row <= 1.
Proof.
  assert (Hp : 0 <= precision (class_row y_true y_pred c) <= 1).
  { simpl. apply prf_divide_unit;
      [apply of_nat_nonneg | apply of_nat_le, tp_le_pred]. }
  assert (Hr : 0 <= recall (class_row y_true y_pred c) <= 1).
  { simpl. apply prf_divide_unit;
      [apply of_nat_nonneg | apply of_nat_le, tp_le_true]. }
  simpl. repeat split; try apply Hp; try apply Hr; now apply f1_unit.
Qed.

(** *** Labels *)

Lemma insert_label_In (c x : nat) (l : list nat) :
  In x (insert_label c l) <-> x = c \/ In x l.
Proof.
  induction l as [| c' l IH]; simpl; [intuition |].
  destruct (Nat.ltb c c'); [simpl; intuition |].
  destruct (Nat.eqb_spec c c') as [-> |]; simpl; [intuition |].
  rewrite IH. intuition.
Qed.

Lemma unique_labels_In (y_true y_pred : list nat) (c : nat) :
  In c (unique_labels y_true y_pred) <-> In c (y_true ++ y_pred).
Proof.
  unfold unique_labels. induction (y_true ++ y_pred) as [| x l IH]; simpl.
  - tauto.
  - rewrite insert_label_In, IH. intuition.
Qed.

Lemma support_positive (y_true y_pred : list nat) :
  y_true <> [] ->
  (0 < fold_right Nat.add 0%nat
         (map (fun cr : nat * ClassRow => support (snd cr))
              (map (fun c => (c, class_row y_true y_pred c))
                   (unique_labels y_true y_pred))))%nat.
Proof.
  intros Hne. destruct y_true as [| t rest] eqn:E; [contradiction |].
  rewrite <- E in *.
  assert (Hin : In t (unique_labels y_true y_pred)).
  { apply unique_labels_In, in_or_app. left. rewrite E. now left. }
  assert (Hsup : (0 < true_sum y_true t)%nat).
  { unfold true_sum. apply count_occ_In. rewrite E. now left. }
  rewrite map_map. simpl.
  induction (unique_labels y_true y_pred) as [| c l IH]; [destruct Hin |].
  simpl. destruct Hin as [-> | Hin]; [lia |]. specialize (IH Hin). lia.
Qed.

(** *** The scores of one evaluation *)

Lemma accuracy_score_value (y_true y_pred : list nat) :
  length y_true = length y_pred -> y_true <> [] ->
  exists a,
    accuracy_score y_true y_pred = Ok (Finite a)
    /\ a == of_nat (correct y_true y_pred) / of_nat (length y_true)
    /\ 0 <= a <= 1.
Proof.
  intros Hlen Hne. unfold accuracy_score, average.
  rewrite Hlen, Nat.eqb_refl, length_map, length_combine, <- Hlen, Nat.min_id.
  assert (Hpos : (0 < length y_true)%nat)
    by (destruct y_true; [contradiction | simpl; lia]).
  destruct (Nat.eqb_spec (length y_true) 0); [lia |].
  eexists. split; [reflexivity |].
  rewrite total_indicator. fold (correct y_true y_pred).
  pose proof (of_nat_pos Hpos) as Hn.
  split; [reflexivity |]. split.
  - apply Qle_shift_div_l; [exact Hn |].
    pose proof (of_nat_nonneg (correct y_true y_pred)). lraQ.
  - apply Qle_shift_div_r; [exact Hn |].
    pose proof (of_nat_le (correct_le_rows _ _ Hlen)). lraQ.
Qed.

(** Accuracy is the share of right predictions; accuracy and every
    per-class precision, recall and F1 lie in [0,1]; the averages of the
    report are taken in binary64 over the rounded per-class values. *)
Lemma metrics_in_range (y_true y_pred : list nat) :
  length y_true = length y_pred -> y_true <> [] ->
  exists a report,
    accuracy_score y_true y_pred = Ok (Finite a)
    /\ a == of_nat (correct y_true y_pred) / of_nat (length y_true)
    /\ 0 <= a <= 1
    /\ classification_report y_true y_pred = Ok report
    /\ accuracy report = Finite a
    /\ (forall c row, In (c, row) (per_class report) ->
          0 <= precision row <= 1 /\ 0 <= recall row <= 1
          /\ 0 <= f1_score row <= 1)
    /\ avg_f1_score (weighted_avg report)
       = np_average (map rounded (f1_scores report))
                    (map (fun cr => support (snd cr)) (per_class report)).
Proof.
  intros Hlen Hne.
  destruct (@accuracy_score_value y_true y_pred Hlen Hne)
    as (a & Hacc & Hval & Hunit).
  exists a. eexists.
  split; [exact Hacc |]. split; [exact Hval |]. split; [exact Hunit |].
  split; [unfold classification_report; rewrite Hacc; reflexivity |].
  cbn [accuracy per_class weighted_avg avg_f1_score].
  split; [reflexivity |]. split.
  - intros c row Hin. apply in_map_iff in Hin as [c' [Heq _]].
    injection Heq as <- <-. apply class_row_unit.
  - unfold f1_scores. cbn [per_class].
    f_equal. symmetry. apply map_map.
Qed.


Lemma scores_defined (y_true y_pred : list nat) :
  length y_true = length y_pred -> y_true <> [] ->
  exists a r,
    accuracy_score y_true y_pred = Ok a
    /\ classification_report y_true y_pred = Ok r.
Proof.
  intros Hlen Hne. unfold classification_report, accuracy_score.
  rewrite Hlen, Nat.eqb_refl. rewrite <- Hlen.
  destruct y_true; [contradiction |]. simpl. eauto.
Qed.

Example scores_of_nothing :
  accuracy_score [] [] = Raise ValueError
  /\ classification_report [] [] = Raise ValueError.
Proof. split; reflexivity. Qed.

(** *** Perfect predictions *)

Lemma all_right_iff (y_true y_pred : list nat) :
  length y_true = length y_pred ->
  (correct y_true y_pred = length y_true <-> y_pred = y_true).
Proof.
  unfold correct. revert y_pred.
  induction y_true as [| t y_true IH]; intros [| q y_pred] Hlen;
    simpl in *; try discriminate; [tauto |].
  injection Hlen as Hlen. specialize (IH y_pred Hlen).
  pose proof (filter_length_le (fun tp : nat * nat => Nat.eqb (fst tp) (snd tp))
                (combine y_true y_pred)) as Hle.
  rewrite length_combine, <- Hlen, Nat.min_id in Hle.
  destruct (Nat.eqb_spec t q) as [-> | Hne]; simpl; split.
  - intros H. f_equal. apply IH. lia.
  - intros H. injection H as H. f_equal. now apply IH.
  - lia.
  - intros H. injection H as H _. congruence.
Qed.

(** X6.  On a non-empty evaluation set the accuracy is 1 exactly when
    every prediction is right, that is when [y_pred] is [y_true]. *)
Theorem accuracy_one_iff_all_right (y_true y_pred : list nat) :
  length y_true = length y_pred -> y_true <> [] ->
  exists a,
    accuracy_score y_true y_pred = Ok (Finite a)
    /\ (a == 1 <-> y_pred = y_true).
Proof.
  intros Hlen Hne.
  destruct (@accuracy_score_value y_true y_pred Hlen Hne) as (a & Hacc & Hval & _).
  exists a. split; [exact Hacc |].
  assert (Hpos : 0 < of_nat (length y_true)).
  { apply of_nat_pos. destruct y_true; [contradiction | simpl; lia]. }
  rewrite <- (@all_right_iff y_true y_pred Hlen), Hval. split.
  - intros H1.
    assert (Heq : of_nat (correct y_true y_pred) == of_nat (length y_true)).
    { rewrite <- (Qmult_1_l (of_nat (length y_true))), <- H1. field. lraQ. }
    unfold of_nat, Qeq in Heq. simpl in Heq. lia.
  - intros ->. field. lraQ.
Qed.

Lemma accuracy_one_iff_all_right_witness :
  exists a,
    accuracy_score [0; 1; 2]%nat [0; 1; 2]%nat = Ok (Finite a) /\ a == 1.
Proof.
  assert (Hne : [0; 1; 2]%nat <> []) by discriminate.
  destruct (@accuracy_one_iff_all_right [0; 1; 2]%nat [0; 1; 2]%nat eq_refl Hne)
    as (a & Hacc & Hiff).
  exists a. split; [exact Hacc | now apply Hiff].
Defined.

(** *** Classes, supports and the weighted recall *)

Lemma insert_label_sorted (c : nat) (l : list nat) :
  StronglySorted lt l -> StronglySorted lt (insert_label c l).
Proof.
  induction 1 as [| c' l Hl IH Hc']; simpl; [repeat constructor |].
  destruct (Nat.ltb_spec c c') as [Hlt | Hge].
  - constructor; [now constructor |]. constructor; [exact Hlt |].
    eapply Forall_impl; [| exact Hc']. intros x Hx. simpl in Hx. lia.
  - destruct (Nat.eqb_spec c c') as [-> | Hne]; [now constructor |].
    constructor; [exact IH |].
    rewrite Forall_forall in *. intros x Hx.
    apply insert_label_In in Hx as [-> | Hx]; [lia | now apply Hc'].
Qed.

Lemma unique_labels_sorted (y_true y_pred : list nat) :
  StronglySorted lt (unique_labels y_true y_pred).
Proof.
  unfold unique_labels. induction (y_true ++ y_pred) as [| x l IH]; simpl.
  - constructor.
  - now apply insert_label_sorted.
Qed.

Lemma sorted_NoDup (l : list nat) : StronglySorted lt l -> NoDup l.
Proof.
  induction 1 as [| x l Hl IH Hx]; constructor; [| exact IH].
  intros Hin. rewrite Forall_forall in Hx. specialize (Hx x Hin). lia.
Qed.

Lemma class_total_add (f g : nat -> nat) (classes : list nat) :
  class_total (fun c => f c + g c)%nat classes
  = (class_total f classes + class_total g classes)%nat.
Proof.
  unfold class_total. induction classes as [| c classes IH]; simpl; lia.
Qed.

Lemma class_total_ext (f g : nat -> nat) (classes : list nat) :
  (forall c, f c = g c) -> class_total f classes = class_total g classes.
Proof.
  intros Hext. unfold class_total. f_equal. apply map_ext, Hext.
Qed.

Lemma class_total_zero (b : nat -> bool) (classes : list nat) :
  (forall c, In c classes -> b c = false) ->
  class_total (fun c => if b c then 1 else 0)%nat classes = 0%nat.
Proof.
  unfold class_total. induction classes as [| c classes IH]; intros Hb; simpl;
    [reflexivity |].
  rewrite (Hb c (or_introl eq_refl)), IH; [reflexivity |].
  intros c' Hc'. apply Hb. now right.
Qed.

(** Among distinct classes exactly one is the class of a given row. *)
Lemma class_total_one (t : nat) (classes : list nat) :
  NoDup classes -> In t classes ->
  class_total (fun c => if Nat.eqb t c then 1 else 0)%nat classes = 1%nat.
Proof.
  induction 1 as [| c classes Hnotin Hnd IH]; intros Hin; [destruct Hin |].
  change (class_total (fun c0 => if Nat.eqb t c0 then 1 else 0)%nat (c :: classes))
    with ((if Nat.eqb t c then 1 else 0)
          + class_total (fun c0 => if Nat.eqb t c0 then 1 else 0) classes)%nat.
  destruct (Nat.eqb_spec t c) as [-> | Hne].
  - rewrite class_total_zero; [reflexivity |].
    intros c' Hc'. apply Nat.eqb_neq. intros <-. contradiction.
  - destruct Hin as [-> | Hin]; [contradiction | now rewrite IH].
Qed.

Lemma true_sum_total (y_true classes : list nat) :
  NoDup classes -> (forall t, In t y_true -> In t classes) ->
  class_total (true_sum y_true) classes = length y_true.
Proof.
  intros Hnd. induction y_true as [| t y_true IH]; intros Hin.
  - exact (class_total_zero (fun _ => false) classes (fun _ _ => eq_refl)).
  - rewrite (class_total_ext _
               (fun c => true_sum y_true c + (if Nat.eqb t c then 1 else 0))%nat).
    + rewrite class_total_add, IH by (intros t' Ht'; apply Hin; now right).
      rewrite class_total_one; [simpl; lia | exact Hnd | apply Hin; now left].
    + intros c. unfold true_sum. simpl.
      destruct (Nat.eq_dec t c) as [-> | Hne].
      * rewrite Nat.eqb_refl. lia.
      * apply Nat.eqb_neq in Hne. rewrite Hne. lia.
Qed.

Lemma tp_sum_total (y_true y_pred classes : list nat) :
  NoDup classes -> (forall t, In t y_true -> In t classes) ->
  class_total (tp_sum y_true y_pred) classes = correct y_true y_pred.
Proof.
  intros Hnd. revert y_pred.
  induction y_true as [| t y_true IH]; intros y_pred Hin.
  - exact (class_total_zero (fun _ => false) classes (fun _ _ => eq_refl)).
  - destruct y_pred as [| q y_pred].
    + exact (class_total_zero (fun _ => false) classes (fun _ _ => eq_refl)).
    + rewrite (class_total_ext _
                 (fun c => tp_sum y_true y_pred c
                           + (if Nat.eqb t c && Nat.eqb q c then 1 else 0))%nat).
      * rewrite class_total_add, IH by (intros t' Ht'; apply Hin; now right).
        unfold correct. simpl.
        destruct (Nat.eqb_spec t q) as [<- | Hne]; simpl.
        -- rewrite (class_total_ext _ (fun c => if Nat.eqb t c then 1 else 0)%nat)
             by (intros c; now rewrite andb_diag).
           rewrite class_total_one; [lia | exact Hnd | apply Hin; now left].
        -- rewrite class_total_zero; [lia |].
           intros c _. destruct (Nat.eqb_spec t c) as [<- |]; [| reflexivity].
           apply Nat.eqb_neq. congruence.
      * intros c. unfold tp_sum. simpl.
        destruct (Nat.eqb t c && Nat.eqb q c); simpl; lia.
Qed.

Lemma labels_cover_true (y_true y_pred : list nat) (t : nat) :
  In t y_true -> In t (unique_labels y_true y_pred).
Proof. intros Hin. apply unique_labels_In, in_or_app. now left. Qed.

Lemma support_total (y_true y_pred : list nat) :
  fold_right Nat.add 0%nat
    (map (fun cr : nat * ClassRow => support (snd cr))
         (map (fun c => (c, class_row y_true y_pred c))
              (unique_labels y_true y_pred)))
  = length y_true.
Proof.
  rewrite map_map. simpl.
  apply (@true_sum_total y_true (unique_labels y_true y_pred)).
  - apply sorted_NoDup, unique_labels_sorted.
  - intros t. apply labels_cover_true.
Qed.

(** X7.  On a non-empty evaluation set the classes of a classification
    report are listed once each, in ascending order, and their supports
    add up to the number of evaluation rows; without evaluation rows the
    report raises [ValueError]. *)
Theorem report_supports_add_up (y_true y_pred : list nat) :
  length y_true = length y_pred ->
  (y_true = [] -> classification_report y_true y_pred = Raise ValueError)
  /\ (y_true <> [] ->
      exists r,
        classification_report y_true y_pred = Ok r
        /\ StronglySorted lt (map fst (per_class r))
        /\ (forall c, In c (map fst (per_class r)) <-> In c y_true \/ In c y_pred)
        /\ fold_right Nat.add 0%nat
             (map (fun cr => support (snd cr)) (per_class r))
           = length y_true).
Proof.
  intros Hlen. split.
  { intros ->. destruct y_pred; [reflexivity | discriminate]. }
  intros Hne.
  destruct (@scores_defined y_true y_pred Hlen Hne) as (a & r & Ha & Hr).
  exists r. split; [exact Hr |].
  unfold classification_report in Hr. rewrite Ha in Hr. cbn [bind] in Hr.
  injection Hr as <-. cbn [per_class]. rewrite !map_map. simpl. rewrite map_id.
  split; [apply unique_labels_sorted |]. split.
  - intros c. rewrite unique_labels_In, in_app_iff. tauto.
  - rewrite <- (support_total y_true y_pred), map_map. reflexivity.
Qed.

Lemma report_supports_add_up_witness :
  exists r,
    classification_report [0; 1; 1; 2]%nat [0; 1; 2; 2]%nat = Ok r
    /\ fold_right Nat.add 0%nat (map (fun cr => support (snd cr)) (per_class r))
       = 4%nat.
Proof.
  assert (Hne : [0; 1; 1; 2]%nat <> []) by discriminate.
  destruct (@report_supports_add_up [0; 1; 1; 2]%nat [0; 1; 2; 2]%nat eq_refl)
    as (_ & Hrun).
  destruct (Hrun Hne) as (r & Hr & _ & _ & Hsum).
  exists r. now split.
Defined.

(** *** F1 *)

Lemma prf_divide_nonzero (numerator denominator : Q) :
  ~ denominator == 0 ->
  prf_divide numerator denominator = numerator / denominator.
Proof.
  intros Hnz. unfold prf_divide.
  destruct (Qeq_bool denominator 0) eqn:E; [| reflexivity].
  apply Qeq_bool_iff in E. contradiction.
Qed.

(** X9.  The F1 of a class lies between its precision and its recall, and
    equals twice the right predictions of the class over the sum of its
    support and its predicted count (0 when both are 0). *)
Theorem f1_between_precision_and_recall (y_true y_pred : list nat) (c : nat) :
  let row := class_row y_true y_pred c in
  Qmin (precision row) (recall row) <= f1_score row
  /\ f1_score row <= Qmax (precision row) (recall row)
  /\ f1_score row
     == prf_divide (2 * of_nat (tp_sum y_true y_pred c))
                   (of_nat (true_sum y_true c) + of_nat (pred_sum y_pred c)).
Proof.
  intros row.
  destruct (class_row_unit y_true y_pred c) as ([Hp0 Hp1] & [Hr0 Hr1] & _).
  fold row in Hp0, Hp1, Hr0, Hr1.
  set (p := precision row) in *. set (r := recall row) in *.
  assert (Hf : f1_score row = prf_divide (2 * p * r) (p + r)) by reflexivity.
  split; [| split].
  - rewrite Hf. unfold prf_divide.
    destruct (Qeq_bool (p + r) 0) eqn:E.
    + apply Qeq_bool_iff in E. apply Q.min_le_iff. left. lraQ.
    + apply Qeq_bool_neq in E. assert (Hpos : 0 < p + r) by lraQ.
      apply Qle_shift_div_l; [exact Hpos |].
      destruct (Qlt_le_dec p r) as [Hlt | Hle].
      * rewrite Q.min_l by lraQ. Lqa.nra.
      * rewrite Q.min_r by lraQ. Lqa.nra.
  - rewrite Hf. unfold prf_divide.
    destruct (Qeq_bool (p + r) 0) eqn:E.
    + apply Q.max_le_iff. left. exact Hp0.
    + apply Qeq_bool_neq in E. assert (Hpos : 0 < p + r) by lraQ.
      apply Qle_shift_div_r; [exact Hpos |].
      destruct (Qlt_le_dec p r) as [Hlt | Hle].
      * rewrite Q.max_r by lraQ. Lqa.nra.
      * rewrite Q.max_l by lraQ. Lqa.nra.
  - rewrite Hf. unfold p, r, row. simpl.
    set (tp := of_nat (tp_sum y_true y_pred c)).
    set (P := of_nat (pred_sum y_pred c)).
    set (T := of_nat (true_sum y_true c)).
    assert (HtpP : tp <= P) by apply of_nat_le, tp_le_pred.
    assert (HtpT : tp <= T) by apply of_nat_le, tp_le_true.
    assert (Htp0 : 0 <= tp) by apply of_nat_nonneg.
    destruct (Qeq_dec tp 0) as [Hz | Hnz].
    + (* no right prediction of this class: everything is 0 *)
      assert (Hp : prf_divide tp P == 0).
      { unfold prf_divide. destruct (Qeq_bool P 0); [reflexivity |].
        rewrite Hz. unfold Qdiv. ring. }
      assert (Hr : prf_divide tp T == 0).
      { unfold prf_divide. destruct (Qeq_bool T 0); [reflexivity |].
        rewrite Hz. unfold Qdiv. ring. }
      assert (Hl : prf_divide (2 * prf_divide tp P * prf_divide tp T)
                     (prf_divide tp P + prf_divide tp T) == 0).
      { unfold prf_divide at 1.
        destruct (Qeq_bool (prf_divide tp P + prf_divide tp T) 0);
          [reflexivity |].
        rewrite Hp. unfold Qdiv. ring. }
      rewrite Hl. unfold prf_divide.
      destruct (Qeq_bool (T + P) 0); [reflexivity |].
      rewrite Hz. unfold Qdiv. ring.
    + assert (HP : 0 < P) by lraQ. assert (HT : 0 < T) by lraQ.
      assert (Htp : 0 < tp) by lraQ.
      assert (Hp : 0 < tp / P) by (apply Qlt_shift_div_l; lraQ).
      assert (Hr : 0 < tp / T) by (apply Qlt_shift_div_l; lraQ).
      rewrite (@prf_divide_nonzero tp P), (@prf_divide_nonzero tp T) by lraQ.
      rewrite (@prf_divide_nonzero _ (tp / P + tp / T)) by lraQ.
      rewrite (@prf_divide_nonzero _ (T + P)) by lraQ.
      field. repeat split; try lraQ. Lqa.nra.
Qed.

Example f1_of_recorded_tree_class :
  f1_score (class_row (repeat 0 14 ++ repeat 1 14 ++ repeat 2 8)%nat
                      (repeat 0 13 ++ [1] ++ repeat 1 14 ++ [0] ++ repeat 2 7)%nat
                      2)
  == 14 # 15.
Proof. vm_compute. reflexivity. Qed.



End MetricsFacts.

(* ------------------------------------------------------------------ *)
(** ** The wine notebook                                               *)
(* ------------------------------------------------------------------ *)

Module WineFacts.

Import Pandas Wine PandasFacts MetricsFacts.

Section Cells.

Variable RandomState : Type.
Variable fit : Model -> Preprocessing.Array -> list nat -> result Classifier.
Variable argsort : list Q -> list nat.

Local Abbreviation Kernel := (Kernel RandomState).
Local Abbreviation model_cell := (@model_cell RandomState fit).
Local Abbreviation scores := (@scores fit).
Local Abbreviation comparison_cell := (@comparison_cell RandomState argsort).
Local Abbreviation panel_cells := (@panel_cells RandomState fit argsort).

Lemma get_set (k : Kernel) (name name' : string) (v : Value) :
  get (set k name v) name'
  = if String.eqb name' name then Ok v else get k name'.
Proof. unfold get, set. simpl. now destruct (String.eqb name' name). Qed.

Lemma get_print (k : Kernel) (l : Line) (name : string) :
  get (print k l) name = get k name.
Proof. reflexivity. Qed.

Lemma get_bound (k : Kernel) (name : string) (v : Value) :
  globals k name = Some v -> get k name = Ok v.
Proof. unfold get. now intros ->. Qed.

Lemma get_unbound (k : Kernel) (name : string) :
  globals k name = None -> get k name = Raise NameError.
Proof. unfold get. now intros ->. Qed.

(** *** One classifier cell *)

(** The three ways in which the scores of a classifier fail, and the one
    in which they are there: once the accuracy is computed the report is
    computed as well. *)
Lemma scores_cases (m : Model) (X_train : Preprocessing.Array)
  (y_train : list nat) (X_test : Preprocessing.Array) (y_test : list nat) :
  (exists e, fit m X_train y_train = Raise e
             /\ scores m X_train y_train X_test y_test = Raise e)
  \/ (exists clf e, fit m X_train y_train = Ok clf /\ clf X_test = Raise e
                    /\ scores m X_train y_train X_test y_test = Raise e)
  \/ (exists clf y_pred e,
        fit m X_train y_train = Ok clf /\ clf X_test = Ok y_pred
        /\ Metrics.accuracy_score y_test y_pred = Raise e
        /\ scores m X_train y_train X_test y_test = Raise e)
  \/ (exists clf y_pred a r,
        fit m X_train y_train = Ok clf /\ clf X_test = Ok y_pred
        /\ Metrics.accuracy_score y_test y_pred = Ok a
        /\ Metrics.classification_report y_test y_pred = Ok r
        /\ scores m X_train y_train X_test y_test = Ok (clf, y_pred, a, r)).
Proof.
  unfold Wine.scores.
  destruct (fit m X_train y_train) as [clf | e] eqn:Hfit; cbn [bind];
    [| left; exists e; split; reflexivity].
  right.
  destruct (clf X_test) as [y_pred | e] eqn:Hpred; cbn [bind];
    [| left; exists clf, e; repeat split; trivial].
  right.
  unfold Metrics.classification_report.
  destruct (Metrics.accuracy_score y_test y_pred) as [a | e] eqn:Hacc;
    cbn [bind]; [| left; exists clf, y_pred, e; repeat split; trivial].
  right. eexists clf, y_pred, a, _.
  repeat split; trivial; rewrite Hacc; reflexivity.
Qed.

Lemma scores_of_parts (m : Model) (X_train : Preprocessing.Array)
  (y_train : list nat) (X_test : Preprocessing.Array) (y_test : list nat)
  (clf : Classifier) (y_pred : list nat) (a : pyfloat) :
  fit m X_train y_train = Ok clf -> clf X_test = Ok y_pred ->
  Metrics.accuracy_score y_test y_pred = Ok a ->
  exists r,
    Metrics.classification_report y_test y_pred = Ok r
    /\ scores m X_train y_train X_test y_test = Ok (clf, y_pred, a, r).
Proof.
  intros Hfit Hpred Hacc. unfold Wine.scores, Metrics.classification_report.
  rewrite Hfit. cbn [bind]. rewrite Hpred. cbn [bind]. rewrite Hacc.
  cbn [bind]. eexists. split; reflexivity.
Qed.

(** The names one classifier cell binds. *)
Lemma own_names_distinct (m : Model) (name : string) :
  In name ["X_train"; "y_train"; "X_test"; "y_test"; "df"; "model_comparison"]%string
  \/ (exists m', m' <> m /\ name = accuracy_name m') ->
  String.eqb name (estimator_name m) = false
  /\ String.eqb name (y_pred_name m) = false
  /\ String.eqb name (accuracy_name m) = false.
Proof.
  intros [Hin | (m' & Hne & ->)].
  - simpl in Hin.
    destruct Hin as [<- | [<- | [<- | [<- | [<- | [<- | []]]]]]];
      destruct m; now repeat split.
  - destruct m, m'; try congruence; now repeat split.
Qed.

Lemma model_cell_scored (m : Model) (k : Kernel)
  (X_train : Preprocessing.Array) (y_train : list nat)
  (X_test : Preprocessing.Array) (y_test : list nat)
  (clf : Classifier) (y_pred : list nat) (a : pyfloat) (r : Metrics.Report) :
  prepared k X_train y_train X_test y_test ->
  fit m X_train y_train = Ok clf -> clf X_test = Ok y_pred ->
  Metrics.accuracy_score y_test y_pred = Ok a ->
  Metrics.classification_report y_test y_pred = Ok r ->
  cell (model_cell m) k
  = (print (print
       (set (set (set (set k
          (estimator_name m) (VEstimator None))
          (estimator_name m) (VEstimator (Some clf)))
          (y_pred_name m) (VLabels y_pred))
          (accuracy_name m) (VFloat a))
       (AccuracyLine (printed_name m) a))
       (ReportLine r), None).
Proof.
  intros ([vX [HX HXa]] & [vy [Hy Hya]] & [vX' [HX' HXa']] & [vy' [Hy' Hya']])
    Hfit Hpred Hacc Hrep.
  unfold Wine.model_cell, cell.
  destruct m; simpl estimator_name; simpl y_pred_name; simpl accuracy_name;
    simpl printed_name.
  all: repeat (rewrite ?get_print, ?get_set; simpl String.eqb; cbv iota;
               rewrite ?(get_bound _ _ HX), ?(get_bound _ _ Hy),
                 ?(get_bound _ _ HX'), ?(get_bound _ _ Hy');
               cbn [bind];
               rewrite ?HXa, ?Hya, ?HXa', ?Hya', ?Hfit, ?Hpred, ?Hacc, ?Hrep;
               cbn [bind as_labels as_float]).
  all: reflexivity.
Qed.

(** A cell whose fit, prediction or accuracy raises stops there: it has
    bound its estimator, at most its predictions besides, and printed
    nothing. *)
Lemma model_cell_raised (m : Model) (k : Kernel)
  (X_train : Preprocessing.Array) (y_train : list nat)
  (X_test : Preprocessing.Array) (y_test : list nat) (e : exn) :
  prepared k X_train y_train X_test y_test ->
  scores m X_train y_train X_test y_test = Raise e ->
  exists k',
    cell (model_cell m) k = (k', Some e)
    /\ stdout k' = stdout k
    /\ forall name,
         String.eqb name (estimator_name m) = false ->
         String.eqb name (y_pred_name m) = false ->
         globals k' name = globals k name.
Proof.
  intros ([vX [HX HXa]] & [vy [Hy Hya]] & [vX' [HX' HXa']] & [vy' [Hy' Hya']])
    Hscores.
  destruct (scores_cases m X_train y_train X_test y_test)
    as [(e' & Hfit & Hs) | [(clf & e' & Hfit & Hpred & Hs)
       | [(clf & y_pred & e' & Hfit & Hpred & Hacc & Hs)
       | (clf & y_pred & a & r & _ & _ & _ & _ & Hs)]]];
    rewrite Hs in Hscores; try discriminate; injection Hscores as ->.
  all: destruct m.
  all: eexists; split;
    [ unfold Wine.model_cell, cell;
      simpl estimator_name; simpl y_pred_name; simpl accuracy_name;
      simpl printed_name;
      repeat (rewrite ?get_print, ?get_set; simpl String.eqb; cbv iota;
              rewrite ?(get_bound _ _ HX), ?(get_bound _ _ Hy),
                ?(get_bound _ _ HX'), ?(get_bound _ _ Hy');
              cbn [bind];
              rewrite ?HXa, ?Hya, ?HXa', ?Hya', ?Hfit, ?Hpred, ?Hacc;
              cbn [bind as_labels as_float]);
      reflexivity
    | split; [reflexivity |];
      intros name H1 H2; simpl estimator_name in H1; simpl y_pred_name in H2;
      unfold set; cbn [globals]; rewrite ?H1, ?H2; reflexivity ].
Qed.

(** What one classifier cell leaves behind: the split is untouched, so is
    the comparison and every other classifier's accuracy; its own accuracy
    is bound when fit, prediction and accuracy succeed, and left alone when
    one of them raises. *)
Lemma model_cell_effect (m : Model) (k : Kernel)
  (X_train : Preprocessing.Array) (y_train : list nat)
  (X_test : Preprocessing.Array) (y_test : list nat) :
  prepared k X_train y_train X_test y_test ->
  exists k' e,
    cell (model_cell m) k = (k', e)
    /\ prepared k' X_train y_train X_test y_test
    /\ globals k' "model_comparison" = globals k "model_comparison"
    /\ globals k' "df" = globals k "df"
    /\ (forall m', m' <> m ->
          globals k' (accuracy_name m') = globals k (accuracy_name m'))
    /\ match scores m X_train y_train X_test y_test with
       | Ok (_, _, a, r) =>
           e = None
           /\ globals k' (accuracy_name m) = Some (VFloat a)
           /\ stdout k' = stdout k ++ [AccuracyLine (printed_name m) a; ReportLine r]
       | Raise err =>
           e = Some err
           /\ globals k' (accuracy_name m) = globals k (accuracy_name m)
           /\ stdout k' = stdout k
       end.
Proof.
  intros Hprep.
  assert (Hkept : forall k' : Kernel,
             (forall name,
                In name ["X_train"; "y_train"; "X_test"; "y_test"; "df";
                         "model_comparison"]%string
                \/ (exists m', m' <> m /\ name = accuracy_name m') ->
                globals k' name = globals k name) ->
             prepared k' X_train y_train X_test y_test
             /\ globals k' "model_comparison" = globals k "model_comparison"
             /\ globals k' "df" = globals k "df"
             /\ (forall m', m' <> m ->
                   globals k' (accuracy_name m') = globals k (accuracy_name m'))).
  { intros k' H. unfold prepared.
    rewrite !H by (left; simpl; tauto).
    split; [exact Hprep |]. split; [reflexivity |]. split; [reflexivity |].
    intros m' Hm'. apply H. right. now exists m'. }
  destruct (scores_cases m X_train y_train X_test y_test)
    as [(e & _ & Hs) | [(clf & e & _ & _ & Hs)
       | [(clf & y_pred & e & _ & _ & _ & Hs)
       | (clf & y_pred & a & r & Hfit & Hpred & Hacc & Hrep & Hs)]]].
  1-3: destruct (@model_cell_raised m k _ _ _ _ e Hprep Hs) as (k' & Hcell & Hout & Hnames);
    exists k', (Some e); split; [exact Hcell |];
    assert (Hall : forall name,
               In name ["X_train"; "y_train"; "X_test"; "y_test"; "df";
                        "model_comparison"]%string
               \/ (exists m', m' <> m /\ name = accuracy_name m') ->
               globals k' name = globals k name)
      by (intros name Hname;
          destruct (@own_names_distinct m name Hname) as (H1 & H2 & _);
          now apply Hnames);
    destruct (Hkept k' Hall) as (H1 & H2 & H3 & H4);
    rewrite Hs;
    (split; [exact H1 |]); (split; [exact H2 |]); (split; [exact H3 |]);
    (split; [exact H4 |]); (split; [reflexivity |]);
    (split; [apply Hnames; destruct m; reflexivity | exact Hout]).
  rewrite (@model_cell_scored m k _ _ _ _ clf y_pred a r Hprep Hfit Hpred Hacc Hrep), Hs.
  eexists. eexists. split; [reflexivity |].
  match goal with
  | |- prepared ?k' _ _ _ _ /\ _ =>
      assert (Hall : forall name,
                 In name ["X_train"; "y_train"; "X_test"; "y_test"; "df";
                          "model_comparison"]%string
                 \/ (exists m', m' <> m /\ name = accuracy_name m') ->
                 globals k' name = globals k name)
  end.
  { intros name Hname.
    destruct (@own_names_distinct m name Hname) as (H1 & H2 & H3).
    unfold print, set. cbn [globals]. now rewrite H1, H2, H3. }
  destruct (Hkept _ Hall) as (H1 & H2 & H3 & H4).
  split; [exact H1 |]. split; [exact H2 |]. split; [exact H3 |].
  split; [exact H4 |]. split; [reflexivity |]. split.
  - unfold print, set. cbn [globals]. now rewrite String.eqb_refl.
  - unfold print, set. cbn [stdout]. now rewrite <- app_assoc.
Qed.

(** *** The five classifier cells in a row *)

Lemma model_eq_dec (m m' : Model) : {m = m'} + {m <> m'}.
Proof. decide equality. Qed.

Lemma panel_run_each (models : list Model) (k : Kernel)
  (X_train : Preprocessing.Array) (y_train : list nat)
  (X_test : Preprocessing.Array) (y_test : list nat) :
  prepared k X_train y_train X_test y_test ->
  exists k' errors,
    Notebook.run_each (map (fun m => cell (model_cell m)) models) k = (k', errors)
    /\ prepared k' X_train y_train X_test y_test
    /\ globals k' "model_comparison" = globals k "model_comparison"
    /\ globals k' "df" = globals k "df"
    /\ (forall m, In m models -> is_ok (scores m X_train y_train X_test y_test) = true ->
          exists a, globals k' (accuracy_name m) = Some (VFloat a))
    /\ (forall m, ~ In m models \/ is_ok (scores m X_train y_train X_test y_test) = false ->
          globals k' (accuracy_name m) = globals k (accuracy_name m))
    /\ errors = flat_map (fun m => match scores m X_train y_train X_test y_test with
                                    | Ok _ => []
                                    | Raise err => [err]
                                    end) models.
Proof.
  revert k. induction models as [| m0 models IH]; intros k Hprep.
  - exists k, []. split; [reflexivity |]. split; [exact Hprep |].
    simpl. repeat split; trivial; intros; try reflexivity;
      match goal with H : False |- _ => destruct H end.
  - destruct (@model_cell_effect m0 k _ _ _ _ Hprep)
      as (k1 & e & Hcell & Hprep1 & Hmc1 & Hdf1 & Hothers & Hown).
    destruct (IH k1 Hprep1)
      as (k' & errors & Hrun & Hprep' & Hmc' & Hdf' & Hbound & Hkept & Hclean).
    exists k', (match e with Some err => err :: errors | None => errors end).
    split.
    { rewrite map_cons.
      rewrite (NotebookFacts.run_each_cons (cell (model_cell m0))), Hcell.
      destruct e; now rewrite Hrun. }
    split; [exact Hprep' |]. split; [congruence |]. split; [congruence |].
    split; [| split].
    + intros m Hin Hok. destruct (in_dec model_eq_dec m models) as [Hin' | Hout].
      * now apply Hbound.
      * destruct Hin as [<- | Hin]; [| contradiction].
        rewrite (Hkept m0 (or_introl Hout)).
        destruct (scores m0 X_train y_train X_test y_test)
          as [[[[c0 y0] acc] r0] | err0]; [| discriminate].
        destruct Hown as (_ & Hacc & _). now exists acc.
    + intros m Hm. rewrite Hkept.
      * destruct (model_eq_dec m m0) as [-> | Hne]; [| now apply Hothers].
        destruct Hm as [Hout | Hfail]; [exfalso; apply Hout; now left |].
        destruct (scores m0 X_train y_train X_test y_test); [discriminate | apply Hown].
      * destruct Hm as [Hout | Hfail]; [left | now right].
        intros Hin. apply Hout. now right.
    + simpl. rewrite <- Hclean.
      destruct (scores m0 X_train y_train X_test y_test)
        as [[[[c0 y0] acc] r0] | err0]; destruct Hown as [-> _]; reflexivity.
Qed.

Lemma panel_run (models : list Model) (k : Kernel)
  (X_train : Preprocessing.Array) (y_train : list nat)
  (X_test : Preprocessing.Array) (y_test : list nat) :
  prepared k X_train y_train X_test y_test ->
  exists k' e,
    Notebook.run (map (fun m => cell (model_cell m)) models) k = (k', e)
    /\ globals k' "model_comparison" = globals k "model_comparison"
    /\ globals k' "df" = globals k "df"
    /\ (forall m, ~ In m models ->
          globals k' (accuracy_name m) = globals k (accuracy_name m))
    /\ ((forall m, In m models -> is_ok (scores m X_train y_train X_test y_test) = true) ->
          e = None
          /\ forall m, In m models ->
               exists a, globals k' (accuracy_name m) = Some (VFloat a))
    /\ (forall m, In m models -> is_ok (scores m X_train y_train X_test y_test) = false ->
          exists m' err, In m' models /\ scores m' X_train y_train X_test y_test = Raise err
                         /\ e = Some err).
Proof.
  revert k. induction models as [| m0 models IH]; intros k Hprep.
  - exists k, None. split; [reflexivity |].
    simpl. repeat split; trivial; intros; try reflexivity;
      match goal with H : False |- _ => destruct H end.
  - destruct (@model_cell_effect m0 k _ _ _ _ Hprep)
      as (k2 & e0 & Hcell & Hprep2 & Hmc2 & Hdf2 & Hothers & Hown).
    rewrite map_cons, (NotebookFacts.run_cons (cell (model_cell m0))), Hcell.
    destruct (scores m0 X_train y_train X_test y_test)
      as [[[[c0 y0] acc] r0] | err] eqn:Hfit.
    + destruct Hown as (-> & Hacc & _).
      destruct (IH k2 Hprep2) as (k' & e & Hrun & Hmc' & Hdf' & Hout & Hall & Hsome).
      exists k', e. split; [exact Hrun |].
      split; [congruence |]. split; [congruence |]. split; [| split].
      * intros m Hm. rewrite Hout by (intros Hin; apply Hm; now right).
        apply Hothers. intros ->. apply Hm. now left.
      * intros Hok.
        destruct Hall as [-> Hbound]; [intros m Hm; apply Hok; now right |].
        split; [reflexivity |]. intros m Hm.
        destruct (in_dec model_eq_dec m models) as [Hin | Hnotin];
          [now apply Hbound |].
        destruct Hm as [<- | Hm]; [| contradiction].
        exists acc. now rewrite Hout.
      * intros m [<- | Hm] Hfail; [rewrite Hfit in Hfail; discriminate |].
        destruct (Hsome m Hm Hfail) as (m' & err & Hin & Hraise & ->).
        exists m', err. repeat split; trivial. now right.
    + destruct Hown as [-> _]. exists k2, (Some err).
      split; [reflexivity |]. split; [exact Hmc2 |]. split; [exact Hdf2 |].
      split; [| split].
      * intros m Hm. apply Hothers. intros ->. apply Hm. now left.
      * intros Hok. specialize (Hok m0 (or_introl eq_refl)).
        rewrite Hfit in Hok. discriminate.
      * intros m _ _. exists m0, err. repeat split; trivial. now left.
Qed.

(** *** What the cells leave alone *)

Lemma cell_leaves (name : string) (stmts : list (Stmt RandomState)) :
  Forall (leaves name) stmts ->
  forall k, globals (fst (cell stmts k)) name = globals k name.
Proof.
  induction 1 as [| stmt stmts Hstmt _ IH]; intros k; simpl; [reflexivity |].
  destruct (stmt k) as [k' | e] eqn:E; [| reflexivity].
  rewrite IH. now apply Hstmt.
Qed.

Lemma run_leaves (name : string) (cells : list (Notebook.Cell Kernel)) :
  Forall (fun c => forall k, globals (fst (c k)) name = globals k name) cells ->
  forall k,
    globals (fst (Notebook.run cells k)) name = globals k name
    /\ globals (fst (Notebook.run_each cells k)) name = globals k name.
Proof.
  induction 1 as [| c cells Hc _ IH]; intros k; simpl; [now split |].
  specialize (Hc k). destruct (c k) as [k' [e |]]; simpl in *.
  - split; [exact Hc |]. destruct (IH k') as [_ Heach].
    destruct (Notebook.run_each cells k'). simpl in *. congruence.
  - destruct (IH k') as [Hrun Heach]. split; congruence.
Qed.

(** Peels the binds of a statement that ended well, then looks the name up
    in the kernel reached. *)
Ltac frame_stmt :=
  let k := fresh "k" in
  let k' := fresh "k'" in
  let H := fresh "H" in
  intros k k' H; cbv beta in H;
  repeat match type of H with
         | bind ?m _ = Ok _ =>
             let E := fresh "E" in
             destruct m eqn:E; simpl bind in H; [| discriminate H]
         | (if ?b then _ else _) = Ok _ => destruct b; [| discriminate H]
         | (let (_, _) := ?p in _) = Ok _ => destruct p
         end;
  injection H as <-; reflexivity.

Variable seeded : Z -> RandomState.
Variable permutation : RandomState -> nat -> list nat * RandomState.

Lemma split_cell_leaves_df :
  Forall (leaves "df") (split_cell seeded permutation).
Proof. repeat constructor; frame_stmt. Qed.

Lemma scale_cell_leaves_df : Forall (leaves "df") (@scale_cell RandomState).
Proof. repeat constructor; frame_stmt. Qed.

Lemma model_cell_leaves_df (m : Model) : Forall (leaves "df") (model_cell m).
Proof. destruct m; repeat constructor; frame_stmt. Qed.

Lemma comparison_cell_leaves_df : Forall (leaves "df") comparison_cell.
Proof. repeat constructor; frame_stmt. Qed.

(** No cell after the loading cell touches [df]. *)
Lemma pipeline_leaves_df (k : Kernel) :
  globals (fst (Notebook.run (pipeline seeded permutation fit argsort) k)) "df"
  = globals k "df"
  /\ globals (fst (Notebook.run_each (pipeline seeded permutation fit argsort) k)) "df"
     = globals k "df".
Proof.
  apply run_leaves. unfold pipeline, panel. cbn [app map].
  repeat apply Forall_cons; try apply Forall_nil; intros k0; apply cell_leaves;
    auto using split_cell_leaves_df, scale_cell_leaves_df,
      model_cell_leaves_df, comparison_cell_leaves_df.
Qed.

(** *** The loading cell *)

Lemma load_cell_run (k : Kernel) (data : Preprocessing.Array)
  (target : list nat) :
  cell (@load_cell RandomState data target) k
  = if forallb (Preprocessing.has_width (length feature_names)) data
    then if Nat.eqb (length target) (length data)
         then let df := range_index (combine data target) in
              (print (set (set k "df" (VFeatures (range_index data)))
                          "df" (VFrame df))
                     (HeadLine (firstn 5 df)), None)
         else (set k "df" (VFeatures (range_index data)), Some ValueError)
    else (k, Some ValueError).
Proof.
  unfold load_cell, cell.
  destruct (forallb _ data); [| reflexivity].
  rewrite get_set, String.eqb_refl. simpl bind.
  assert (Hlen : length (range_index data) = length data).
  { unfold range_index. rewrite length_combine, length_seq. lia. }
  rewrite Hlen.
  destruct (Nat.eqb_spec (length target) (length data)) as [Heq |];
    [| reflexivity].
  pose proof (ListFacts.range_zip data target 0 Heq) as Hzip.
  change (combine (seq 0 (length data)) data) with (range_index data) in Hzip.
  change (combine (seq 0 (length (combine data target))) (combine data target))
    with (range_index (combine data target)) in Hzip.
  rewrite get_set, String.eqb_refl.
  cbv beta iota delta [bind as_frame]. rewrite Hzip. reflexivity.
Qed.


(** *** The scaling cell *)

(** The bound below which scikit-learn takes a variance for rounding
    error: [n * eps * var + (n * mean * eps)^2] with [eps] = 2^-52. *)
Local Abbreviation rounding_bound xs :=
  (INR (length xs) * / 4503599627370496 * Preprocessing.var xs
   + (INR (length xs) * Preprocessing.mean xs * / 4503599627370496)
     * (INR (length xs) * Preprocessing.mean xs * / 4503599627370496))%R.


(** The scaling cell on an evaluation array without rows. *)
Lemma scale_cell_without_evaluation_rows (k : Kernel)
  (X_train : Preprocessing.Array) (scaler : Preprocessing.StandardScaler)
  (X_train' : Preprocessing.Array) :
  globals k "X_train" = Some (VArray X_train) ->
  globals k "X_test" = Some (VArray []) ->
  Preprocessing.fit_transform X_train = Ok (scaler, X_train') ->
  snd (cell (@scale_cell RandomState) k) = Some ValueError.
Proof.
  intros HX HX' Hft. unfold scale_cell, cell.
  repeat (cbv beta iota;
          rewrite ?get_set; simpl String.eqb; cbv iota;
          rewrite ?(get_bound _ _ HX), ?(get_bound _ _ HX');
          cbn [bind as_array]; rewrite ?Hft; cbn [bind fst snd]).
  reflexivity.
Qed.

(** *** The comparison cell *)

Lemma all_in_panel (m : Model) : In m panel.
Proof. destruct m; simpl; tauto. Qed.

Lemma accuracies_bound (k : Kernel) (a : Model -> pyfloat) (models : list Model) :
  (forall m, In m models -> globals k (accuracy_name m) = Some (VFloat (a m))) ->
  accuracies k models = Ok (map a models).
Proof.
  induction models as [| m models IH]; intros Hb; simpl; [reflexivity |].
  rewrite (get_bound _ _ (Hb m (or_introl eq_refl))). simpl.
  rewrite IH by (intros m' Hm'; apply Hb; now right). reflexivity.
Qed.

Lemma accuracies_unbound (k : Kernel) (models : list Model) :
  (forall m, In m models ->
     globals k (accuracy_name m) = None
     \/ exists a, globals k (accuracy_name m) = Some (VFloat a)) ->
  (exists m, In m models /\ globals k (accuracy_name m) = None) ->
  accuracies k models = Raise NameError.
Proof.
  induction models as [| m models IH]; intros Hall [m0 [Hin Hnone]];
    [destruct Hin |]. simpl.
  destruct (Hall m (or_introl eq_refl)) as [Hm | [a Hm]].
  - now rewrite (get_unbound _ _ Hm).
  - rewrite (get_bound _ _ Hm). simpl. rewrite IH; [reflexivity | |].
    + intros m' Hm'. apply Hall. now right.
    + destruct Hin as [-> | Hin]; [congruence |]. now exists m0.
Qed.

Lemma comparison_cell_unbound (k : Kernel) :
  (forall m, globals k (accuracy_name m) = None
             \/ exists a, globals k (accuracy_name m) = Some (VFloat a)) ->
  (exists m, globals k (accuracy_name m) = None) ->
  cell comparison_cell k = (k, Some NameError).
Proof.
  intros Hall [m Hm]. unfold comparison_cell, cell.
  rewrite accuracies_unbound; [reflexivity | |].
  - intros m' _. apply Hall.
  - exists m. split; [apply all_in_panel | exact Hm].
Qed.

Hypothesis argsort_spec : sorts argsort.

Lemma comparison_cell_built (k : Kernel) (a : Model -> pyfloat) :
  (forall m, globals k (accuracy_name m) = Some (VFloat (a m))) ->
  let frame := range_index (map (fun m => (printed_name m, a m)) panel) in
  exists rows,
    sort_values argsort frame snd false = Ok rows
    /\ cell comparison_cell k
       = (print (set (set k "model_comparison" (VComparison frame))
                     "model_comparison" (VComparison rows))
                (ComparisonLine rows), None)
    /\ Permutation rows frame
    /\ StronglySorted descending (map (fun r => (fst r, snd (snd r))) rows).
Proof.
  intros Hb frame.
  destruct (@sort_values_descending argsort argsort_spec _
              (map (fun m => (printed_name m, a m)) panel) snd)
    as (rows & Hsort & Hperm & Hsorted).
  fold frame in Hsort, Hperm.
  exists rows. repeat split; trivial.
  unfold Wine.comparison_cell, cell.
  rewrite (accuracies_bound k a panel) by (intros m _; apply Hb).
  cbn [bind]. change (range_index _) with frame.
  repeat (cbv beta iota;
          rewrite ?get_print, ?get_set, ?String.eqb_refl;
          cbn [bind as_comparison]; rewrite ?Hsort).
  reflexivity.
Qed.

Lemma report_after_comparison (k : Kernel)
  (frame rows : Indexed (string * pyfloat)) :
  report (print (set (set k "model_comparison" (VComparison frame))
                     "model_comparison" (VComparison rows))
                (ComparisonLine rows))
  = Some rows.
Proof. reflexivity. Qed.

Lemma report_kept (k k' : Kernel) :
  globals k' "model_comparison" = globals k "model_comparison" ->
  report k' = report k.
Proof. unfold report. now intros ->. Qed.

Lemma every_accuracy (k : Kernel) :
  (forall m, exists a, globals k (accuracy_name m) = Some (VFloat a)) ->
  exists f : Model -> pyfloat,
    forall m, globals k (accuracy_name m) = Some (VFloat (f m)).
Proof.
  intros Hbound.
  destruct (Hbound log_reg) as [a1 H1]. destruct (Hbound dtree) as [a2 H2].
  destruct (Hbound rf) as [a3 H3]. destruct (Hbound svm) as [a4 H4].
  destruct (Hbound knn) as [a5 H5].
  exists (fun m => match m with
                   | log_reg => a1 | dtree => a2 | rf => a3
                   | svm => a4 | knn => a5
                   end).
  intros []; assumption.
Qed.

Lemma report_names (a : Model -> pyfloat) (rows : Indexed (string * pyfloat)) :
  Permutation rows (range_index (map (fun m => (printed_name m, a m)) panel)) ->
  Permutation (map (fun r => fst (snd r)) rows) (map printed_name panel)
  /\ forall m, In (printed_name m, a m) (map snd rows).
Proof.
  intros Hperm. split.
  - apply (Permutation_map (fun r : nat * (string * pyfloat) => fst (snd r)))
      in Hperm.
    eapply Permutation_trans; [exact Hperm |].
    unfold range_index. rewrite <- map_map, ListFacts.map_snd_combine_range'.
    now rewrite map_map.
  - intros m.
    apply (Permutation_map (@snd nat (string * pyfloat))) in Hperm.
    eapply Permutation_in; [apply Permutation_sym, Hperm |].
    unfold range_index. rewrite ListFacts.map_snd_combine_range'.
    apply in_map_iff. exists m. split; [reflexivity | apply all_in_panel].
Qed.

(** C2, as the code has it.  Whatever the five accuracies are, the
    comparison cell builds the Report from the rows (name, accuracy) of the
    panel, each once, sorted by accuracy in descending order, and a row
    without a value would come last.  This holds for every sorting routine
    that returns the positions in ascending order of the values; nothing
    is said about the order of rows of equal accuracy. *)
Theorem report_sorted_descending (k : Kernel) (a : Model -> pyfloat) :
  (forall m, globals k (accuracy_name m) = Some (VFloat (a m))) ->
  exists k' rows,
    cell comparison_cell k = (k', None)
    /\ report k' = Some rows
    /\ stdout k' = stdout k ++ [ComparisonLine rows]
    /\ Permutation rows
         (range_index (map (fun m => (printed_name m, a m)) panel))
    /\ StronglySorted descending (map (fun r => (fst r, snd (snd r))) rows).
Proof.
  intros Hb.
  destruct (comparison_cell_built k a Hb) as (rows & _ & Hcell & Hperm & Hsorted).
  eexists. exists rows. split; [exact Hcell |].
  split; [apply report_after_comparison |].
  split; [reflexivity |]. split; [exact Hperm | exact Hsorted].
Qed.


(** C5, as the code has it.  Nothing catches what a classifier cell
    raises.  When all five classifiers fit, predict and score, the Report
    is built and lists all five procedures.  When one of them raises, its
    cell stops there and leaves its accuracy variable as it was; "Run All"
    stops at the first such cell and never reaches the comparison.  Run by
    hand, the other cells still run; the comparison cell then raises
    [NameError] when the accuracy variable of a failed procedure is
    unbound (always so in a fresh kernel), and otherwise builds a Report
    that lists the failed procedure with the accuracy left from an earlier
    run. *)
Theorem failed_procedure_is_not_caught (k : Kernel)
  (X_train : Preprocessing.Array) (y_train : list nat)
  (X_test : Preprocessing.Array) (y_test : list nat) :
  prepared k X_train y_train X_test y_test ->
  (forall m, globals k (accuracy_name m) = None
             \/ exists a, globals k (accuracy_name m) = Some (VFloat a)) ->
  let outcome m := scores m X_train y_train X_test y_test in
  let raised := flat_map (fun m => match outcome m with
                                   | Ok _ => []
                                   | Raise err => [err]
                                   end) panel in
  exists k_all e k_each errors,
    Notebook.run panel_cells k = (k_all, e)
    /\ Notebook.run_each panel_cells k = (k_each, errors)
    /\ ((forall m, is_ok (outcome m) = true) ->
          e = None /\ errors = []
          /\ exists rows,
               report k_all = Some rows /\ report k_each = Some rows
               /\ Permutation (map (fun r => fst (snd r)) rows)
                              (map printed_name panel))
    /\ (forall m, is_ok (outcome m) = false ->
          (exists m' err, outcome m' = Raise err /\ e = Some err)
          /\ report k_all = report k
          /\ globals k_each (accuracy_name m) = globals k (accuracy_name m)
          /\ (globals k (accuracy_name m) = None ->
                errors = raised ++ [NameError] /\ report k_each = report k))
    /\ ((exists m, is_ok (outcome m) = false) ->
        (forall m, is_ok (outcome m) = false ->
           exists a, globals k (accuracy_name m) = Some (VFloat a)) ->
          errors = raised
          /\ exists rows,
               report k_each = Some rows
               /\ Permutation (map (fun r => fst (snd r)) rows)
                              (map printed_name panel)
               /\ forall m a, is_ok (outcome m) = false ->
                    globals k (accuracy_name m) = Some (VFloat a) ->
                    In (printed_name m, a) (map snd rows)).
Proof.
  intros Hprep Hsane outcome raised.
  destruct (@panel_run panel k _ _ _ _ Hprep)
    as (ka & ea & Hruna & Hmca & _ & _ & Halla & Hsomea).
  destruct (@panel_run_each panel k _ _ _ _ Hprep)
    as (ke & errs & Hrune & _ & Hmce & _ & Hbounde & Hkepte & Herrs).
  fold outcome in Halla, Hsomea, Hbounde, Hkepte, Herrs.
  fold raised in Herrs.
  assert (Hdec : (forall m, is_ok (outcome m) = true)
                 \/ exists m, is_ok (outcome m) = false).
  { destruct (is_ok (outcome log_reg)) eqn:E1; [| right; now exists log_reg].
    destruct (is_ok (outcome dtree)) eqn:E2; [| right; now exists dtree].
    destruct (is_ok (outcome rf)) eqn:E3; [| right; now exists rf].
    destruct (is_ok (outcome svm)) eqn:E4; [| right; now exists svm].
    destruct (is_ok (outcome knn)) eqn:E5; [| right; now exists knn].
    left. intros []; assumption. }
  unfold Wine.panel_cells.
  rewrite (NotebookFacts.run_app (map (fun m => cell (model_cell m)) panel)),
    (NotebookFacts.run_each_app (map (fun m => cell (model_cell m)) panel)),
    Hruna, Hrune.
  destruct Hdec as [Hok | [m0 Hfail]].
  - destruct Halla as [-> Hbound]; [intros m _; apply Hok |].
    destruct (every_accuracy ka (fun m => Hbound m (all_in_panel m))) as [f Hf].
    destruct (comparison_cell_built ka f Hf) as (rows & _ & Hcell & Hperm & _).
    assert (Heach : ke = ka /\ errs = []).
    { apply NotebookFacts.run_clean in Hruna. rewrite Hruna in Hrune.
      injection Hrune as <- <-. now split. }
    destruct Heach as [-> ->].
    rewrite (NotebookFacts.run_cons (cell comparison_cell)),
      (NotebookFacts.run_each_cons (cell comparison_cell)), Hcell. simpl.
    eexists. eexists. eexists. eexists.
    split; [reflexivity |]. split; [reflexivity |]. split; [| split].
    + intros _. split; [reflexivity |]. split; [reflexivity |].
      exists rows. split; [apply report_after_comparison |].
      split; [apply report_after_comparison |].
      apply (@report_names f rows Hperm).
    + intros m Hm. rewrite Hok in Hm. discriminate.
    + intros [m Hm]. rewrite Hok in Hm. discriminate.
  - destruct (Hsomea m0 (all_in_panel _) Hfail) as (m' & err & _ & Hraise & ->).
    assert (Hstate : forall m,
               globals ke (accuracy_name m) = None
               \/ exists a, globals ke (accuracy_name m) = Some (VFloat a)).
    { intros m. destruct (is_ok (outcome m)) eqn:E.
      - right. now apply Hbounde; [apply all_in_panel |].
      - rewrite Hkepte by now right. apply Hsane. }
    assert (Hcmp : (exists m, is_ok (outcome m) = false
                              /\ globals k (accuracy_name m) = None) ->
                   cell comparison_cell ke = (ke, Some NameError)).
    { intros (m & Hm & Hnone). apply comparison_cell_unbound; [exact Hstate |].
      exists m. rewrite Hkepte by now right. exact Hnone. }
    assert (Hstale : (forall m, is_ok (outcome m) = false ->
                        exists a, globals k (accuracy_name m) = Some (VFloat a)) ->
                     exists f rows,
                       (forall m, globals ke (accuracy_name m) = Some (VFloat (f m)))
                       /\ cell comparison_cell ke
                          = (print (set (set ke "model_comparison"
                                       (VComparison
                                          (range_index
                                             (map (fun m => (printed_name m, f m))
                                                  panel))))
                                     "model_comparison" (VComparison rows))
                                   (ComparisonLine rows), None)
                       /\ Permutation rows
                            (range_index
                               (map (fun m => (printed_name m, f m)) panel))).
    { intros Hall.
      destruct (every_accuracy ke) as [f Hf].
      { intros m. destruct (is_ok (outcome m)) eqn:E.
        - now apply Hbounde; [apply all_in_panel |].
        - rewrite Hkepte by now right. now apply Hall. }
      destruct (comparison_cell_built ke f Hf) as (rows & _ & Hcell & Hperm & _).
      now exists f, rows. }
    assert (Hsome_none : (exists m, is_ok (outcome m) = false
                                    /\ globals k (accuracy_name m) = None)
                         \/ (forall m, is_ok (outcome m) = false ->
                               exists a, globals k (accuracy_name m)
                                         = Some (VFloat a))).
    { assert (Hone : forall m,
                 (is_ok (outcome m) = false /\ globals k (accuracy_name m) = None)
                 \/ (is_ok (outcome m) = false ->
                       exists a, globals k (accuracy_name m) = Some (VFloat a))).
      { intros m. destruct (is_ok (outcome m)); [right; discriminate |].
        destruct (Hsane m) as [Hn | Hb]; [left; now split | right; now intros _]. }
      destruct (Hone log_reg) as [H1 | H1]; [left; now exists log_reg |].
      destruct (Hone dtree) as [H2 | H2]; [left; now exists dtree |].
      destruct (Hone rf) as [H3 | H3]; [left; now exists rf |].
      destruct (Hone svm) as [H4 | H4]; [left; now exists svm |].
      destruct (Hone knn) as [H5 | H5]; [left; now exists knn |].
      right. intros []; assumption. }
    rewrite (NotebookFacts.run_each_cons (cell comparison_cell)).
    destruct Hsome_none as [Hnone | Hall].
    + rewrite (Hcmp Hnone). simpl.
      eexists. eexists. eexists. eexists.
      split; [reflexivity |]. split; [reflexivity |]. split; [| split].
      * intros Hok. rewrite Hok in Hfail. discriminate.
      * intros m Hm.
        split; [now exists m', err |].
        split; [now apply report_kept |].
        split; [apply Hkepte; now right |].
        intros _. split; [now rewrite Herrs | now apply report_kept].
      * intros _ Hall. destruct Hnone as (m & Hm & Hn).
        destruct (Hall m Hm) as [a Ha]. congruence.
    + destruct (Hstale Hall) as (f & rows & Hf & Hcell & Hperm).
      rewrite Hcell. simpl.
      eexists. eexists. eexists. eexists.
      split; [reflexivity |]. split; [reflexivity |]. split; [| split].
      * intros Hok. rewrite Hok in Hfail. discriminate.
      * intros m Hm.
        split; [now exists m', err |].
        split; [now apply report_kept |].
        split.
        { transitivity (globals ke (accuracy_name m));
            [destruct m; reflexivity | apply Hkepte; now right]. }
        intros Hn. destruct (Hall m Hm) as [a Ha]. congruence.
      * intros _ _. split; [now rewrite Herrs, app_nil_r |].
        exists rows. split; [apply report_after_comparison |].
        destruct (@report_names f rows Hperm) as [Hnames Hin].
        split; [exact Hnames |].
        intros m a Hm Ha.
        assert (Hfa : f m = a).
        { specialize (Hf m). rewrite Hkepte in Hf by now right.
          rewrite Ha in Hf. now injection Hf. }
        rewrite <- Hfa. apply Hin.
Qed.

(** *** The split cell *)

(** What NumPy promises of [rng.permutation(n)]. *)
Hypothesis permutation_spec :
  forall (rng : RandomState) (n : nat),
    Permutation (fst (permutation rng n)) (seq 0 n).

Local Abbreviation features_of :=
  (map (fun r : nat * (list R * nat) => (fst r, fst (snd r)))).
Local Abbreviation classes_of :=
  (map (fun r : nat * (list R * nat) => (fst r, snd (snd r)))).

Lemma split_cell_run (k : Kernel) (df : Frame) :
  globals k "df" = Some (VFrame df) ->
  (2 <= length df)%nat ->
  exists train test,
    cell (split_cell seeded permutation) k
    = (set (set (set (set (set (set k
         "X" (VFeatures (features_of df)))
         "y" (VSeries (classes_of df)))
         "X_train" (VFeatures (features_of train)))
         "X_test" (VFeatures (features_of test)))
         "y_train" (VSeries (classes_of train)))
         "y_test" (VSeries (classes_of test)), None)
    /\ Permutation (train ++ test) df
    /\ Z.of_nat (length test)
       = Qceiling ((1 # 5) * inject_Z (Z.of_nat (length df)))
    /\ (0 < length train)%nat.
Proof.
  intros Hdf Hn.
  assert (Hroom : (Qceiling ((1 # 5) * inject_Z (Z.of_nat (length df)))
                   < Z.of_nat (length df))%Z).
  { apply Z.ltb_lt. rewrite ModelSelectionFacts.fifth_leaves_rows.
    now apply Nat.leb_le. }
  assert (Hseed : (0 <= 42 < 2 ^ 32)%Z) by (split; [discriminate | reflexivity]).
  destruct (@ModelSelectionFacts.split_of_mapped_rows RandomState seeded
              permutation permutation_spec _ _ _ df
              (fun r => (fst r, fst (snd r))) (fun r => (fst r, snd (snd r)))
              (1 # 5) 42%Z eq_refl eq_refl
              Hseed Hroom)
    as (train & test & Hsplit & Hperm & Htest & Htrain).
  exists train, test. split; [| repeat split; trivial; lia].
  unfold split_cell, cell.
  repeat (cbv beta iota;
          rewrite ?get_set; simpl String.eqb; cbv iota;
          rewrite ?(get_bound _ _ Hdf);
          cbv beta iota delta [bind as_frame as_features as_series]).
  rewrite Hsplit. reflexivity.
Qed.

Lemma split_cell_short (k : Kernel) (df : Frame) :
  globals k "df" = Some (VFrame df) ->
  (length df < 2)%nat ->
  cell (split_cell seeded permutation) k
  = (set (set k "X" (VFeatures (features_of df)))
              "y" (VSeries (classes_of df)), Some ValueError).
Proof.
  intros Hdf Hn.
  unfold split_cell, cell.
  repeat (cbv beta iota;
          rewrite ?get_set; simpl String.eqb; cbv iota;
          rewrite ?(get_bound _ _ Hdf);
          cbv beta iota delta [bind as_frame as_features as_series]).
  destruct df as [| r [| r' df']]; [reflexivity | reflexivity |].
  simpl in Hn. lia.
Qed.

(** X2.  On a frame of two rows or more the split cell runs through: the
    rows are divided into a training and an evaluation part that together
    are the rows of the frame, each once; the evaluation part holds a fifth
    of the rows, rounded up; [X_train] and [y_train] are the features and
    the classes of the same rows in the same order, and so are [X_test] and
    [y_test].  With fewer rows it raises [ValueError] and binds none of the
    four.  Either way [df], NumPy's global generator and the output stay
    as they were. *)
Theorem split_cell_cuts_the_frame (k : Kernel) (df : Frame) :
  globals k "df" = Some (VFrame df) ->
  let out := cell (split_cell seeded permutation) k in
  let n := Z.of_nat (length df) in
  ((2 <= length df)%nat ->
     exists train test,
       snd out = None
       /\ Permutation (train ++ test) df
       /\ (n <= 5 * Z.of_nat (length test) < n + 5)%Z
       /\ globals (fst out) "X_train" = Some (VFeatures (features_of train))
       /\ globals (fst out) "y_train" = Some (VSeries (classes_of train))
       /\ globals (fst out) "X_test" = Some (VFeatures (features_of test))
       /\ globals (fst out) "y_test" = Some (VSeries (classes_of test)))
  /\ ((length df < 2)%nat ->
        snd out = Some ValueError
        /\ forall name,
             In name ["X_train"; "y_train"; "X_test"; "y_test"]%string ->
             globals (fst out) name = globals k name)
  /\ globals (fst out) "df" = Some (VFrame df)
  /\ np_random (fst out) = np_random k
  /\ stdout (fst out) = stdout k.
Proof.
  intros Hdf out n. unfold out.
  destruct (Nat.leb_spec 2 (length df)) as [Hn | Hn].
  - destruct (split_cell_run k Hdf Hn)
      as (train & test & -> & Hperm & Htest & Htrain).
    split; [| split; [intros; lia | now repeat split]].
    intros _. exists train, test.
    split; [reflexivity |]. split; [exact Hperm |].
    split; [| now repeat split].
    rewrite Htest. fold n.
    pose proof (Qle_ceiling ((1 # 5) * inject_Z n)) as Hup.
    pose proof (Qceiling_lt ((1 # 5) * inject_Z n)) as Hlow.
    set (t := Qceiling ((1 # 5) * inject_Z n)) in *.
    unfold Qle, Qlt, Qmult, inject_Z in Hup, Hlow. cbn [Qnum Qden] in Hup, Hlow.
    lia.
  - rewrite (split_cell_short k Hdf Hn).
    split; [intros; lia |]. split; [| now repeat split].
    intros _. split; [reflexivity |].
    intros name Hin. simpl in Hin.
    destruct Hin as [<- | [<- | [<- | [<- | []]]]]; reflexivity.
Qed.

(** *** Cells run before their inputs exist *)

(** X5.  A cell run before the cell that binds its input raises
    [NameError] and prints nothing: the split cell without [df] and the
    comparison cell without the first accuracy leave the kernel as it
    was; the scaling cell and a classifier cell without [X_train] have
    by then bound their unfitted scaler or estimator, and nothing else. *)
Theorem cells_before_their_inputs (k : Kernel) (m : Model) :
  (globals k "df" = None ->
     cell (split_cell seeded permutation) k = (k, Some NameError))
  /\ (globals k "X_train" = None ->
        cell (@scale_cell RandomState) k
        = (set k "scaler" (VScaler None), Some NameError))
  /\ (globals k "X_train" = None ->
        cell (model_cell m) k
        = (set k (estimator_name m) (VEstimator None), Some NameError))
  /\ (globals k (accuracy_name log_reg) = None ->
        cell comparison_cell k = (k, Some NameError)).
Proof.
  split; [| split; [| split]]; intros Hnone.
  - unfold split_cell, cell. now rewrite (get_unbound _ _ Hnone).
  - unfold scale_cell, cell. rewrite get_set. simpl String.eqb. cbv iota.
    now rewrite (get_unbound _ _ Hnone).
  - unfold model_cell, cell. rewrite !get_set, String.eqb_refl.
    destruct m; simpl String.eqb; cbv iota; now rewrite (get_unbound _ _ Hnone).
  - unfold comparison_cell, cell, panel. cbn [accuracies].
    now rewrite (get_unbound _ _ Hnone).
Qed.

(** *** From the frame to the Report *)

Lemma scale_cell_run (k : Kernel) (vX vX' : Value)
  (X_train X_test : Preprocessing.Array) (d : nat) :
  globals k "X_train" = Some vX -> as_array vX = Ok X_train ->
  globals k "X_test" = Some vX' -> as_array vX' = Ok X_test ->
  X_train <> [] -> X_test <> [] -> (0 < d)%nat ->
  Preprocessing.rectangular d X_train -> Preprocessing.rectangular d X_test ->
  exists scaler,
    Preprocessing.fit X_train = Ok scaler
    /\ cell (@scale_cell RandomState) k
       = (set (set (set (set k
            "scaler" (VScaler None))
            "scaler" (VScaler (Some scaler)))
            "X_train" (VArray (map (Preprocessing.scale_row scaler) X_train)))
            "X_test" (VArray (map (Preprocessing.scale_row scaler) X_test)),
          None).
Proof.
  intros HX HXa HX' HXa' Hne Hne' Hd Htrain Htest.
  destruct (@PreprocessingFacts.fit_transform_rectangular X_train d Hne Hd Htrain)
    as (scaler & Hfit & Hm & _ & _ & Hft).
  assert (Hte : Preprocessing.transform scaler X_test
                = Ok (map (Preprocessing.scale_row scaler) X_test))
    by (apply PreprocessingFacts.transform_rectangular; trivial; now rewrite Hm).
  exists scaler. split; [exact Hfit |].
  unfold scale_cell, cell.
  repeat (cbv beta iota;
          rewrite ?get_set; simpl String.eqb; cbv iota;
          rewrite ?(get_bound _ _ HX), ?(get_bound _ _ HX');
          cbn [bind]; rewrite ?HXa, ?HXa', ?Hft, ?Hte; cbn [bind fst snd]).
  reflexivity.
Qed.

Lemma panel_cells_build_report (k : Kernel)
  (X_train : Preprocessing.Array) (y_train : list nat)
  (X_test : Preprocessing.Array) (y_test : list nat) :
  prepared k X_train y_train X_test y_test ->
  (forall m, is_ok (scores m X_train y_train X_test y_test) = true) ->
  exists k' rows,
    Notebook.run panel_cells k = (k', None)
    /\ report k' = Some rows
    /\ Permutation (map (fun r => fst (snd r)) rows) (map printed_name panel)
    /\ StronglySorted descending (map (fun r => (fst r, snd (snd r))) rows).
Proof.
  intros Hprep Hok.
  destruct (@panel_run panel k _ _ _ _ Hprep)
    as (ka & ea & Hruna & _ & _ & _ & Halla & _).
  destruct Halla as [-> Hbound]; [intros m _; apply Hok |].
  destruct (every_accuracy ka (fun m => Hbound m (all_in_panel m))) as [f Hf].
  destruct (comparison_cell_built ka f Hf) as (rows & _ & Hcell & Hperm & Hsorted).
  unfold Wine.panel_cells.
  rewrite (NotebookFacts.run_app (map (fun m => cell (model_cell m)) panel)), Hruna.
  rewrite (NotebookFacts.run_cons (cell comparison_cell)), Hcell. simpl Notebook.run.
  eexists. exists rows. split; [reflexivity |].
  split; [apply report_after_comparison |]. split; [| exact Hsorted].
  apply (@report_names f rows Hperm).
Qed.

(** The split and the scaling cell, one after the other. *)
Lemma split_and_scale_run (k : Kernel) (df : Frame) (d : nat) :
  globals k "df" = Some (VFrame df) ->
  (2 <= length df)%nat -> (0 < d)%nat ->
  Forall (fun r => length (fst (snd r)) = d) df ->
  exists k2 X_train y_train X_test y_test,
    Notebook.run [cell (split_cell seeded permutation);
                  cell (@scale_cell RandomState)] k = (k2, None)
    /\ prepared k2 X_train y_train X_test y_test
    /\ length X_train = length y_train /\ length X_test = length y_test
    /\ X_train <> [] /\ X_test <> [].
Proof.
  intros Hdf Hn Hd Hwidth.
  destruct (split_cell_run k Hdf Hn)
    as (train & test & Hsplit & Hperm & Htest & Htrain).
  set (k1 := set (set (set (set (set (set k _ _) _ _) _ _) _ _) _ _) _ _)
    in Hsplit.
  assert (Hrect : Forall (fun r : nat * (list R * nat) => length (fst (snd r)) = d)
                         (train ++ test)).
  { eapply Permutation_Forall; [apply Permutation_sym, Hperm | exact Hwidth]. }
  apply Forall_app in Hrect as [Hrtrain Hrtest].
  assert (Hvalues : forall rows : Frame,
             Forall (fun r : nat * (list R * nat) => length (fst (snd r)) = d) rows ->
             Preprocessing.rectangular d (values (features_of rows))).
  { intros rows H. unfold Preprocessing.rectangular, values.
    rewrite map_map. simpl. rewrite Forall_map.
    eapply Forall_impl; [| exact H]. trivial. }
  assert (Hne : values (features_of train) <> []).
  { destruct train; [simpl in Htrain; lia | discriminate]. }
  assert (Hne' : values (features_of test) <> []).
  { assert (Hpos : (0 < Z.of_nat (length test))%Z).
    { rewrite Htest.
      pose proof (Qle_ceiling ((1 # 5) * inject_Z (Z.of_nat (length df)))) as Hup.
      set (t := Qceiling _) in *.
      unfold Qle, Qmult, inject_Z in Hup. cbn [Qnum Qden] in Hup. lia. }
    destruct test; [simpl in Hpos; lia | discriminate]. }
  destruct (@scale_cell_run k1 (VFeatures (features_of train))
              (VFeatures (features_of test)) _ _ d eq_refl eq_refl eq_refl eq_refl
              Hne Hne' Hd (Hvalues _ Hrtrain) (Hvalues _ Hrtest))
    as (scaler & _ & Hscale).
  eexists.
  exists (map (Preprocessing.scale_row scaler) (values (features_of train))),
    (values (classes_of train)),
    (map (Preprocessing.scale_row scaler) (values (features_of test))),
    (values (classes_of test)).
  split.
  { rewrite (NotebookFacts.run_cons (cell (split_cell seeded permutation))), Hsplit.
    rewrite (NotebookFacts.run_cons (cell (@scale_cell RandomState))), Hscale.
    reflexivity. }
  split.
  { unfold prepared.
    split; [eexists; split; reflexivity |].
    split; [eexists; split; reflexivity |].
    split; [eexists; split; reflexivity |].
    eexists; split; reflexivity. }
  unfold values. rewrite !length_map.
  split; [reflexivity |]. split; [reflexivity |]. split.
  - intros H. apply Hne. unfold values. now apply map_eq_nil in H.
  - intros H. apply Hne'. unfold values. now apply map_eq_nil in H.
Qed.

(** X3.  The cells after the loading cell compose.  From a frame of two
    rows or more whose rows all have the same, non-zero number of features,
    the split and the scaling cell run to their end and leave the four
    arrays bound, with at least one training and one evaluation row.  When
    each of the five procedures then fits, predicts and scores on these
    arrays, "Run All" runs every cell to its end and leaves the Report
    bound: the five procedures, each once, in descending order of accuracy.
    Running the cells by hand gives the same state and no error, and [df]
    is as it was. *)
Theorem pipeline_builds_report (k : Kernel) (df : Frame) (d : nat) :
  globals k "df" = Some (VFrame df) ->
  (2 <= length df)%nat -> (0 < d)%nat ->
  Forall (fun r => length (fst (snd r)) = d) df ->
  exists k2 X_train y_train X_test y_test,
    Notebook.run [cell (split_cell seeded permutation);
                  cell (@scale_cell RandomState)] k = (k2, None)
    /\ prepared k2 X_train y_train X_test y_test
    /\ length X_train = length y_train /\ length X_test = length y_test
    /\ X_train <> [] /\ X_test <> []
    /\ ((forall m, is_ok (scores m X_train y_train X_test y_test) = true) ->
        exists k' rows,
          Notebook.run (pipeline seeded permutation fit argsort) k = (k', None)
          /\ Notebook.run_each (pipeline seeded permutation fit argsort) k = (k', [])
          /\ report k' = Some rows
          /\ Permutation (map (fun r => fst (snd r)) rows) (map printed_name panel)
          /\ StronglySorted descending (map (fun r => (fst r, snd (snd r))) rows)
          /\ globals k' "df" = Some (VFrame df)).
Proof.
  intros Hdf Hn Hd Hwidth.
  destruct (split_and_scale_run k Hdf Hn Hd Hwidth)
    as (k2 & X_train & y_train & X_test & y_test
        & Hrun2 & Hprep & Hltrain & Hltest & Hne & Hne').
  exists k2, X_train, y_train, X_test, y_test.
  split; [exact Hrun2 |]. split; [exact Hprep |]. split; [exact Hltrain |].
  split; [exact Hltest |]. split; [exact Hne |]. split; [exact Hne' |].
  intros Hok.
  destruct (panel_cells_build_report Hprep Hok)
    as (k' & rows & Hrun & Hreport & Hnames & Hsorted).
  assert (Hall : Notebook.run (pipeline seeded permutation fit argsort) k
                 = (k', None)).
  { unfold pipeline.
    change ([cell (split_cell seeded permutation); cell (@scale_cell RandomState)]
            ++ map (fun m => cell (model_cell m)) panel ++ [cell comparison_cell])
      with ([cell (split_cell seeded permutation); cell (@scale_cell RandomState)]
            ++ panel_cells).
    rewrite (NotebookFacts.run_app
               [cell (split_cell seeded permutation); cell (@scale_cell RandomState)]),
      Hrun2.
    exact Hrun. }
  exists k', rows. split; [exact Hall |].
  split; [now apply NotebookFacts.run_clean |].
  split; [exact Hreport |]. split; [exact Hnames |]. split; [exact Hsorted |].
  rewrite <- Hdf.
  replace k' with (fst (Notebook.run (pipeline seeded permutation fit argsort) k))
    by now rewrite Hall.
  apply pipeline_leaves_df.
Qed.

(** *** One classifier among the others *)

(** X4.  However many classifier cells are run by hand, in whatever order
    and however often, and whichever of the other procedures raise: a
    classifier that fits, predicts and is scored ends with its accuracy
    bound to the score of its own predictions on the evaluation rows, and
    the four arrays of the split are as they were. *)
Theorem accuracy_is_of_own_fit (models : list Model) (m : Model) (k : Kernel)
  (X_train : Preprocessing.Array) (y_train : list nat)
  (X_test : Preprocessing.Array) (y_test : list nat)
  (clf : Classifier) (y_pred : list nat) (a : pyfloat) :
  prepared k X_train y_train X_test y_test ->
  In m models ->
  fit m X_train y_train = Ok clf ->
  clf X_test = Ok y_pred ->
  Metrics.accuracy_score y_test y_pred = Ok a ->
  let k' := fst (Notebook.run_each (map (fun m => cell (model_cell m)) models) k) in
  globals k' (accuracy_name m) = Some (VFloat a)
  /\ prepared k' X_train y_train X_test y_test.
Proof.
  intros Hprep Hin Hfit Hpred Hacc. cbv zeta.
  destruct (@scores_of_parts m X_train y_train X_test y_test clf y_pred a
              Hfit Hpred Hacc) as (r & _ & Hs).
  revert k Hprep.
  induction models as [| m0 models IH]; intros k Hprep; [destruct Hin |].
  destruct (@model_cell_effect m0 k _ _ _ _ Hprep)
    as (k1 & e & Hcell & Hprep1 & _ & _ & _ & Hown).
  assert (Hfst : fst (Notebook.run_each
                        (map (fun m => cell (model_cell m)) (m0 :: models)) k)
                 = fst (Notebook.run_each
                          (map (fun m => cell (model_cell m)) models) k1)).
  { rewrite map_cons, (NotebookFacts.run_each_cons (cell (model_cell m0))), Hcell.
    destruct e; [| reflexivity].
    now destruct (Notebook.run_each _ k1). }
  rewrite Hfst.
  destruct (in_dec model_eq_dec m models) as [Hin' | Hout].
  - now apply IH.
  - destruct Hin as [-> | Hin]; [| contradiction].
    rewrite Hs in Hown. destruct Hown as (_ & Hbound & _).
    destruct (@panel_run_each models k1 _ _ _ _ Hprep1)
      as (k' & errors & Hrun & Hprep' & _ & _ & _ & Hkept & _).
    rewrite Hrun. simpl fst. split; [| exact Hprep'].
    rewrite (Hkept m (or_introl Hout)). exact Hbound.
Qed.

End Cells.

(** *** The cells run on small data *)

Lemma split_done_prepared (X_train : Preprocessing.Array) (y_train : list nat)
  (X_test : Preprocessing.Array) (y_test : list nat) :
  prepared (split_done tt X_train y_train X_test y_test)
           X_train y_train X_test y_test.
Proof.
  unfold prepared, split_done. simpl.
  repeat split; trivial; eexists; (split; [reflexivity |]); simpl;
    unfold values, range_index; now rewrite ?ListFacts.map_snd_combine_range'.
Qed.

Lemma scored_bound (a : Model -> pyfloat) (m : Model) :
  globals (scored (fresh tt) a) (accuracy_name m) = Some (VFloat (a m)).
Proof. destruct m; reflexivity. Qed.

Lemma varying_column :
  let feature := Preprocessing.column [[0]; [2]]%R 0 in
  (INR (length feature) * / 4503599627370496 * Preprocessing.var feature
   + (INR (length feature) * Preprocessing.mean feature * / 4503599627370496)
     * (INR (length feature) * Preprocessing.mean feature * / 4503599627370496)
   < Preprocessing.var feature)%R.
Proof.
  unfold Preprocessing.var, Preprocessing.mean, Preprocessing.column.
  simpl. lraR.
Qed.


Lemma report_sorted_descending_witness :
  exists k' rows,
    cell (comparison_cell unit (insertion_argsort false))
         (scored (fresh tt) recorded) = (k', None)
    /\ report k' = Some rows
    /\ StronglySorted descending (map (fun r => (fst r, snd (snd r))) rows).
Proof.
  destruct (@report_sorted_descending unit (insertion_argsort false)
              (insertion_sorts false) (scored (fresh tt) recorded)
              recorded (scored_bound recorded))
    as (k' & rows & Hcell & Hreport & _ & _ & Hsorted).
  exists k', rows. now repeat split.
Defined.

(** The order of the comparison printed in the notebook, rows 0, 2, 3, 1
    and 4, is the one a sort that leaves equal values in place gives. *)
Example comparison_as_recorded :
  report (fst (cell (comparison_cell unit (insertion_argsort false))
                    (scored (fresh tt) recorded)))
  = Some [ (0, ("Logistic Regression", Finite (36 # 36)));
           (2, ("Random Forest", Finite (36 # 36)));
           (3, ("SVM", Finite (35 # 36)));
           (1, ("Decision Tree", Finite (34 # 36)));
           (4, ("KNN", Finite (34 # 36))) ]%string%nat.
Proof. reflexivity. Qed.

(** C2, as the claim has it, fails: a sorting routine that returns the
    positions in ascending order of the values need not leave equal values
    in place.  With one that does not, the accuracies 1.0, 1.0, 0.97, 0.94
    and 0.94 come out with the rows in the order 1, 0, 2, 4, 3: sorted in
    descending order, and both ties against the order of the panel. *)
Lemma ties_against_panel_order :
  sorts (insertion_argsort true)
  /\ report (fst (cell (comparison_cell unit (insertion_argsort true))
                       (scored (fresh tt) tied)))
     = Some [ (1, ("Decision Tree", Finite 1));
              (0, ("Logistic Regression", Finite 1));
              (2, ("Random Forest", Finite (97 # 100)));
              (4, ("KNN", Finite (94 # 100)));
              (3, ("SVM", Finite (94 # 100))) ]%string%nat.
Proof. split; [apply insertion_sorts | reflexivity]. Qed.



Lemma split_cell_cuts_the_frame_witness :
  exists train test,
    snd (cell (split_cell ModelSelection.counter_seeded
                          ModelSelection.counter_permutation)
              (set (fresh 0%Z) "df" (VFrame (range_index two_wines))))
    = None
    /\ Permutation (train ++ test) (range_index two_wines)
    /\ length test = 1%nat.
Proof.
  destruct (@split_cell_cuts_the_frame Z ModelSelection.counter_seeded
              ModelSelection.counter_permutation
              ModelSelectionFacts.counter_permutation_spec
              (set (fresh 0%Z) "df" (VFrame (range_index two_wines)))
              (range_index two_wines) eq_refl)
    as (Hsplit & _).
  destruct (Hsplit (le_n 2)) as (train & test & Hrun & Hperm & Hsize & _).
  exists train, test. split; [exact Hrun |]. split; [exact Hperm |].
  change (Z.of_nat (length (range_index two_wines))) with 2%Z in Hsize. lia.
Defined.

Lemma constant_fit_scores (m : Model) (X_train : Preprocessing.Array)
  (y_train : list nat) (X_test : Preprocessing.Array) (y_test : list nat) :
  X_test <> [] -> length X_test = length y_test ->
  is_ok (@scores constant_fit m X_train y_train X_test y_test) = true.
Proof.
  intros Hne Hlen. unfold scores, constant_fit. cbn [bind].
  assert (Hpred : always_zero X_test = Ok (map (fun _ => 0%nat) X_test))
    by (destruct X_test; [contradiction | reflexivity]).
  rewrite Hpred. cbn [bind].
  destruct (@scores_defined y_test (map (fun _ => 0%nat) X_test))
    as (a & r & Ha & Hr).
  - now rewrite length_map.
  - intros ->. destruct X_test; [contradiction | discriminate].
  - now rewrite Ha, Hr.
Qed.

Lemma pipeline_builds_report_witness :
  exists k' rows,
    Notebook.run (pipeline ModelSelection.counter_seeded
                           ModelSelection.counter_permutation constant_fit
                           (insertion_argsort false))
                 (set (fresh 0%Z) "df" (VFrame (range_index two_wines)))
    = (k', None)
    /\ report k' = Some rows.
Proof.
  assert (Hwidth : Forall (fun r : nat * (list R * nat) => length (fst (snd r)) = 1%nat)
                          (range_index two_wines))
    by (repeat constructor).
  destruct (@pipeline_builds_report Z constant_fit (insertion_argsort false)
              ModelSelection.counter_seeded ModelSelection.counter_permutation
              (insertion_sorts false) ModelSelectionFacts.counter_permutation_spec
              (set (fresh 0%Z) "df" (VFrame (range_index two_wines)))
              (range_index two_wines) 1%nat eq_refl (le_n 2) Nat.lt_0_1 Hwidth)
    as (k2 & X_train & y_train & X_test & y_test
        & _ & _ & _ & Hlen & _ & Hne & Hrun).
  destruct (Hrun (fun m => @constant_fit_scores m X_train y_train X_test y_test
                             Hne Hlen))
    as (k' & rows & Hrun' & _ & Hreport & _).
  exists k', rows. now split.
Defined.

Lemma accuracy_is_of_own_fit_witness :
  globals (fst (Notebook.run_each
                  (map (fun m => cell (@model_cell unit failing_log_reg m))
                       [knn; log_reg; knn])
                  (split_done tt [[]] [0%nat] [[]; []] [0; 1]%nat)))
          "accuracy_knn"
  = Some (VFloat (Finite (1 # 2))).
Proof.
  destruct (@accuracy_is_of_own_fit unit failing_log_reg [knn; log_reg; knn] knn
              (split_done tt [[]] [0%nat] [[]; []] [0; 1]%nat)
              [[]] [0%nat] [[]; []] [0; 1]%nat always_zero [0; 0]%nat
              (Finite (1 # 2))
              (split_done_prepared [[]] [0%nat] [[]; []] [0; 1]%nat)
              (or_introl eq_refl) eq_refl eq_refl eq_refl)
    as (Hbound & _).
  exact Hbound.
Defined.

Lemma cells_before_their_inputs_witness :
  cell (@model_cell Z constant_fit svm) (fresh 0%Z)
  = (set (fresh 0%Z) "svm" (VEstimator None), Some NameError).
Proof.
  apply (@cells_before_their_inputs Z constant_fit (insertion_argsort false)
           ModelSelection.counter_seeded
           ModelSelection.counter_permutation (fresh 0%Z) svm).
  reflexivity.
Defined.

Lemma no_accuracy_yet (m : Model) :
  globals (split_done tt [[]] [0%nat] [[]; []] [0; 1]%nat) (accuracy_name m) = None.
Proof. destruct m; reflexivity. Qed.

Lemma failed_procedure_is_not_caught_witness :
  exists k_all rows,
    Notebook.run (@panel_cells unit constant_fit (insertion_argsort false))
                 (split_done tt [[]] [0%nat] [[]; []] [0; 1]%nat)
    = (k_all, None)
    /\ report k_all = Some rows.
Proof.
  destruct (@failed_procedure_is_not_caught unit constant_fit
              (insertion_argsort false) (insertion_sorts false)
              (split_done tt [[]] [0%nat] [[]; []] [0; 1]%nat)
              [[]] [0%nat] [[]; []] [0; 1]%nat
              (split_done_prepared [[]] [0%nat] [[]; []] [0; 1]%nat)
              (fun m => or_introl (no_accuracy_yet m)))
    as (k_all & e & k_each & errors & Hrun & _ & Hok & _).
  destruct (Hok (fun m => match m with
                          | log_reg | dtree | rf | svm | knn => eq_refl
                          end))
    as (-> & _ & rows & Hreport & _).
  exists k_all, rows. now split.
Defined.

(** C5, as the claim has it, fails: with a logistic regression that does
    not converge and four classifiers that fit, "Run All" stops with the
    exception of the fit; run by hand, the four other cells bind their
    accuracies and the comparison cell raises [NameError]; no Report lists
    the four. *)
Lemma failing_fit_leaves_no_report :
  let k := split_done tt [[]] [0%nat] [[]; []] [0; 1]%nat in
  let cells := @panel_cells unit failing_log_reg (insertion_argsort false) in
  let by_hand := Notebook.run_each cells k in
  let run_all := Notebook.run cells k in
  snd run_all = Some FitError
  /\ report (fst run_all) = None
  /\ snd by_hand = [FitError; NameError]
  /\ report (fst by_hand) = None
  /\ globals (fst by_hand) "accuracy_log_reg" = None
  /\ globals (fst by_hand) "accuracy_dtree" = Some (VFloat (Finite (1 # 2)))
  /\ globals (fst by_hand) "accuracy_knn" = Some (VFloat (Finite (1 # 2))).
Proof. vm_compute. repeat split; reflexivity. Qed.

(** In a kernel that still holds the accuracy of an earlier run, the
    comparison cell run by hand lists the failed procedure with that
    accuracy. *)
Example stale_accuracy_enters_report :
  let k := set (split_done tt [[]] [0%nat] [[]; []] [0; 1]%nat)
               "accuracy_log_reg" (VFloat (Finite 1)) in
  let cells := @panel_cells unit failing_log_reg (insertion_argsort false) in
  let by_hand := Notebook.run_each cells k in
  snd by_hand = [FitError]
  /\ option_map (map snd) (report (fst by_hand))
     = Some [ ("Logistic Regression", Finite 1);
              ("Decision Tree", Finite (1 # 2));
              ("Random Forest", Finite (1 # 2));
              ("SVM", Finite (1 # 2));
              ("KNN", Finite (1 # 2)) ]%string.
Proof. vm_compute. split; reflexivity. Qed.

End WineFacts.

Module DiabetesFacts.
Import Diabetes ListFacts.
Local Open Scope Q_scope.

(** *** The verdict cells *)

Example one_sample_recorded :
  verdict_of (one_sample_report (-0x1.be7e7a8e72ab5p-44)%float
                                0x1.ffffffffffd38p-1%float)
  = Some FailToReject.
Proof. reflexivity. Qed.

Example two_sample_recorded :
  verdict_of (two_sample_report (-0x1.5c58dbe2e8e3ap+3)%float
                                0x1.9ecb4b7c1d0c4p-80%float)
  = Some Reject.
Proof. reflexivity. Qed.

(** The threshold of the reports is the float of the literal [0.05]: the
    quotient of 5 and 100, the binary64 7205759403792794 * 2^-57, less than
    2^-58 away from a twentieth. *)
Example threshold_is_a_twentieth :
  (5 / 100)%float = 0x1.999999999999ap-5%float
  /\ Prim2SF 0x1.999999999999ap-5%float
     = S754_finite false 7205759403792794 (-57)
  /\ - Qpower 2 (-58)
     < inject_Z 7205759403792794 * Qpower 2 (-57) - (1 # 20)
     < Qpower 2 (-58).
Proof.
  split; [reflexivity |]. split; [reflexivity |].
  split; vm_compute; reflexivity.
Qed.

Example verdict_at_threshold :
  verdict_of (paired_report 0%float 0x1.999999999999ap-5%float)
  = Some FailToReject.
Proof. reflexivity. Qed.

Example verdict_below_threshold :
  verdict_of (paired_report 0%float 0x1.9999999999999p-5%float) = Some Reject.
Proof. reflexivity. Qed.

Example verdict_at_nan :
  verdict_of (paired_report nan nan) = Some FailToReject.
Proof. reflexivity. Qed.

Lemma verdict_of_report (test : TTest) (t_stat p_value : float) :
  verdict_of (report_of test t_stat p_value)
  = Some (if PrimFloat.ltb p_value 0x1.999999999999ap-5
          then Reject else FailToReject).
Proof.
  destruct test; unfold report_of, one_sample_report, two_sample_report,
    paired_report, verdict_of;
    destruct (PrimFloat.ltb p_value 0x1.999999999999ap-5); reflexivity.
Qed.

(** The cells of the other three procedures print no verdict line. *)
Lemma confidence_cell_prints (t_interval : list Q -> float * float) (k : Kernel) :
  exists ls,
    stdout (fst (confidence_cell t_interval k)) = stdout k ++ ls
    /\ Forall (fun l => read_verdict l = None) ls.
Proof.
  unfold confidence_cell. destruct (getitem (df k) "bmi") as [bmi | e].
  - destruct (t_interval (s_values bmi)) as [lo hi].
    eexists. split; [reflexivity |]. now repeat constructor.
  - exists []. split; [now rewrite app_nil_r | constructor].
Qed.

Lemma anova_cell_prints (anova_lm : DataFrame -> result unit) (k : Kernel) :
  exists ls,
    stdout (fst (anova_cell anova_lm k)) = stdout k ++ ls
    /\ Forall (fun l => read_verdict l = None) ls.
Proof.
  unfold anova_cell. destruct (getitem (df k) "bmi") as [bmi | e].
  - destruct (qcut bmi _) as [quartiles | e].
    + destruct (setitem (df k) _ _) as [df' | e].
      * destruct (anova_lm df') as [[] | e].
        -- eexists. split; [reflexivity |]. now repeat constructor.
        -- exists []. split; [simpl; now rewrite app_nil_r | constructor].
      * exists []. split; [now rewrite app_nil_r | constructor].
    + exists []. split; [now rewrite app_nil_r | constructor].
  - exists []. split; [now rewrite app_nil_r | constructor].
Qed.

Lemma regression_cell_prints (ols_summary : list Q -> list Q -> result unit)
  (k : Kernel) :
  exists ls,
    stdout (fst (regression_cell ols_summary k)) = stdout k ++ ls
    /\ Forall (fun l => read_verdict l = None) ls.
Proof.
  unfold regression_cell. destruct (getitem (df k) "bmi") as [X | e].
  - destruct (getitem (df k) "target") as [y | e].
    + destruct (ols_summary (s_values y) (s_values X)) as [[] | e].
      * eexists. split; [reflexivity |]. now repeat constructor.
      * exists []. split; [now rewrite app_nil_r | constructor].
    + exists []. split; [now rewrite app_nil_r | constructor].
  - exists []. split; [now rewrite app_nil_r | constructor].
Qed.

(** C3, as the code has it.  In each of the three t-test cells the verdict
    line reads "Reject" exactly when the p-value is below 0.05 (the IEEE
    comparison of the source with its literal, the binary64
    [0x1.999999999999ap-5]) and "Fail to reject" otherwise; the
    t-statistic has no influence on it.  The cells of the other three
    procedures, the confidence interval, the ANOVA and the regression,
    print no verdict line, whatever their routines return. *)
Theorem verdict_reject_iff_below_alpha (test : TTest) (t_stat p_value : float) :
  (verdict_of (report_of test t_stat p_value) = Some Reject
     <-> PrimFloat.ltb p_value 0x1.999999999999ap-5 = true)
  /\ (verdict_of (report_of test t_stat p_value) = Some FailToReject
     <-> PrimFloat.ltb p_value 0x1.999999999999ap-5 = false)
  /\ (forall t_stat' : float,
        verdict_of (report_of test t_stat' p_value)
        = verdict_of (report_of test t_stat p_value))
  /\ (forall (t_interval : list Q -> float * float)
             (anova_lm : DataFrame -> result unit)
             (ols_summary : list Q -> list Q -> result unit)
             (c : Cell) (k : Kernel),
        In c [confidence_cell t_interval; anova_cell anova_lm;
              regression_cell ols_summary] ->
        exists ls,
          stdout (fst (c k)) = stdout k ++ ls
          /\ Forall (fun l => read_verdict l = None) ls).
Proof.
  split; [| split; [| split]].
  - rewrite verdict_of_report.
    destruct (PrimFloat.ltb p_value 0x1.999999999999ap-5);
      split; congruence.
  - rewrite verdict_of_report.
    destruct (PrimFloat.ltb p_value 0x1.999999999999ap-5);
      split; congruence.
  - intros t_stat'. now rewrite !verdict_of_report.
  - intros t_interval anova_lm ols_summary c k [<- | [<- | [<- | []]]].
    + apply confidence_cell_prints.
    + apply anova_cell_prints.
    + apply regression_cell_prints.
Qed.

(** C3, as the claim has it, fails: not every statistical procedure
    gives a verdict.  On five loaded rows the confidence-interval, the
    ANOVA and the regression cell run to their end, and none of the lines
    they print is a verdict. *)
Lemma procedures_without_verdict :
  exists df0,
    load five_rows five_targets = Ok df0
    /\ (let out := confidence_cell quiet_interval (mkKernel df0 []) in
        snd out = None /\ map read_verdict (stdout (fst out)) = [None])
    /\ (let out := anova_cell quiet_anova (mkKernel df0 []) in
        snd out = None /\ map read_verdict (stdout (fst out)) = [None; None])
    /\ (let out := regression_cell quiet_ols (mkKernel df0 []) in
        snd out = None /\ map read_verdict (stdout (fst out)) = [None; None]).
Proof.
  eexists. split; [reflexivity |]. vm_compute. repeat split; reflexivity.
Qed.

(** *** Sorting and the median *)

Lemma insert_sorted_perm (x : Q) (l : list Q) :
  Permutation (insert_sorted x l) (x :: l).
Proof.
  induction l as [| y l IH]; simpl; [reflexivity |].
  destruct (Qle_bool x y); [reflexivity |].
  rewrite IH. apply perm_swap.
Qed.

Lemma sort_floats_perm (l : list Q) : Permutation (sort_floats l) l.
Proof.
  induction l as [| x l IH]; simpl; [constructor |].
  rewrite insert_sorted_perm. now constructor.
Qed.

Lemma insert_sorted_head_least (x : Q) (l : list Q) :
  head_least l -> head_least (insert_sorted x l).
Proof.
  destruct l as [| y l]; simpl.
  - intros _. constructor; [apply Qle_refl | constructor].
  - intros Hy. destruct (Qle_bool x y) eqn:E.
    + apply Qle_bool_iff in E. constructor; [apply Qle_refl |].
      eapply Forall_impl; [| exact Hy]. intros z Hz. simpl in Hz. lraQ.
    + assert (Hyx : y <= x).
      { destruct (Qlt_le_dec y x) as [Hlt | Hle]; [lraQ |].
        apply Qle_bool_iff in Hle. congruence. }
      inversion Hy as [| ? ? _ Hl]; subst.
      constructor; [apply Qle_refl |].
      rewrite Forall_forall. intros z Hz.
      apply (Permutation_in _ (insert_sorted_perm x l)) in Hz.
      destruct Hz as [<- | Hz]; [exact Hyx |].
      rewrite Forall_forall in Hl. now apply Hl.
Qed.

Lemma sort_floats_head_least (l : list Q) : head_least (sort_floats l).
Proof.
  induction l as [| x l IH]; simpl; [exact I |].
  now apply insert_sorted_head_least.
Qed.

Lemma sort_floats_length (l : list Q) : length (sort_floats l) = length l.
Proof. apply Permutation_length, sort_floats_perm. Qed.

(** Some value of a non-empty series is at most its median. *)
Lemma median_lower_bound (s : Series) :
  s_values s <> [] ->
  exists m t, median s = Finite m /\ In t (s_values s) /\ t <= m.
Proof.
  intros Hne. unfold median.
  pose proof (sort_floats_perm (s_values s)) as Hperm.
  pose proof (sort_floats_head_least (s_values s)) as Hleast.
  destruct (sort_floats (s_values s)) as [| h v] eqn:Es.
  { apply Permutation_nil in Hperm. contradiction. }
  set (l := h :: v) in *. simpl in Hleast.
  assert (Hnth : forall k, (k < length l)%nat -> h <= nth k l 0).
  { intros k Hk. rewrite Forall_forall in Hleast.
    apply Hleast, nth_In, Hk. }
  assert (Hin : In h (s_values s)).
  { apply (Permutation_in _ Hperm). now left. }
  assert (Hpos : (0 < length l)%nat) by (simpl; lia).
  destruct (Nat.eqb (length l) 0) eqn:E0.
  { apply Nat.eqb_eq in E0. lia. }
  destruct (Nat.odd (length l)) eqn:Eodd.
  - exists (nth (length l / 2) l 0), h. repeat split; trivial.
    apply Hnth, Nat.div_lt; lia.
  - exists ((nth (length l / 2 - 1) l 0 + nth (length l / 2) l 0) / 2), h.
    repeat split; trivial.
    assert (H1 : h <= nth (length l / 2 - 1) l 0).
    { apply Hnth. pose proof (Nat.div_lt (length l) 2). lia. }
    assert (H2 : h <= nth (length l / 2) l 0).
    { apply Hnth, Nat.div_lt; lia. }
    apply Qle_shift_div_l; [reflexivity | lraQ].
Qed.

(** *** Boolean indexing *)

Lemma select_nil_r {A} (mask : list bool) : select mask (@nil A) = [].
Proof. now destruct mask. Qed.

Lemma select_In {A} (mask : list bool) (l : list A) (y : A) :
  In y (select mask l)
  <-> exists k, nth_error l k = Some y /\ nth_error mask k = Some true.
Proof.
  revert l. induction mask as [| b mask IH]; intros [| x l]; simpl.
  1-3: split; [intros [] | intros [[| k] [H1 H2]]; discriminate].
  assert (Hrest : In y (select mask l) <->
                  exists k, nth_error (x :: l) (S k) = Some y
                            /\ nth_error (b :: mask) (S k) = Some true)
    by apply IH.
  destruct b; simpl; rewrite Hrest; split.
  - intros [<- | [k Hk]]; [exists 0%nat; now split | exists (S k); exact Hk].
  - intros [[| k] [H1 H2]]; [left; simpl in H1; congruence | right; now exists k].
  - intros [k Hk]. now exists (S k).
  - intros [[| k] [H1 H2]]; [discriminate | now exists k].
Qed.

Lemma select_complement {A} (mask : list bool) (l : list A) :
  length mask = length l ->
  Permutation (select mask l ++ select (map negb mask) l) l.
Proof.
  revert l. induction mask as [| b mask IH]; intros [| x l] Hlen;
    simpl in *; try discriminate; [constructor |].
  injection Hlen as Hlen. destruct b; simpl.
  - constructor. now apply IH.
  - rewrite <- Permutation_middle. constructor. now apply IH.
Qed.

Lemma select_combine {A B} (mask : list bool) (a : list A) (b : list B) :
  combine (select mask a) (select mask b) = select mask (combine a b).
Proof.
  revert a b. induction mask as [| m mask IH]; intros [| x a] [| y b];
    simpl; trivial.
  - destruct m; simpl; trivial. now destruct (select mask a).
  - destruct m; simpl; now rewrite IH.
Qed.

(** With the default labels, a row is selected iff its mask entry is True. *)
Lemma select_range_In (mask : list bool) (i : nat) :
  In i (select mask (seq 0 (length mask))) <-> nth_error mask i = Some true.
Proof.
  rewrite select_In. split.
  - intros [k [Hk Hm]]. apply nth_error_range in Hk as [-> _]. exact Hm.
  - intros Hm. exists i. split; [| exact Hm].
    apply nth_error_range. split; [reflexivity |].
    apply nth_error_Some. congruence.
Qed.

Lemma find_column_boolean_index (df : DataFrame) (mask : list bool)
  (name : string) :
  find_column name (columns (boolean_index df mask))
  = option_map (select_column mask) (find_column name (columns df)).
Proof.
  unfold boolean_index. simpl.
  induction (columns df) as [| [k c] cols IH]; simpl; [reflexivity |].
  destruct (String.eqb k name); [reflexivity | exact IH].
Qed.

Lemma getitem_boolean_index (df : DataFrame) (mask : list bool)
  (name : string) (v : list Q) :
  find_column name (columns df) = Some (Floats v) ->
  getitem (boolean_index df mask) name
  = Ok (mkSeries (select mask (index df)) (select mask v)).
Proof.
  intros Hv. unfold getitem. rewrite find_column_boolean_index, Hv.
  reflexivity.
Qed.



Example median_split_small :
  median_split small_frame
  = Ok (Finite 20, mkSeries [0; 1]%nat [1; 2], mkSeries [2]%nat [3]).
Proof. vm_compute. reflexivity. Qed.

(** *** The loaded frame through the cells *)

Lemma load_frame (data : list (list Q)) (target : list Q) (df0 : DataFrame) :
  load data target = Ok df0 ->
  index df0 = seq 0 (length data)
  /\ names df0 = feature_names ++ ["target"%string]
  /\ find_column "bmi_quartile" (columns df0) = None
  /\ find_column "bmi" (columns df0) = Some (Floats (column_of data 2))
  /\ find_column "target" (columns df0) = Some (Floats target).
Proof.
  unfold load. destruct (forallb _ data); [| discriminate].
  unfold setitem. simpl.
  destruct (Nat.eqb (length target) (length (seq 0 (length data))));
    [| discriminate].
  intros H. injection H as <-. simpl. now repeat split.
Qed.

Lemma replace_column_absent (name : string) (c : Column)
  (cols : list (string * Column)) :
  find_column name cols = None ->
  replace_column name c cols = cols ++ [(name, c)].
Proof.
  induction cols as [| [k c0] cols IH]; simpl; [reflexivity |].
  destruct (String.eqb k name); [discriminate |].
  intros H. now rewrite IH.
Qed.

Lemma replace_column_last (name : string) (c c' : Column)
  (cols : list (string * Column)) :
  find_column name cols = None ->
  replace_column name c' (cols ++ [(name, c)]) = cols ++ [(name, c')].
Proof.
  induction cols as [| [k c0] cols IH]; simpl.
  - now rewrite String.eqb_refl.
  - destruct (String.eqb k name); [discriminate |].
    intros H. now rewrite IH.
Qed.

Lemma find_column_app (name : string) (c : Column)
  (cols more : list (string * Column)) :
  find_column name cols = Some c -> find_column name (cols ++ more) = Some c.
Proof.
  induction cols as [| [k c0] cols IH]; simpl; [discriminate |].
  destruct (String.eqb k name); [trivial | exact IH].
Qed.

(** Growing a frame keeps every loaded column where and as it was. *)
Lemma extends_find (df0 d : DataFrame) (name : string) (c : Column) :
  extends df0 d ->
  find_column name (columns df0) = Some c ->
  find_column name (columns d) = Some c.
Proof.
  intros [_ [-> | [q ->]]] Hc; [exact Hc | now apply find_column_app].
Qed.

Lemma extends_refl (df0 : DataFrame) : extends df0 df0.
Proof. split; [reflexivity | now left]. Qed.

Lemma setitem_quartiles (df0 d d' : DataFrame) (quartiles : list (option string)) :
  find_column "bmi_quartile" (columns df0) = None ->
  extends df0 d ->
  setitem d "bmi_quartile" (Categories quartiles) = Ok d' ->
  index d' = index df0
  /\ columns d' = columns df0 ++ [("bmi_quartile"%string, Categories quartiles)].
Proof.
  intros Habsent [Hidx Hcols]. unfold setitem.
  destruct (Nat.eqb _ _); [| discriminate].
  intros H. injection H as <-. simpl. split; [exact Hidx |].
  destruct Hcols as [-> | [q ->]].
  - now apply replace_column_absent.
  - now apply replace_column_last.
Qed.

(** *** Sorted values and the quartile edges *)

Lemma Qle_bool_false (a b : Q) : Qle_bool a b = false -> b < a.
Proof.
  intros H. destruct (Qlt_le_dec b a) as [Hlt | Hle]; [exact Hlt |].
  apply Qle_bool_iff in Hle. congruence.
Qed.

Lemma insert_sorted_sorted (x : Q) (l : list Q) :
  StronglySorted Qle l -> StronglySorted Qle (insert_sorted x l).
Proof.
  induction 1 as [| y l Hl IH Hy]; simpl; [repeat constructor |].
  destruct (Qle_bool x y) eqn:E.
  - apply Qle_bool_iff in E. constructor; [now constructor |].
    constructor; [exact E |].
    eapply Forall_impl; [| exact Hy]. intros z Hz. simpl in Hz. lraQ.
  - apply Qle_bool_false in E. constructor; [exact IH |].
    rewrite Forall_forall in *. intros z Hz.
    apply (Permutation_in _ (insert_sorted_perm x l)) in Hz.
    destruct Hz as [<- | Hz]; [lraQ | now apply Hy].
Qed.

Lemma sort_floats_sorted (l : list Q) : StronglySorted Qle (sort_floats l).
Proof.
  induction l as [| x l IH]; simpl; [constructor |].
  now apply insert_sorted_sorted.
Qed.

Lemma sorted_nth_le (v : list Q) (i j : nat) :
  StronglySorted Qle v -> (i <= j)%nat -> (j < length v)%nat ->
  nth i v 0 <= nth j v 0.
Proof.
  intros Hs. revert i j. induction Hs as [| x v Hv IH Hx]; intros i j Hij Hj;
    simpl in Hj; [lia |].
  destruct i as [| i], j as [| j]; simpl; try lia.
  - apply Qle_refl.
  - rewrite Forall_forall in Hx. apply Hx, nth_In. lia.
  - apply IH; lia.
Qed.

(** Every value lies between the first and the last of the sorted values. *)
Lemma sorted_bounds (l : list Q) (x : Q) :
  In x l ->
  nth 0 (sort_floats l) 0 <= x
  /\ x <= nth (length l - 1) (sort_floats l) 0.
Proof.
  intros Hin.
  apply (Permutation_in _ (Permutation_sym (sort_floats_perm l))) in Hin.
  apply (In_nth _ _ 0) in Hin as (p & Hp & <-).
  pose proof (sort_floats_sorted l) as Hs.
  rewrite <- (sort_floats_length l).
  split; apply sorted_nth_le; trivial; lia.
Qed.

Lemma quantile_cases (s : Series) (q : Q) :
  (s_values s = [] /\ quantile s q = NaN)
  \/ (s_values s <> [] /\ exists x, quantile s q = Finite x).
Proof.
  unfold quantile. rewrite sort_floats_length.
  destruct (s_values s) as [| y l]; [now left | right].
  split; [discriminate |]. simpl Nat.eqb. cbv iota. eauto.
Qed.

Lemma Finite_inj (a b : Q) : Finite a = Finite b -> a = b.
Proof. now intros [= ->]. Qed.

Lemma quantile_least (s : Series) (x : Q) :
  quantile s 0 = Finite x -> x == nth 0 (sort_floats (s_values s)) 0.
Proof.
  unfold quantile. cbv zeta. destruct (Nat.eqb _ 0); [discriminate |].
  intros H. apply Finite_inj in H. rewrite <- H.
  set (n := length (sort_floats (s_values s))).
  assert (Hh : inject_Z (Z.of_nat (n - 1)) * 0 == 0) by ring.
  assert (Hfl : Qfloor (inject_Z (Z.of_nat (n - 1)) * 0) = 0%Z)
    by (rewrite Hh; reflexivity).
  rewrite Hfl. change (Z.to_nat 0) with 0%nat. ring.
Qed.

Lemma quantile_greatest (s : Series) (x : Q) :
  quantile s 1 = Finite x ->
  x == nth (length (s_values s) - 1) (sort_floats (s_values s)) 0.
Proof.
  unfold quantile. cbv zeta. rewrite sort_floats_length.
  destruct (Nat.eqb _ 0); [discriminate |].
  intros H. apply Finite_inj in H. rewrite <- H.
  set (n := length (s_values s)).
  assert (Hh : inject_Z (Z.of_nat (n - 1)) * 1 == inject_Z (Z.of_nat (n - 1)))
    by ring.
  assert (Hfl : Qfloor (inject_Z (Z.of_nat (n - 1)) * 1) = Z.of_nat (n - 1))
    by (rewrite Hh; apply Qfloor_Z).
  rewrite Hfl, Nat2Z.id. ring.
Qed.

(** *** Quartile bins *)

(** Turns the outcomes of the float comparisons into inequalities. *)
Ltac compared :=
  repeat match goal with
         | H : Qle_bool _ _ = true |- _ => apply Qle_bool_iff in H
         | H : Qle_bool _ _ = false |- _ => apply Qle_bool_false in H
         | H : negb _ = true |- _ => apply negb_true_iff in H
         | H : (_ && _)%bool = true |- _ => apply andb_prop in H as [? H]
         end.

(** X16.  When [pd.qcut] with four labels succeeds, the five quartile
    edges are strictly increasing, the lowest and the highest are values
    of the series, and every row gets a label, never NaN: the label of the
    bin whose right-closed interval holds its value, the lowest edge
    counting to the first bin. *)
Theorem qcut_labels_by_quartile (s : Series) (labels : list string)
  (out : list (option string)) :
  length labels = 4%nat ->
  qcut s labels = Ok out ->
  exists b0 b1 b2 b3 b4,
    map (quantile s) quartile_points = map Finite [b0; b1; b2; b3; b4]
    /\ (b0 < b1 /\ b1 < b2 /\ b2 < b3 /\ b3 < b4)
    /\ (exists x, In x (s_values s) /\ x == b0)
    /\ (exists x, In x (s_values s) /\ x == b4)
    /\ length out = length (s_values s)
    /\ forall i x, nth_error (s_values s) i = Some x ->
         exists j l,
           (j < 4)%nat
           /\ nth_error labels j = Some l
           /\ nth_error out i = Some (Some l)
           /\ (nth j [b0; b1; b2; b3; b4] 0 < x \/ (j = 0%nat /\ x == b0))
           /\ x <= nth (S j) [b0; b1; b2; b3; b4] 0.
Proof.
  intros Hlab Hq. unfold qcut, quartile_points in Hq. simpl map in Hq.
  destruct (quantile_cases s 0) as [[He H0] | [Hne [b0 H0]]].
  { rewrite H0 in Hq. cbn [all_finite] in Hq. discriminate. }
  destruct (quantile_cases s (1 # 4)) as [[He _] | [_ [b1 H1]]]; [contradiction |].
  destruct (quantile_cases s (1 # 2)) as [[He _] | [_ [b2 H2]]]; [contradiction |].
  destruct (quantile_cases s (3 # 4)) as [[He _] | [_ [b3 H3]]]; [contradiction |].
  destruct (quantile_cases s 1) as [[He _] | [_ [b4 H4]]]; [contradiction |].
  rewrite H0, H1, H2, H3, H4 in Hq. cbn [all_finite] in Hq.
  destruct (strictly_increasing [b0; b1; b2; b3; b4]) eqn:Ei; [| discriminate].
  apply (f_equal (fun r => match r with Ok o => o | Raise _ => [] end)) in Hq.
  subst out. simpl in Ei. compared.
  pose proof (quantile_least s H0) as Hb0.
  pose proof (quantile_greatest s H4) as Hb4.
  assert (Hlen : (0 < length (s_values s))%nat)
    by (destruct (s_values s); [contradiction | simpl; lia]).
  assert (Hin : forall p, (p < length (s_values s))%nat ->
                  In (nth p (sort_floats (s_values s)) 0) (s_values s)).
  { intros p Hp. apply (Permutation_in _ (sort_floats_perm (s_values s))).
    apply nth_In. now rewrite sort_floats_length. }
  exists b0, b1, b2, b3, b4.
  split; [unfold quartile_points; simpl; now rewrite H0, H1, H2, H3, H4 |].
  split; [now repeat split |].
  split; [eexists; split; [apply (Hin 0%nat Hlen) | now symmetry] |].
  split; [eexists; split; [apply (Hin (length (s_values s) - 1)%nat); lia
                          | now symmetry] |].
  split; [apply length_map |].
  intros i x Hix.
  destruct (sorted_bounds (s_values s) x (nth_error_In _ _ Hix)) as [Hlo Hhi].
  rewrite <- Hb0 in Hlo. rewrite <- Hb4 in Hhi.
  rewrite nth_error_map, Hix. cbn [option_map].
  destruct labels as [| l0 [| l1 [| l2 [| l3 [| ? ?]]]]]; try discriminate.
  unfold bin_label, searchsorted_left. cbn [nth].
  destruct (Qeq_bool x b0) eqn:Eq0.
  - apply Qeq_bool_iff in Eq0. exists 0%nat, l0. simpl.
    split; [lia |]. split; [reflexivity |]. split; [reflexivity |].
    split; [right; now split | lraQ].
  - apply Qeq_bool_neq in Eq0. cbn [filter].
    destruct (Qle_bool x b0) eqn:E0, (Qle_bool x b1) eqn:E1,
      (Qle_bool x b2) eqn:E2, (Qle_bool x b3) eqn:E3, (Qle_bool x b4) eqn:E4;
      compared;
      first [ exfalso; lraQ
            | exfalso; apply Eq0; lraQ
            | exists 0%nat, l0; simpl; repeat split; solve [lia | left; lraQ | lraQ]
            | exists 1%nat, l1; simpl; repeat split; solve [lia | left; lraQ | lraQ]
            | exists 2%nat, l2; simpl; repeat split; solve [lia | left; lraQ | lraQ]
            | exists 3%nat, l3; simpl; repeat split; solve [lia | left; lraQ | lraQ] ].
Qed.

Lemma quantile_of_flat (s : Series) (q c x : Q) :
  0 <= q -> q <= 1 ->
  (forall y, In y (s_values s) -> y == c) ->
  quantile s q = Finite x -> x == c.
Proof.
  intros Hq0 Hq1 Hflat. unfold quantile. cbv zeta.
  rewrite sort_floats_length.
  destruct (Nat.eqb_spec (length (s_values s)) 0) as [| Hn]; [discriminate |].
  intros H. apply Finite_inj in H. rewrite <- H.
  set (n := length (s_values s)) in *.
  set (h := inject_Z (Z.of_nat (n - 1)) * q).
  assert (Hm : 0 <= inject_Z (Z.of_nat (n - 1))).
  { rewrite <- (Zle_Qle 0). lia. }
  assert (Hh0 : 0 <= h) by (unfold h; apply Qmult_le_0_compat; trivial).
  assert (Hh1 : h <= inject_Z (Z.of_nat (n - 1))).
  { unfold h. rewrite <- (Qmult_1_r (inject_Z (Z.of_nat (n - 1)))) at 2.
    rewrite !(Qmult_comm (inject_Z (Z.of_nat (n - 1)))).
    apply Qmult_le_compat_r; trivial. }
  assert (Hfl : (0 <= Qfloor h <= Z.of_nat (n - 1))%Z).
  { split.
    - apply (Qfloor_resp_le 0 h Hh0).
    - rewrite <- (Qfloor_Z (Z.of_nat (n - 1))). now apply Qfloor_resp_le. }
  assert (Hin : forall p, (p < n)%nat -> nth p (sort_floats (s_values s)) 0 == c).
  { intros p Hp. apply Hflat.
    apply (Permutation_in _ (sort_floats_perm (s_values s))).
    apply nth_In. rewrite sort_floats_length. exact Hp. }
  rewrite (Hin (Z.to_nat (Qfloor h))) by lia.
  rewrite (Hin (Nat.min (S (Z.to_nat (Qfloor h))) (n - 1))) by lia.
  ring.
Qed.

Lemma qcut_flat (s : Series) (labels : list string) :
  (forall x y, In x (s_values s) -> In y (s_values s) -> x == y) ->
  qcut s labels = Raise ValueError.
Proof.
  intros Hflat. unfold qcut, quartile_points. simpl map.
  destruct (quantile_cases s 0) as [[He H0] | [Hne [b0 H0]]].
  { now rewrite H0. }
  destruct (quantile_cases s (1 # 4)) as [[He _] | [_ [b1 H1]]]; [contradiction |].
  destruct (quantile_cases s (1 # 2)) as [[He _] | [_ [b2 H2]]]; [contradiction |].
  destruct (quantile_cases s (3 # 4)) as [[He _] | [_ [b3 H3]]]; [contradiction |].
  destruct (quantile_cases s 1) as [[He _] | [_ [b4 H4]]]; [contradiction |].
  rewrite H0, H1, H2, H3, H4. cbn [all_finite].
  destruct (s_values s) as [| c l] eqn:Es; [contradiction |].
  assert (Hc : forall y, In y (s_values s) -> y == c).
  { intros y Hy. rewrite Es in Hy. apply Hflat; [exact Hy | now left]. }
  assert (Hb0 : b0 == c) by (apply (@quantile_of_flat s 0 c b0); trivial; lraQ).
  assert (Hb1 : b1 == c) by (apply (@quantile_of_flat s (1 # 4) c b1); trivial; lraQ).
  assert (Hle : Qle_bool b1 b0 = true) by (apply Qle_bool_iff; lraQ).
  simpl. now rewrite Hle.
Qed.

(** *** The sizes of the two groups *)

Lemma select_map_length {A} (f : Q -> bool) (l : list Q) (a : list A) :
  length a = length l ->
  length (select (map f l) a) = length (filter f l).
Proof.
  revert a. induction l as [| x l IH]; intros [| y a] H; simpl in *;
    try discriminate; trivial.
  destruct (f x); simpl; rewrite IH; trivial; lia.
Qed.

Lemma filter_split_length {A} (f : A -> bool) (l : list A) :
  (length (filter f l) + length (filter (fun x => negb (f x)) l))%nat = length l.
Proof.
  induction l as [| x l IH]; simpl; [reflexivity |].
  destruct (f x); simpl; lia.
Qed.

Lemma filter_perm_length {A} (f : A -> bool) (l l' : list A) :
  Permutation l l' -> length (filter f l) = length (filter f l').
Proof.
  induction 1 as [| x l l' _ IH | x y l | l l' l'' _ IH1 _ IH2]; simpl.
  - reflexivity.
  - destruct (f x); simpl; now rewrite IH.
  - destruct (f x), (f y); reflexivity.
  - congruence.
Qed.

(** A run of entries at the front that all pass is counted in full. *)
Lemma filter_front (f : Q -> bool) (v : list Q) (k : nat) :
  (k <= length v)%nat ->
  (forall i, (i < k)%nat -> f (nth i v 0) = true) ->
  (k <= length (filter f v))%nat.
Proof.
  revert k. induction v as [| x v IH]; intros k Hk Hf; simpl in *; [lia |].
  destruct k as [| k]; [lia |].
  rewrite (Hf 0%nat) by lia. simpl.
  apply le_n_S, IH; [lia |].
  intros i Hi. apply (Hf (S i)). lia.
Qed.

(** The median of a series with values: at least half of the values are
    no greater, and it lies between two of them. *)
Lemma median_counts (s : Series) :
  s_values s <> [] ->
  exists mv lo hi,
    median s = Finite mv
    /\ In lo (s_values s) /\ In hi (s_values s) /\ lo <= mv /\ mv <= hi
    /\ (length (s_values s)
        <= 2 * length (filter (fun t => Qle_bool t mv) (s_values s)))%nat.
Proof.
  intros Hne. unfold median.
  pose proof (sort_floats_perm (s_values s)) as Hperm.
  pose proof (sort_floats_sorted (s_values s)) as Hsorted.
  pose proof (sort_floats_length (s_values s)) as Hlen.
  set (v := sort_floats (s_values s)) in *.
  set (n := length v) in *.
  assert (Hpos : (0 < n)%nat).
  { rewrite Hlen. destruct (s_values s); [contradiction | simpl; lia]. }
  assert (Hin : forall p, (p < n)%nat -> In (nth p v 0) (s_values s)).
  { intros p Hp. apply (Permutation_in _ Hperm), nth_In, Hp. }
  assert (Hcount : forall mv k, (k <= n)%nat ->
             (forall i, (i < k)%nat -> nth i v 0 <= mv) ->
             (k <= length (filter (fun t => Qle_bool t mv) (s_values s)))%nat).
  { intros mv k Hk Hle.
    rewrite <- (filter_perm_length (fun t => Qle_bool t mv) Hperm).
    apply filter_front; [exact Hk |].
    intros i Hi. apply Qle_bool_iff. now apply Hle. }
  destruct (Nat.eqb_spec n 0) as [| _]; [lia |].
  destruct (Nat.odd n) eqn:Eodd.
  - exists (nth (n / 2) v 0), (nth (n / 2) v 0), (nth (n / 2) v 0).
    assert (Hhalf : (n / 2 < n)%nat) by (apply Nat.div_lt; lia).
    split; [reflexivity |]. split; [now apply Hin |]. split; [now apply Hin |].
    split; [apply Qle_refl |]. split; [apply Qle_refl |].
    rewrite <- Hlen. fold n.
    assert (Hk : (S (n / 2) <= length (filter (fun t => Qle_bool t (nth (n / 2) v 0%Q))
                                              (s_values s)))%nat).
    { apply Hcount; [lia |]. intros i Hi. apply sorted_nth_le; trivial; lia. }
    pose proof (Nat.div_mod_eq n 2) as Hdm.
    pose proof (Nat.mod_upper_bound n 2). lia.
  - assert (Heven : Nat.even n = true)
      by (rewrite <- Nat.negb_odd, Eodd; reflexivity).
    apply Nat.even_spec in Heven as [h Hh].
    assert (Hdiv : (n / 2)%nat = h)
      by (rewrite Hh, Nat.mul_comm; apply Nat.div_mul; lia).
    rewrite Hdiv.
    assert (Hab : nth (h - 1) v 0 <= nth h v 0)
      by (apply sorted_nth_le; trivial; lia).
    exists ((nth (h - 1) v 0 + nth h v 0) / 2), (nth (h - 1) v 0), (nth h v 0).
    split; [reflexivity |].
    split; [apply Hin; lia |]. split; [apply Hin; lia |].
    split; [apply Qle_shift_div_l; [reflexivity | lraQ] |].
    split; [apply Qle_shift_div_r; [reflexivity | lraQ] |].
    rewrite <- Hlen. fold n.
    assert (Hk : (h <= length (filter
                     (fun t => Qle_bool t ((nth (h - 1) v 0 + nth h v 0) / 2)%Q)
                     (s_values s)))%nat).
    { apply Hcount; [lia |]. intros i Hi.
      apply Qle_trans with (nth (h - 1) v 0).
      - apply sorted_nth_le; trivial; lia.
      - apply Qle_shift_div_l; [reflexivity | lraQ]. }
    lia.
Qed.

(** X18.  In the median split the low group is never the smaller one: it
    holds at least half of the rows, the two groups together hold as many
    [bmi] values as there are rows, and the median lies between two of the
    targets.  With no rows both groups are empty. *)
Theorem median_split_low_group_no_smaller (df : DataFrame) (target bmi : list Q) :
  find_column "target" (columns df) = Some (Floats target) ->
  find_column "bmi" (columns df) = Some (Floats bmi) ->
  length bmi = length target ->
  exists m group1 group2,
    median_split df = Ok (m, group1, group2)
    /\ (length (s_values group1) + length (s_values group2))%nat = length target
    /\ (length (s_values group2) <= length (s_values group1))%nat
    /\ (target <> [] ->
        exists mv lo hi,
          m = Finite mv /\ In lo target /\ In hi target /\ lo <= mv /\ mv <= hi).
Proof.
  intros Htarget Hbmi Hlen.
  set (s := mkSeries (index df) target).
  set (m := median s).
  exists m, (mkSeries (select (le_mask s m) (index df)) (select (le_mask s m) bmi)),
    (mkSeries (select (gt_mask s m) (index df)) (select (gt_mask s m) bmi)).
  split.
  { unfold median_split, getitem at 1 3. rewrite Htarget. simpl.
    fold s. fold m. rewrite !(@getitem_boolean_index df _ "bmi"%string bmi Hbmi).
    reflexivity. }
  cbn [s_values].
  assert (Hcase : target = [] \/ target <> [])
    by (destruct target; [now left | right; discriminate]).
  destruct Hcase as [He | Hne].
  { unfold le_mask, gt_mask. simpl s_values. rewrite He. simpl.
    split; [reflexivity |]. split; [lia |]. intros H. now contradiction H. }
  destruct (median_counts s Hne) as (mv & lo & hi & Hm & Hlo & Hhi & H1 & H2 & Hhalf).
  fold m in Hm. simpl s_values in Hlo, Hhi, Hhalf.
  unfold le_mask, gt_mask. rewrite Hm. simpl s_values.
  rewrite !select_map_length by exact Hlen.
  pose proof (filter_split_length (fun t => Qle_bool t mv) target) as Hsum.
  split; [exact Hsum |]. split; [lia |].
  intros _. exists mv, lo, hi. now repeat split.
Qed.

Lemma median_split_low_group_no_smaller_witness :
  exists m group1 group2,
    median_split small_frame = Ok (m, group1, group2)
    /\ (length (s_values group2) <= length (s_values group1))%nat.
Proof.
  destruct (@median_split_low_group_no_smaller small_frame [20; 10; 30] [1; 2; 3]
              eq_refl eq_refl eq_refl)
    as (m & g1 & g2 & Hrun & _ & Hle & _).
  now exists m, g1, g2.
Defined.

Lemma qcut_labels_by_quartile_witness :
  exists l,
    nth_error [Some "Q1"; Some "Q1"; Some "Q2"; Some "Q3"; Some "Q4"]%string 4
    = Some (Some l)
    /\ In l ["Q1"; "Q2"; "Q3"; "Q4"]%string.
Proof.
  destruct (@qcut_labels_by_quartile
              (mkSeries [0; 1; 2; 3; 4]%nat [1; 2; 3; 4; 5])
              ["Q1"; "Q2"; "Q3"; "Q4"]%string
              [Some "Q1"; Some "Q1"; Some "Q2"; Some "Q3"; Some "Q4"]%string
              eq_refl eq_refl)
    as (b0 & b1 & b2 & b3 & b4 & _ & _ & _ & _ & _ & Hrows).
  destruct (Hrows 4%nat 5 eq_refl) as (j & l & _ & Hl & Hout & _).
  exists l. split; [exact Hout |]. eapply nth_error_In, Hl.
Defined.

(** *** Assigning and reading a column *)

Lemma find_column_replace (name other : string) (c : Column)
  (cols : list (string * Column)) :
  find_column other (replace_column name c cols)
  = if String.eqb other name then Some c else find_column other cols.
Proof.
  induction cols as [| [k c0] cols IH]; simpl.
  - rewrite String.eqb_sym. reflexivity.
  - destruct (String.eqb_spec k name) as [-> | Hk]; simpl.
    + rewrite (String.eqb_sym other name).
      now destruct (String.eqb name other).
    + destruct (String.eqb_spec k other) as [-> | Hko].
      * destruct (String.eqb_spec other name); [contradiction | reflexivity].
      * exact IH.
Qed.

Lemma names_replace (name : string) (c : Column) (cols : list (string * Column)) :
  map fst (replace_column name c cols)
  = if existsb (fun k => String.eqb k name) (map fst cols) then map fst cols
    else map fst cols ++ [name].
Proof.
  induction cols as [| [k c0] cols IH]; simpl; [reflexivity |].
  destruct (String.eqb k name); simpl; [reflexivity |].
  rewrite IH. now destruct (existsb _ (map fst cols)).
Qed.

Lemma replace_column_aligned (n : nat) (name : string) (c : Column)
  (cols : list (string * Column)) :
  column_length c = n ->
  Forall (fun kc => column_length (snd kc) = n) cols ->
  Forall (fun kc => column_length (snd kc) = n) (replace_column name c cols).
Proof.
  intros Hc. induction 1 as [| [k c0] cols Hk Hcols IH]; simpl.
  - now repeat constructor.
  - destruct (String.eqb k name); constructor; trivial.
Qed.

(** X11.  On a frame with at least one row, [df[name] = v] for an array
    [v] is accepted exactly when [v] has one entry per row, and raises
    [ValueError] otherwise.  When it is accepted, reading [name] back gives
    [v]; the rows, every other column and the order of the columns are as
    before, a new name is appended behind the last column, and the columns
    stay as long as the index. *)
Theorem setitem_then_getitem (d : DataFrame) (name : string) (v : list Q) :
  index d <> [] ->
  (length v <> length (index d) ->
     setitem d name (Floats v) = Raise ValueError)
  /\ (length v = length (index d) ->
      exists d',
        setitem d name (Floats v) = Ok d'
        /\ index d' = index d
        /\ find_column name (columns d') = Some (Floats v)
        /\ getitem d' name = Ok (mkSeries (index d) v)
        /\ (forall other, other <> name ->
              find_column other (columns d') = find_column other (columns d)
              /\ getitem d' other = getitem d other)
        /\ names d' = (if existsb (fun k => String.eqb k name) (names d)
                       then names d else names d ++ [name])
        /\ (aligned d -> aligned d')).
Proof.
  intros _. unfold setitem. cbn [column_length]. split; intros Hlen.
  - now destruct (Nat.eqb_spec (length v) (length (index d))).
  - rewrite Hlen, Nat.eqb_refl. eexists. split; [reflexivity |]. simpl.
    split; [reflexivity |].
    split; [now rewrite find_column_replace, String.eqb_refl |].
    split.
    { unfold getitem. simpl.
      now rewrite find_column_replace, String.eqb_refl. }
    split.
    { intros other Hne. unfold getitem. simpl. rewrite find_column_replace.
      destruct (String.eqb_spec other name); [contradiction | now split]. }
    split; [apply names_replace |].
    unfold aligned. simpl. now apply replace_column_aligned.
Qed.

Lemma setitem_then_getitem_witness :
  exists d',
    setitem small_frame "s1" (Floats [7; 8; 9]) = Ok d'
    /\ getitem d' "s1" = Ok (mkSeries [0; 1; 2]%nat [7; 8; 9])
    /\ getitem d' "bmi" = Ok (mkSeries [0; 1; 2]%nat [1; 2; 3]).
Proof.
  assert (Hrows : index small_frame <> []) by discriminate.
  destruct (proj2 (@setitem_then_getitem small_frame "s1" [7; 8; 9] Hrows)
              eq_refl)
    as (d' & Hset & _ & _ & Hget & Hother & _).
  exists d'. split; [exact Hset |]. split; [exact Hget |].
  assert (Hne : "bmi"%string <> "s1"%string) by discriminate.
  rewrite (proj2 (Hother "bmi"%string Hne)). reflexivity.
Defined.

(** *** Loading *)

(** X12.  Loading data of at least one row succeeds exactly when every
    row of the data has the ten features and there are as many targets as
    rows, and raises [ValueError] otherwise.  The loaded frame has the row labels 0, 1, ...,
    the ten named features followed by [target], one entry per row in
    every column; the feature named at position [j] reads back as column
    [j] of the data and [target] as the targets. *)
Theorem load_builds_aligned_frame (data : list (list Q)) (target : list Q) :
  data <> [] ->
  (is_ok (load data target) = true
   <-> Forall (fun row => length row = 10%nat) data
       /\ length target = length data)
  /\ (is_ok (load data target) = false -> load data target = Raise ValueError)
  /\ (forall df0, load data target = Ok df0 ->
        index df0 = seq 0 (length data)
        /\ names df0 = feature_names ++ ["target"%string]
        /\ aligned df0
        /\ (forall j name, nth_error feature_names j = Some name ->
              getitem df0 name
              = Ok (mkSeries (seq 0 (length data)) (column_of data j)))
        /\ getitem df0 "target" = Ok (mkSeries (seq 0 (length data)) target)).
Proof.
  intros _.
  assert (Hwidth : forallb (has_width 10) data = true
                   <-> Forall (fun row => length row = 10%nat) data).
  { rewrite forallb_forall, Forall_forall.
    split; intros H row Hrow; apply Nat.eqb_eq; now apply H. }
  unfold load. change (length feature_names) with 10%nat.
  destruct (forallb (has_width 10) data) eqn:Ew.
  - unfold setitem. cbn [index column_length]. rewrite length_seq.
    destruct (Nat.eqb_spec (length target) (length data)) as [Hlen | Hlen].
    + split; [split; [intros _; split; [now apply Hwidth | exact Hlen]
                     | reflexivity] |].
      split; [discriminate |].
      intros df0 H. injection H as <-. simpl.
      split; [reflexivity |]. split; [reflexivity |].
      split.
      { unfold aligned, column_of. simpl.
        repeat constructor; simpl; now rewrite ?length_map, ?length_seq. }
      split; [| reflexivity].
      intros j name Hj.
      do 10 (destruct j as [| j];
             [simpl in Hj; injection Hj as <-; reflexivity |]).
      destruct j; discriminate.
    + split; [split; [discriminate | intros [_ H]; contradiction] |].
      split; [reflexivity | discriminate].
  - split; [split; [discriminate |] |].
    + intros [H _]. apply Hwidth in H. discriminate.
    + split; [reflexivity | discriminate].
Qed.

Lemma load_builds_aligned_frame_witness :
  exists df0,
    load five_rows five_targets = Ok df0
    /\ getitem df0 "bmi" = Ok (mkSeries [0; 1; 2; 3; 4]%nat (column_of five_rows 2)).
Proof.
  assert (Hrows : five_rows <> []) by discriminate.
  eexists. split; [reflexivity |].
  apply (proj2 (proj2 (@load_builds_aligned_frame five_rows five_targets Hrows))
           _ eq_refl).
  reflexivity.
Defined.

Section Cells.

Variable ttest_1samp : list Q -> Q -> float * float.
Variable ttest_ind : list Q -> list Q -> float * float.
Variable ttest_rel : list Q -> list Q -> float * float.
Variable t_interval : list Q -> float * float.
Variable anova_lm : DataFrame -> result unit.
Variable ols_summary : list Q -> list Q -> result unit.

Local Abbreviation cells :=
  (notebook ttest_1samp ttest_ind ttest_rel t_interval anova_lm ols_summary).

(** Every cell but the ANOVA cell leaves [df] as it is. *)
Lemma reading_cells_keep_df (k : Kernel) :
  df (fst (one_sample_cell ttest_1samp k)) = df k
  /\ df (fst (two_sample_cell ttest_ind k)) = df k
  /\ df (fst (paired_cell ttest_rel k)) = df k
  /\ df (fst (confidence_cell t_interval k)) = df k
  /\ df (fst (regression_cell ols_summary k)) = df k.
Proof.
  unfold one_sample_cell, two_sample_cell, paired_cell, confidence_cell,
    regression_cell.
  repeat split;
    repeat match goal with
           | |- context [match ?x with _ => _ end] => destruct x
           end; reflexivity.
Qed.

Lemma anova_cell_extends (df0 : DataFrame) (k : Kernel) :
  find_column "bmi_quartile" (columns df0) = None ->
  extends df0 (df k) ->
  extends df0 (df (fst (anova_cell anova_lm k))).
Proof.
  intros Habsent Hext. unfold anova_cell.
  destruct (getitem (df k) "bmi") as [bmi |]; [| exact Hext].
  destruct (qcut bmi _) as [quartiles |]; [| exact Hext].
  destruct (setitem (df k) "bmi_quartile" (Categories quartiles)) as [d' |] eqn:E;
    [| exact Hext].
  destruct (setitem_quartiles _ Habsent Hext E) as [Hidx Hcols].
  assert (Hext' : extends df0 d') by (split; [exact Hidx | right; eauto]).
  now destruct (anova_lm d').
Qed.

Lemma cells_extend (df0 : DataFrame) (c : Cell) (k : Kernel) :
  find_column "bmi_quartile" (columns df0) = None ->
  In c cells ->
  extends df0 (df k) ->
  extends df0 (df (fst (c k))).
Proof.
  intros Habsent Hin Hext.
  destruct (reading_cells_keep_df k) as (H1 & H2 & H3 & H4 & H5).
  simpl in Hin.
  destruct Hin as [<- | [<- | [<- | [<- | [<- | [<- | []]]]]]];
    rewrite ?H1, ?H2, ?H3, ?H4, ?H5; trivial.
  now apply anova_cell_extends.
Qed.

Lemma runs_extend (df0 : DataFrame) (some : list Cell) (k : Kernel) :
  find_column "bmi_quartile" (columns df0) = None ->
  (forall c, In c some -> In c cells) ->
  extends df0 (df k) ->
  extends df0 (df (fst (Notebook.run some k)))
  /\ extends df0 (df (fst (Notebook.run_each some k))).
Proof.
  intros Habsent. revert k.
  induction some as [| c some IH]; intros k Hsub Hext; simpl; [now split |].
  assert (Hc : extends df0 (df (fst (c k))))
    by (apply cells_extend; trivial; apply Hsub; now left).
  destruct (c k) as [k' [e |]]; simpl in *.
  - split; [exact Hc |].
    destruct (IH k' (fun c' H => Hsub c' (or_intror H)) Hc) as [_ Heach].
    now destruct (Notebook.run_each some k').
  - now apply IH; [intros c' H; apply Hsub; right |].
Qed.

(** *** The cells on a loaded frame *)

Lemma load_columns (data : list (list Q)) (target : list Q) (df0 : DataFrame)
  (j : nat) (name : string) :
  load data target = Ok df0 ->
  nth_error feature_names j = Some name ->
  find_column name (columns df0) = Some (Floats (column_of data j)).
Proof.
  unfold load. destruct (forallb _ data); [| discriminate].
  unfold setitem. simpl.
  destruct (Nat.eqb (length target) (length (seq 0 (length data))));
    [| discriminate].
  intros H Hj. injection H as <-. simpl.
  do 10 (destruct j as [| j]; [simpl in Hj; injection Hj as <-; reflexivity |]).
  destruct j; discriminate.
Qed.

Lemma getitem_found (d : DataFrame) (name : string) (v : list Q) :
  find_column name (columns d) = Some (Floats v) ->
  getitem d name = Ok (mkSeries (index d) v).
Proof. unfold getitem. now intros ->. Qed.

Section Loaded.

Variables (data : list (list Q)) (target : list Q) (df0 : DataFrame) (k : Kernel).
Hypothesis loaded : load data target = Ok df0.
Hypothesis grown : extends df0 (df k).

Lemma loaded_feature (j : nat) (name : string) :
  nth_error feature_names j = Some name ->
  find_column name (columns (df k)) = Some (Floats (column_of data j)).
Proof.
  intros Hj. apply (@extends_find df0 (df k) _ _ grown).
  exact (@load_columns data target df0 j name loaded Hj).
Qed.

Lemma loaded_target :
  find_column "target" (columns (df k)) = Some (Floats target).
Proof.
  destruct (load_frame _ _ loaded) as (_ & _ & _ & _ & Htarget).
  exact (@extends_find df0 (df k) _ _ grown Htarget).
Qed.

Lemma one_sample_cell_loaded :
  let one := ttest_1samp (column_of data 2) 0 in
  one_sample_cell ttest_1samp k
  = (print k (one_sample_report (fst one) (snd one)), None).
Proof.
  intros one. unfold one_sample_cell.
  rewrite (getitem_found _ _ (loaded_feature 2 eq_refl)). simpl s_values.
  fold one. now destruct one.
Qed.

Lemma paired_cell_loaded :
  let rel := ttest_rel (column_of data 3) (column_of data 4) in
  paired_cell ttest_rel k = (print k (paired_report (fst rel) (snd rel)), None).
Proof.
  intros rel. unfold paired_cell.
  rewrite (getitem_found _ _ (loaded_feature 3 eq_refl)),
    (getitem_found _ _ (loaded_feature 4 eq_refl)).
  simpl s_values. fold rel. now destruct rel.
Qed.

Lemma confidence_cell_loaded :
  let ci := t_interval (column_of data 2) in
  confidence_cell t_interval k = (print k [Interval (fst ci) (snd ci)], None).
Proof.
  intros ci. unfold confidence_cell.
  rewrite (getitem_found _ _ (loaded_feature 2 eq_refl)). simpl s_values.
  fold ci. now destruct ci.
Qed.

Lemma two_sample_cell_loaded :
  exists m group1 group2,
    median_split (df k) = Ok (m, group1, group2)
    /\ let ind := ttest_ind (s_values group1) (s_values group2) in
       two_sample_cell ttest_ind k
       = (print k (two_sample_report (fst ind) (snd ind)), None).
Proof.
  pose proof (loaded_feature 2 eq_refl) as Hbmi.
  set (bmi := column_of data 2) in *.
  set (s := mkSeries (index (df k)) target).
  set (m := median s).
  exists m, (mkSeries (select (le_mask s m) (index (df k)))
                      (select (le_mask s m) bmi)),
    (mkSeries (select (gt_mask s m) (index (df k))) (select (gt_mask s m) bmi)).
  assert (Hsplit : median_split (df k) =
    Ok (m, mkSeries (select (le_mask s m) (index (df k)))
                    (select (le_mask s m) bmi),
           mkSeries (select (gt_mask s m) (index (df k)))
                    (select (gt_mask s m) bmi))).
  { unfold median_split. rewrite (getitem_found _ _ loaded_target). simpl bind.
    rewrite !(@getitem_boolean_index (df k) _ "bmi"%string bmi Hbmi).
    reflexivity. }
  split; [exact Hsplit |].
  unfold two_sample_cell. rewrite Hsplit. cbv zeta.
  now destruct (ttest_ind _ _).
Qed.

Lemma regression_cell_loaded :
  regression_cell ols_summary k
  = match ols_summary target (column_of data 2) with
    | Ok _ => (print k [Text "Simple Linear Regression (BMI vs Target):"; Table],
               None)
    | Raise e => (k, Some e)
    end.
Proof.
  unfold regression_cell.
  rewrite (getitem_found _ _ (loaded_feature 2 eq_refl)),
    (getitem_found _ _ loaded_target).
  simpl s_values. now destruct (ols_summary target (column_of data 2)).
Qed.

End Loaded.

(** X13.  On a loaded frame, also after the ANOVA cell has added its
    column, the three t-test cells and the interval cell never raise and
    print their lines: the one-sample test and the interval read the third
    feature of the data, the paired test the fourth and the fifth, the
    two-sample test the two groups of the median split.  The regression
    cell regresses the targets on the third feature and raises only what
    the fit raises.  None of them prints anything when it raises. *)
Theorem test_cells_read_loaded_columns (data : list (list Q)) (target : list Q)
  (df0 : DataFrame) (k : Kernel) :
  load data target = Ok df0 ->
  extends df0 (df k) ->
  let bmi := column_of data 2 in
  let one := ttest_1samp bmi 0 in
  let rel := ttest_rel (column_of data 3) (column_of data 4) in
  let ci := t_interval bmi in
  one_sample_cell ttest_1samp k
  = (print k (one_sample_report (fst one) (snd one)), None)
  /\ paired_cell ttest_rel k = (print k (paired_report (fst rel) (snd rel)), None)
  /\ confidence_cell t_interval k = (print k [Interval (fst ci) (snd ci)], None)
  /\ (exists m group1 group2,
        median_split (df k) = Ok (m, group1, group2)
        /\ let ind := ttest_ind (s_values group1) (s_values group2) in
           two_sample_cell ttest_ind k
           = (print k (two_sample_report (fst ind) (snd ind)), None))
  /\ regression_cell ols_summary k
     = match ols_summary target bmi with
       | Ok _ => (print k [Text "Simple Linear Regression (BMI vs Target):"; Table],
                  None)
       | Raise e => (k, Some e)
       end.
Proof.
  intros Hload Hext bmi one rel ci.
  split; [exact (@one_sample_cell_loaded data target df0 k Hload Hext) |].
  split; [exact (@paired_cell_loaded data target df0 k Hload Hext) |].
  split; [exact (@confidence_cell_loaded data target df0 k Hload Hext) |].
  split; [exact (@two_sample_cell_loaded data target df0 k Hload Hext) |].
  exact (@regression_cell_loaded data target df0 k Hload Hext).
Qed.

(** *** Columns and rows stay in step *)

Lemma runs_preserve (P : DataFrame -> Prop) (some : list Cell) :
  (forall c k, In c some -> P (df k) -> P (df (fst (c k)))) ->
  forall k, P (df k) ->
    P (df (fst (Notebook.run some k)))
    /\ P (df (fst (Notebook.run_each some k))).
Proof.
  induction some as [| c some IH]; intros Hstep k Hk; simpl; [now split |].
  assert (Hc : P (df (fst (c k)))) by (apply Hstep; [now left | exact Hk]).
  assert (Hrest : forall c' k', In c' some -> P (df k') -> P (df (fst (c' k'))))
    by (intros c' k' Hin; apply Hstep; now right).
  destruct (c k) as [k' [e |]]; simpl in *.
  - split; [exact Hc |].
    destruct (IH Hrest k' Hc) as [_ Heach].
    now destruct (Notebook.run_each some k').
  - now apply IH.
Qed.

Lemma anova_cell_aligned (k : Kernel) :
  aligned (df k) -> aligned (df (fst (anova_cell anova_lm k))).
Proof.
  intros Hk. unfold anova_cell.
  destruct (getitem (df k) "bmi") as [bmi |]; [| exact Hk].
  destruct (qcut bmi _) as [quartiles |]; [| exact Hk].
  unfold setitem.
  destruct (Nat.eqb_spec (column_length (Categories quartiles))
                         (length (index (df k)))) as [Hlen |]; [| exact Hk].
  assert (Hd' : aligned (mkDataFrame (index (df k))
                  (replace_column "bmi_quartile" (Categories quartiles)
                                  (columns (df k)))))
    by (unfold aligned; simpl; now apply replace_column_aligned).
  now destruct (anova_lm _).
Qed.

(** X14.  However the cells are run, alone, in any order, repeatedly, with
    or without errors on the way, they keep every column of [df] as long
    as its index. *)
Theorem cells_keep_columns_aligned (some : list Cell) (k : Kernel) :
  (forall c, In c some -> In c cells) ->
  aligned (df k) ->
  aligned (df (fst (Notebook.run some k)))
  /\ aligned (df (fst (Notebook.run_each some k))).
Proof.
  intros Hsub. apply runs_preserve. intros c k0 Hin Hk0.
  destruct (reading_cells_keep_df k0) as (H1 & H2 & H3 & H4 & H5).
  specialize (Hsub c Hin). simpl in Hsub.
  destruct Hsub as [<- | [<- | [<- | [<- | [<- | [<- | []]]]]]];
    rewrite ?H1, ?H2, ?H3, ?H4, ?H5; trivial.
  now apply anova_cell_aligned.
Qed.

(** *** The ANOVA cell run again *)

Lemma replace_column_twice (name : string) (c : Column)
  (cols : list (string * Column)) :
  replace_column name c (replace_column name c cols) = replace_column name c cols.
Proof.
  induction cols as [| [k c0] cols IH]; simpl.
  - now rewrite String.eqb_refl.
  - destruct (String.eqb k name) eqn:E; simpl; rewrite E; [reflexivity |].
    now rewrite IH.
Qed.

(** X15.  Running the ANOVA cell a second time changes nothing in [df]:
    the quartile column is computed from the same [bmi] values and
    overwritten in place, and the cell ends as it did the first time. *)
Theorem anova_cell_twice (k : Kernel) :
  let k1 := fst (anova_cell anova_lm k) in
  df (fst (anova_cell anova_lm k1)) = df k1
  /\ snd (anova_cell anova_lm k1) = snd (anova_cell anova_lm k).
Proof.
  cbv zeta.
  destruct (getitem (df k) "bmi") as [bmi | e] eqn:Eb.
  2:{ assert (Hfirst : anova_cell anova_lm k = (k, Some e))
        by (unfold anova_cell; now rewrite Eb).
      rewrite Hfirst. cbn [fst snd]. rewrite Hfirst. now split. }
  destruct (qcut bmi ["Q1"; "Q2"; "Q3"; "Q4"]%string) as [quartiles | e] eqn:Eq.
  2:{ assert (Hfirst : anova_cell anova_lm k = (k, Some e))
        by (unfold anova_cell; now rewrite Eb, Eq).
      rewrite Hfirst. cbn [fst snd]. rewrite Hfirst. now split. }
  destruct (setitem (df k) "bmi_quartile" (Categories quartiles))
    as [d' | e] eqn:Es.
  2:{ assert (Hfirst : anova_cell anova_lm k = (k, Some e))
        by (unfold anova_cell; now rewrite Eb, Eq, Es).
      rewrite Hfirst. cbn [fst snd]. rewrite Hfirst. now split. }
  assert (Hd' : d' = mkDataFrame (index (df k))
                       (replace_column "bmi_quartile" (Categories quartiles)
                                       (columns (df k)))).
  { unfold setitem in Es. destruct (Nat.eqb _ _); [| discriminate].
    now injection Es as <-. }
  assert (Hb' : getitem d' "bmi" = Ok bmi).
  { rewrite <- Eb, Hd'. unfold getitem. simpl.
    now rewrite find_column_replace. }
  assert (Hs' : setitem d' "bmi_quartile" (Categories quartiles) = Ok d').
  { unfold setitem in *. rewrite Hd' at 1. cbn [index].
    destruct (Nat.eqb _ _); [| discriminate].
    rewrite Hd'. cbn [index columns]. now rewrite replace_column_twice. }
  assert (Hrun : forall k0, df k0 = d' ->
            anova_cell anova_lm k0
            = match anova_lm d' with
              | Ok _ =>
                  (print (mkKernel d' (stdout k0))
                     [Text "One-Way ANOVA for Target across BMI Quartiles:"; Table],
                   None)
              | Raise e => (mkKernel d' (stdout k0), Some e)
              end).
  { intros k0 Hk0. unfold anova_cell. now rewrite Hk0, Hb', Eq, Hs'. }
  assert (Hfirst : anova_cell anova_lm k
            = match anova_lm d' with
              | Ok _ =>
                  (print (mkKernel d' (stdout k))
                     [Text "One-Way ANOVA for Target across BMI Quartiles:"; Table],
                   None)
              | Raise e => (mkKernel d' (stdout k), Some e)
              end).
  { unfold anova_cell. now rewrite Eb, Eq, Es. }
  rewrite Hfirst.
  destruct (anova_lm d') eqn:Ea; cbn [fst snd]; rewrite Hrun by reflexivity;
    rewrite ?Ea; now split.
Qed.

(** *** The ANOVA cell on a feature that does not vary *)

(** X17.  When all [bmi] values of the frame are equal, or the frame has
    no rows, the quartile edges are not distinct: the ANOVA cell raises
    [ValueError], adds no column and prints nothing. *)
Theorem anova_cell_refuses_flat_bmi (k : Kernel) (bmi : list Q) :
  find_column "bmi" (columns (df k)) = Some (Floats bmi) ->
  (forall x y, In x bmi -> In y bmi -> x == y) ->
  anova_cell anova_lm k = (k, Some ValueError).
Proof.
  intros Hbmi Hflat. unfold anova_cell.
  rewrite (@getitem_found (df k) "bmi"%string bmi Hbmi).
  now rewrite (@qcut_flat (mkSeries (index (df k)) bmi) _ Hflat).
Qed.

(** *** The whole notebook on a loaded frame *)

Lemma anova_cell_on_loaded_frame (data : list (list Q)) (target : list Q)
  (df0 : DataFrame) (k : Kernel) :
  load data target = Ok df0 ->
  df k = df0 ->
  anova_cell anova_lm k
  = match qcut (mkSeries (index df0) (column_of data 2))
                ["Q1"; "Q2"; "Q3"; "Q4"]%string with
    | Raise e => (k, Some e)
    | Ok quartiles =>
        let df' := mkDataFrame (index df0)
                     (columns df0 ++ [("bmi_quartile"%string, Categories quartiles)]) in
        match anova_lm df' with
        | Raise e => (mkKernel df' (stdout k), Some e)
        | Ok _ =>
            (print (mkKernel df' (stdout k))
               [Text "One-Way ANOVA for Target across BMI Quartiles:"; Table], None)
        end
    end.
Proof.
  intros Hload Hk.
  destruct (load_frame _ _ Hload) as (Hidx & _ & Habsent & Hbmi & _).
  unfold anova_cell. rewrite Hk.
  rewrite (@getitem_found df0 "bmi"%string (column_of data 2) Hbmi).
  destruct (qcut _ _) as [quartiles | e] eqn:Eq; [| reflexivity].
  assert (Hlen : length quartiles = length (index df0)).
  { unfold qcut in Eq. destruct (all_finite _); [| discriminate].
    destruct (strictly_increasing _); [| discriminate].
    apply (f_equal (fun r => match r with Ok o => o | Raise _ => [] end)) in Eq.
    subst quartiles. rewrite length_map. simpl s_values.
    unfold column_of. now rewrite length_map, Hidx, length_seq. }
  unfold setitem. cbn [column_length]. rewrite Hlen, Nat.eqb_refl.
  now rewrite (@replace_column_absent "bmi_quartile"%string (Categories quartiles) (columns df0) Habsent).
Qed.

(** X19.  "Run All" on a loaded frame, with statsmodels fits that succeed:
    when the quartile edges of [bmi] are distinct every cell runs to its
    end, fourteen lines are printed behind what was there, and the frame is
    the loaded one with the quartile column appended; otherwise the run
    stops in the ANOVA cell with [ValueError], after the ten lines of the
    four cells before it, with the frame as loaded and the regression cell
    not run. *)
Theorem notebook_runs_through (data : list (list Q)) (target : list Q)
  (df0 : DataFrame) (out : list Line) :
  load data target = Ok df0 ->
  (forall d, is_ok (anova_lm d) = true) ->
  (forall y X, is_ok (ols_summary y X) = true) ->
  exists k' printed,
    stdout k' = out ++ printed
    /\ match qcut (mkSeries (index df0) (column_of data 2))
                   ["Q1"; "Q2"; "Q3"; "Q4"]%string with
       | Ok quartiles =>
           Notebook.run cells (mkKernel df0 out) = (k', None)
           /\ length printed = 14%nat
           /\ index (df k') = index df0
           /\ columns (df k')
              = columns df0 ++ [("bmi_quartile"%string, Categories quartiles)]
       | Raise e =>
           Notebook.run cells (mkKernel df0 out) = (k', Some e)
           /\ e = ValueError
           /\ length printed = 10%nat
           /\ df k' = df0
       end.
Proof.
  intros Hload Hanova Hols.
  set (k0 := mkKernel df0 out).
  pose proof (@one_sample_cell_loaded data target df0 k0 Hload
                (extends_refl df0)) as H1.
  cbv zeta in H1. set (k1 := print k0 _) in H1.
  destruct (@two_sample_cell_loaded data target df0 k1 Hload (extends_refl df0))
    as (m & g1 & g2 & _ & H2).
  cbv zeta in H2. set (k2 := print k1 _) in H2.
  pose proof (@paired_cell_loaded data target df0 k2 Hload (extends_refl df0))
    as H3.
  cbv zeta in H3. set (k3 := print k2 _) in H3.
  pose proof (@confidence_cell_loaded data target df0 k3 Hload
                (extends_refl df0)) as H4.
  cbv zeta in H4. set (k4 := print k3 _) in H4.
  pose proof (@anova_cell_on_loaded_frame data target df0 k4 Hload eq_refl) as H5.
  assert (Hrun4 : forall rest,
            Notebook.run (one_sample_cell ttest_1samp :: two_sample_cell ttest_ind
                          :: paired_cell ttest_rel :: confidence_cell t_interval
                          :: rest) k0
            = Notebook.run rest k4).
  { intros rest.
    rewrite (NotebookFacts.run_cons (one_sample_cell ttest_1samp)), H1.
    rewrite (NotebookFacts.run_cons (two_sample_cell ttest_ind)), H2.
    rewrite (NotebookFacts.run_cons (paired_cell ttest_rel)), H3.
    rewrite (NotebookFacts.run_cons (confidence_cell t_interval)), H4.
    reflexivity. }
  unfold notebook. rewrite Hrun4.
  rewrite (NotebookFacts.run_cons (anova_cell anova_lm)), H5.
  assert (Hflat_only : forall e,
            qcut (mkSeries (index df0) (column_of data 2))
                 ["Q1"; "Q2"; "Q3"; "Q4"]%string = Raise e -> e = ValueError).
  { intros e. unfold qcut. destruct (all_finite _); [| congruence].
    destruct (strictly_increasing _); [discriminate | congruence]. }
  destruct (qcut _ _) as [quartiles | e] eqn:Eq.
  - cbv zeta. set (df' := mkDataFrame _ _).
    specialize (Hanova df'). destruct (anova_lm df'); [| discriminate].
    set (k5 := print _ _).
    assert (Hgrown : extends df0 (df k5))
      by (split; [reflexivity | right; now exists quartiles]).
    pose proof (@regression_cell_loaded data target df0 k5 Hload Hgrown) as H6.
    rewrite (NotebookFacts.run_cons (regression_cell ols_summary)), H6.
    specialize (Hols target (column_of data 2)).
    destruct (ols_summary target (column_of data 2)); [| discriminate].
    eexists. eexists. split; [| split; [reflexivity | split; [| now split]]].
    + unfold k5, k4, k3, k2, k1, k0, print. cbn [stdout].
      rewrite <- !app_assoc. reflexivity.
    + rewrite !length_app.
      now destruct (ttest_1samp _ _), (ttest_ind _ _), (ttest_rel _ _),
        (t_interval _).
  - eexists. eexists. split; [| split; [reflexivity | split; [now apply Hflat_only |]]].
    + unfold k4, k3, k2, k1, k0, print. cbn [stdout].
      rewrite <- !app_assoc. reflexivity.
    + split; [| reflexivity]. rewrite !length_app.
      now destruct (ttest_1samp _ _), (ttest_ind _ _), (ttest_rel _ _),
        (t_interval _).
Qed.

End Cells.

Lemma test_cells_read_loaded_columns_witness :
  exists df0,
    load five_rows five_targets = Ok df0
    /\ paired_cell quiet_ttest (mkKernel df0 [])
       = (print (mkKernel df0 []) (paired_report 0%float 1%float), None).
Proof.
  eexists. split; [reflexivity |].
  apply (@test_cells_read_loaded_columns quiet_ttest_1samp quiet_ttest quiet_ttest
           quiet_interval quiet_ols five_rows five_targets _ (mkKernel _ [])
           eq_refl (extends_refl _)).
Defined.

Lemma cells_keep_columns_aligned_witness :
  aligned (df (fst (Notebook.run_each (quiet_notebook ++ quiet_notebook)
                      (mkKernel small_frame [])))).
Proof.
  assert (Hsmall : aligned small_frame) by (repeat constructor).
  apply (@cells_keep_columns_aligned quiet_ttest_1samp quiet_ttest quiet_ttest
           quiet_interval quiet_anova quiet_ols (quiet_notebook ++ quiet_notebook)
           (mkKernel small_frame [])
           (fun c H => match in_app_or _ _ _ H with
                       | or_introl H1 => H1
                       | or_intror H2 => H2
                       end)
           Hsmall).
Defined.

Lemma anova_cell_refuses_flat_bmi_witness :
  anova_cell quiet_anova
    (mkKernel (mkDataFrame [0; 1]%nat
                 [("bmi"%string, Floats [2; 2]); ("target"%string, Floats [10; 20])])
              [])
  = (mkKernel (mkDataFrame [0; 1]%nat
                 [("bmi"%string, Floats [2; 2]); ("target"%string, Floats [10; 20])])
              [],
     Some ValueError).
Proof.
  assert (Hflat : forall x y : Q, In x [2; 2] -> In y [2; 2] -> x == y).
  { intros x y [<- | [<- | []]] [<- | [<- | []]]; reflexivity. }
  apply (@anova_cell_refuses_flat_bmi quiet_anova
           (mkKernel (mkDataFrame [0; 1]%nat
                        [("bmi"%string, Floats [2; 2]);
                         ("target"%string, Floats [10; 20])]) [])
           [2; 2] eq_refl Hflat).
Defined.

Lemma notebook_runs_through_witness :
  exists df0 k',
    load five_rows five_targets = Ok df0
    /\ Notebook.run quiet_notebook (mkKernel df0 []) = (k', None)
    /\ length (stdout k') = 14%nat.
Proof.
  destruct (@notebook_runs_through quiet_ttest_1samp quiet_ttest quiet_ttest
              quiet_interval quiet_anova quiet_ols five_rows five_targets _ []
              eq_refl (fun _ => eq_refl) (fun _ _ => eq_refl))
    as (k' & printed & Hout & Hrun).
  vm_compute qcut in Hrun. cbv iota in Hrun.
  destruct Hrun as (Hrun & Hlen & _).
  eexists. exists k'. split; [reflexivity |]. split; [exact Hrun |].
  rewrite Hout. exact Hlen.
Defined.

End DiabetesFacts.

(* ------------------------------------------------------------------ *)
(** ** The loaded frame after loading                                  *)
(* ------------------------------------------------------------------ *)

Module LoadedFrameFacts.

(** C7, as the code has it.  In the wine notebook no cell after the
    loading cell touches [df], however the cells are run.  In the diabetes
    notebook the cells leave the rows, the loaded columns and their values
    as they were loaded, but the ANOVA cell writes one more column,
    [bmi_quartile], into the loaded frame; that is the only change. *)
Theorem loaded_frame_only_grows :
  (forall (RandomState : Type) (seeded : Z -> RandomState)
          (permutation : RandomState -> nat -> list nat * RandomState)
          (fit : Wine.Model -> Preprocessing.Array -> list nat
                 -> result Wine.Classifier)
          (argsort : list Q -> list nat)
          (k : Wine.Kernel RandomState),
      Wine.globals
        (fst (Notebook.run (Wine.pipeline seeded permutation fit argsort) k)) "df"
      = Wine.globals k "df"
      /\ Wine.globals
           (fst (Notebook.run_each
                   (Wine.pipeline seeded permutation fit argsort) k)) "df"
         = Wine.globals k "df")
  /\ (forall (ttest_1samp : list Q -> Q -> float * float)
             (ttest_ind ttest_rel : list Q -> list Q -> float * float)
             (t_interval : list Q -> float * float)
             (anova_lm : Diabetes.DataFrame -> result unit)
             (ols_summary : list Q -> list Q -> result unit)
             (data : list (list Q)) (target : list Q)
             (df0 : Diabetes.DataFrame) (out : list Diabetes.Line)
             (k' : Diabetes.Kernel),
        Diabetes.load data target = Ok df0 ->
        let cells := Diabetes.notebook ttest_1samp ttest_ind ttest_rel
                       t_interval anova_lm ols_summary in
        k' = fst (Notebook.run cells (Diabetes.mkKernel df0 out))
        \/ k' = fst (Notebook.run_each cells (Diabetes.mkKernel df0 out)) ->
        Diabetes.index (Diabetes.df k') = Diabetes.index df0
        /\ (forall name c,
              Diabetes.find_column name (Diabetes.columns df0) = Some c ->
              Diabetes.find_column name (Diabetes.columns (Diabetes.df k')) = Some c)
        /\ (Diabetes.columns (Diabetes.df k') = Diabetes.columns df0
            \/ exists quartiles,
                 Diabetes.columns (Diabetes.df k')
                 = Diabetes.columns df0
                   ++ [("bmi_quartile"%string, Diabetes.Categories quartiles)])).
Proof.
  split.
  - intros. apply WineFacts.pipeline_leaves_df.
  - intros t1 t2 t3 ti an ols data target df0 out k' Hload cells Hk'.
    destruct (DiabetesFacts.load_frame _ _ Hload) as (_ & _ & Habsent & _).
    destruct (@DiabetesFacts.runs_extend t1 t2 t3 ti an ols df0 cells
                (Diabetes.mkKernel df0 out) Habsent (fun c H => H)
                (DiabetesFacts.extends_refl df0)) as [Hrun Heach].
    assert (Hext : Diabetes.extends df0 (Diabetes.df k'))
      by (destruct Hk' as [-> | ->]; assumption).
    split; [apply Hext |]. split; [| apply Hext].
    intros name c. now apply DiabetesFacts.extends_find.
Qed.

Lemma loaded_frame_only_grows_witness :
  exists df0,
    Diabetes.load Diabetes.five_rows Diabetes.five_targets = Ok df0
    /\ Diabetes.index
         (Diabetes.df (fst (Notebook.run Diabetes.quiet_notebook
                              (Diabetes.mkKernel df0 []))))
       = Diabetes.index df0.
Proof.
  eexists. split; [reflexivity |].
  apply (proj2 loaded_frame_only_grows
           Diabetes.quiet_ttest_1samp Diabetes.quiet_ttest Diabetes.quiet_ttest
           Diabetes.quiet_interval Diabetes.quiet_anova Diabetes.quiet_ols
           Diabetes.five_rows Diabetes.five_targets _ [] _ eq_refl
           (or_introl eq_refl)).
Defined.

(** C7, as the claim has it, fails: on five rows the loaded frame has the
    ten features and the target; after the cells it has twelve columns. *)
Lemma anova_cell_adds_a_column :
  exists df0,
    Diabetes.load Diabetes.five_rows Diabetes.five_targets = Ok df0
    /\ Diabetes.names df0 = Diabetes.feature_names ++ ["target"%string]
    /\ Diabetes.names
         (Diabetes.df (fst (Notebook.run Diabetes.quiet_notebook
                              (Diabetes.mkKernel df0 []))))
       = Diabetes.feature_names ++ ["target"%string; "bmi_quartile"%string]
    /\ Diabetes.find_column "bmi_quartile"
         (Diabetes.columns
            (Diabetes.df (fst (Notebook.run Diabetes.quiet_notebook
                                 (Diabetes.mkKernel df0 [])))))
       = Some (Diabetes.Categories
                 [Some "Q1"; Some "Q1"; Some "Q2"; Some "Q3"; Some "Q4"]%string).
Proof.
  eexists. split; [reflexivity |]. vm_compute. repeat split; reflexivity.
Qed.

End LoadedFrameFacts.
